(** * nano_keras: layers and the AdaMax optimizer, embedded and verified

    A shallow embedding of [nano_keras/layers.py] and
    [nano_keras/optimizers/AdaMax.py].  NumPy arrays are row-major flat
    lists with a shape; Python exceptions are an explicit result type;
    element arithmetic is an interface ([Scalar]) so that no statement
    depends on a floating-point format. *)

From Stdlib Require Import ZArith QArith Qabs Lia.
From stdpp Require Import base option list gmap strings.

Open Scope nat_scope.
Open Scope string_scope.

(** ** Python exceptions and results *)

Inductive pyexn : Type :=
| PyException          (* the base class [Exception] itself *)
| ValueError
| IndexError
| TypeError
| AttributeError
| ZeroDivisionError
| KeyError
| NotImplementedError.

#[global] Instance pyexn_eq_dec : EqDecision pyexn.
Proof. solve_decision. Defined.

Inductive result (A : Type) : Type :=
| Ok (a : A)
| Raise (e : pyexn) (msg : string).
Arguments Ok {A} a.
Arguments Raise {A} e msg.

#[global] Instance result_ret : MRet result := fun A a => Ok a.
#[global] Instance result_bind : MBind result := fun A B f r =>
  match r with
  | Ok a => f a
  | Raise e msg => Raise e msg
  end.
#[global] Instance result_fmap : FMap result := fun A B f r =>
  match r with
  | Ok a => Ok (f a)
  | Raise e msg => Raise e msg
  end.

Definition is_ok {A} (r : result A) : bool :=
  match r with Ok _ => true | Raise _ _ => false end.

(** [try: ... except: ...] with a bare [except] clause. *)
Definition try_except {A} (body : result A) (handler : A) : A :=
  match body with
  | Ok a => a
  | Raise _ _ => handler
  end.

(** ** Element arithmetic *)

Class Scalar (R : Type) : Type := {
  s_zero : R;
  s_one : R;
  s_add : R -> R -> R;
  s_sub : R -> R -> R;
  s_mul : R -> R -> R;
  s_div : R -> R -> R;          (* array division: never raises *)
  s_abs : R -> R;
  s_max : R -> R -> R;
  s_sqrt : R -> R;
  s_pow : R -> nat -> R;
  s_of_Z : Z -> R;
  s_is_zero : R -> bool;
}.

(** Division of two Python floats raises on a zero divisor. *)
Definition py_div `{Scalar R} (a b : R) : result R :=
  if s_is_zero b then Raise ZeroDivisionError "float division by zero"
  else Ok (s_div a b).

#[global] Instance Z_scalar : Scalar Z := {|
  s_zero := 0%Z; s_one := 1%Z;
  s_add := Z.add; s_sub := Z.sub; s_mul := Z.mul; s_div := Z.div;
  s_abs := Z.abs; s_max := Z.max; s_sqrt := Z.sqrt;
  s_pow := fun a n => Z.pow a (Z.of_nat n);
  s_of_Z := fun z => z;
  s_is_zero := Z.eqb 0%Z;
|}.

Definition Qmax (a b : Q) : Q := if Qle_bool a b then b else a.

(** Exact rationals, normalised after every operation; the square root is
    taken on numerator and denominator separately (exact on squares). *)
#[global] Instance Q_scalar : Scalar Q := {|
  s_zero := 0%Q; s_one := 1%Q;
  s_add := fun a b => Qred (Qplus a b);
  s_sub := fun a b => Qred (Qminus a b);
  s_mul := fun a b => Qred (Qmult a b);
  s_div := fun a b => Qred (Qdiv a b);
  s_abs := fun a => Qred (Qabs a);
  s_max := fun a b => Qred (Qmax a b);
  s_sqrt := fun a => Qmake (Z.sqrt (Qnum a)) (Pos.sqrt (Qden a));
  s_pow := fun a n => Qred (Qpower a (Z.of_nat n));
  s_of_Z := inject_Z;
  s_is_zero := fun a => Z.eqb (Qnum a) 0%Z;
|}.

(** ** Arrays *)

Record ndarray (A : Type) : Type := mk_ndarray {
  shape : list nat;
  data : list A;
}.
Arguments mk_ndarray {A} shape data.
Arguments shape {A} _.
Arguments data {A} _.

Definition product (sh : list nat) : nat := foldr Nat.mul 1 sh.

Definition well_formed {A} (a : ndarray A) : Prop :=
  length (data a) = product (shape a).

Definition size {A} (a : ndarray A) : nat := product (shape a).
Definition ndim {A} (a : ndarray A) : nat := length (shape a).

(** All multi-indices of a shape, in row-major (C) order. *)
Fixpoint indices (sh : list nat) : list (list nat) :=
  match sh with
  | [] => [[]]
  | n :: sh' => i ← seq 0 n; (cons i) <$> indices sh'
  end.

(** Flat offset of a multi-index; [None] when out of bounds or of the
    wrong rank. *)
Fixpoint ravel_index (sh idx : list nat) : option nat :=
  match sh, idx with
  | [], [] => Some 0
  | n :: sh', i :: idx' =>
      if decide (i < n)
      then (fun o => i * product sh' + o) <$> ravel_index sh' idx'
      else None
  | _, _ => None
  end.

Definition get_at {A} (a : ndarray A) (idx : list nat) : option A :=
  o ← ravel_index (shape a) idx; data a !! o.

(** The array of a given shape whose entry at [idx] is [f idx]. *)
Definition gather {A} (sh : list nat) (f : list nat -> A) : ndarray A :=
  mk_ndarray sh (f <$> indices sh).

(** Same, for an entry computation that may raise; the first error in
    row-major order is the one reported. *)
Fixpoint sequence_result {A} (l : list (result A)) : result (list A) :=
  match l with
  | [] => Ok []
  | r :: l' => x ← r; xs ← sequence_result l'; mret (x :: xs)
  end.

Definition gather_result {A} (sh : list nat) (f : list nat -> result A)
  : result (ndarray A) :=
  d ← sequence_result (f <$> indices sh); mret (mk_ndarray sh d).

Definition in_bounds (sh idx : list nat) : Prop := Forall2 lt idx sh.

#[global] Instance in_bounds_dec (sh idx : list nat) : Decision (in_bounds sh idx).
Proof. unfold in_bounds. apply _. Defined.


(** ** NumPy operations *)

#[global] Instance scalar_inhabited `{Scalar R} : Inhabited R := populate s_zero.

(** Entry at a multi-index; arrays built by the operations below are
    well formed, so the default is never read on an in-bounds index. *)
Definition item `{Inhabited A} (a : ndarray A) (idx : list nat) : A :=
  default inhabitant (get_at a idx).

Definition full {A} (sh : list nat) (v : A) : ndarray A :=
  mk_ndarray sh (replicate (product sh) v).

Definition zeros_like `{Scalar R} (a : ndarray R) : ndarray R :=
  full (shape a) s_zero.

Definition map_arr {A B} (f : A -> B) (a : ndarray A) : ndarray B :=
  mk_ndarray (shape a) (f <$> data a).

(** [np.array([])]: one axis of extent 0. *)
Definition empty_array {A} : ndarray A := mk_ndarray [0] [].

(** A shape given by Python integers: negative extents are refused. *)
Definition shape_of_ints (dims : list Z) : result (list nat) :=
  if forallb (Z.leb 0) dims then Ok (Z.to_nat <$> dims)
  else Raise ValueError "negative dimensions are not allowed".

Definition np_zeros `{Scalar R} (dims : list Z) : result (ndarray R) :=
  sh ← shape_of_ints dims; mret (full sh s_zero).

(** Python's [//] on integers. *)
Definition py_floordiv (a b : Z) : result Z :=
  if Z.eqb b 0 then Raise ZeroDivisionError "integer division or modulo by zero"
  else Ok (a / b)%Z.

(** Broadcasting: shapes are aligned on their last axis; two extents are
    compatible when equal or when one of them is 1. *)
Fixpoint broadcast_rev (s1 s2 : list nat) : option (list nat) :=
  match s1, s2 with
  | [], s => Some s
  | s, [] => Some s
  | a :: s1', b :: s2' =>
      d ← (if decide (a = b) then Some a
           else if decide (a = 1) then Some b
           else if decide (b = 1) then Some a
           else None);
      r ← broadcast_rev s1' s2';
      Some (d :: r)
  end.

Definition broadcast_shapes (s1 s2 : list nat) : option (list nat) :=
  reverse <$> broadcast_rev (reverse s1) (reverse s2).

(** The index read in an operand of shape [s] for the result index [idx]. *)
Definition bc_index (s idx : list nat) : list nat :=
  zip_with (fun d i => if decide (d = 1) then 0 else i)
           s (drop (length idx - length s) idx).

Definition broadcast_op `{Inhabited A} `{Inhabited B} {C}
    (f : A -> B -> C) (a : ndarray A) (b : ndarray B) : result (ndarray C) :=
  match broadcast_shapes (shape a) (shape b) with
  | None => Raise ValueError "operands could not be broadcast together"
  | Some sh =>
      Ok (gather sh (fun idx => f (item a (bc_index (shape a) idx))
                                  (item b (bc_index (shape b) idx))))
  end.

(** In-place [a op= b]: the broadcast result must have [a]'s own shape. *)
Definition inplace_op `{Inhabited A} `{Inhabited B}
    (f : A -> B -> A) (a : ndarray A) (b : ndarray B) : result (ndarray A) :=
  match broadcast_shapes (shape a) (shape b) with
  | None => Raise ValueError "operands could not be broadcast together"
  | Some sh =>
      if decide (sh = shape a)
      then Ok (gather sh (fun idx => f (item a idx)
                                       (item b (bc_index (shape b) idx))))
      else Raise ValueError "non-broadcastable output operand"
  end.

(** [a.reshape] on a tuple of extents: one extent may be -1 and is then inferred. *)
Definition count_minus_one (target : list Z) : nat :=
  length (filter (fun d => d = (-1)%Z) target).

Definition known_product (target : list Z) : Z :=
  foldr Z.mul 1%Z (filter (fun d => d <> (-1)%Z) target).

Definition reshape_target (n : nat) (target : list Z) : result (list nat) :=
  if negb (forallb (Z.leb (-1)) target)
  then Raise ValueError "negative dimensions not allowed"
  else match count_minus_one target with
       | 0 =>
           if decide (known_product target = Z.of_nat n)
           then Ok (Z.to_nat <$> target)
           else Raise ValueError "cannot reshape array"
       | 1 =>
           let k := known_product target in
           if decide (k <> 0%Z /\ (Z.of_nat n mod k = 0)%Z)
           then Ok ((fun d => if decide (d = (-1)%Z)
                              then Z.to_nat (Z.of_nat n / k) else Z.to_nat d)
                      <$> target)
           else Raise ValueError "cannot reshape array"
       | _ => Raise ValueError "can only specify one unknown dimension"
       end.

Definition np_reshape {A} (a : ndarray A) (target : list Z) : result (ndarray A) :=
  sh ← reshape_target (size a) target; mret (mk_ndarray sh (data a)).

Definition np_ravel {A} (a : ndarray A) : ndarray A :=
  mk_ndarray [size a] (data a).

(** Basic slicing [a[0:stops[0], 0:stops[1], ...]]: a slice past the end is
    clipped; more slices than axes is an error. *)
Fixpoint clip_shape (sh stops : list nat) : list nat :=
  match sh, stops with
  | n :: sh', s :: stops' => Nat.min n s :: clip_shape sh' stops'
  | _, _ => sh
  end.

Definition slice_prefix `{Inhabited A} (a : ndarray A) (stops : list nat)
  : result (ndarray A) :=
  if decide (length stops <= ndim a)
  then Ok (gather (clip_shape (shape a) stops) (item a))
  else Raise IndexError "too many indices for array".


(** ** Mutable state with exceptions

    A method that assigns to [self] or to an array and may raise part-way
    keeps the assignments made before the exception. *)

Definition M (S A : Type) : Type := S -> S * result A.

#[global] Instance M_ret {S} : MRet (M S) := fun A a s => (s, Ok a).
#[global] Instance M_bind {S} : MBind (M S) := fun A B f m s =>
  match m s with
  | (s', Ok a) => f a s'
  | (s', Raise e msg) => (s', Raise e msg)
  end.

Definition m_get {S} : M S S := fun s => (s, Ok s).
Definition m_modify {S} (f : S -> S) : M S unit := fun s => (f s, Ok tt).
Definition m_lift {S A} (r : result A) : M S A := fun s => (s, r).

(** Arrays passed by reference live in a store keyed by object identity. *)
Definition loc : Type := nat.
Abbreviation heap R := (gmap loc (ndarray R)) (only parsing).

(** ** optimizers/AdaMax.py *)

Module AdaMax.
Section WithScalar.
Context `{Scalar R}.

Record state : Type := mk_state {
  learning_rate : R;
  beta1 : R;
  beta2 : R;
  e : R;
  adjust_biases_shape : bool;
  m_w : ndarray R;
  u_w : ndarray R;
  m_b : ndarray R;
  u_b : ndarray R;
  t : nat;
}.

Definition set_m_w (v : ndarray R) (s : state) : state :=
  mk_state (learning_rate s) (beta1 s) (beta2 s) (e s) (adjust_biases_shape s)
           v (u_w s) (m_b s) (u_b s) (t s).
Definition set_u_w (v : ndarray R) (s : state) : state :=
  mk_state (learning_rate s) (beta1 s) (beta2 s) (e s) (adjust_biases_shape s)
           (m_w s) v (m_b s) (u_b s) (t s).
Definition set_m_b (v : ndarray R) (s : state) : state :=
  mk_state (learning_rate s) (beta1 s) (beta2 s) (e s) (adjust_biases_shape s)
           (m_w s) (u_w s) v (u_b s) (t s).
Definition set_u_b (v : ndarray R) (s : state) : state :=
  mk_state (learning_rate s) (beta1 s) (beta2 s) (e s) (adjust_biases_shape s)
           (m_w s) (u_w s) (m_b s) v (t s).
Definition set_t (v : nat) (s : state) : state :=
  mk_state (learning_rate s) (beta1 s) (beta2 s) (e s) (adjust_biases_shape s)
           (m_w s) (u_w s) (m_b s) (u_b s) v.

(** [AdaMax.__init__] *)
Definition init (learning_rate beta1 beta2 epsilon : R)
           (adjust_biases_shape : bool) : state :=
  mk_state learning_rate beta1 beta2 epsilon adjust_biases_shape
           empty_array empty_array empty_array empty_array 0.

(** Modelled from the spec: [Optimizer._fill_array], a method of the
    optimizer base class, which is not among the sources.  The spec has
    the accumulators zero-extended to the live parameter shape: every
    axis grows to the target extent when it is shorter, the old entries
    keep their index and the new ones are zero.  The spec's words cover
    an array of the target's rank only.  For an array of another rank
    this definition raises, which keeps a call with such an accumulator
    from returning; which exception the helper or the slice after it
    raises there is not modelled, and no statement below depends on
    which one it is. *)
Definition _fill_array (arr : ndarray R) (target_shape : list nat)
  : result (ndarray R) :=
  if decide (length target_shape = ndim arr)
  then Ok (gather (zip_with Nat.max (shape arr) target_shape)
                  (fun idx => default s_zero (get_at arr idx)))
  else Raise ValueError "array rank differs from the target rank".

(** The store and the optimizer are both mutated by one call. *)
Definition St : Type := (state * heap R)%type.

Definition self : M St state := fun s => (s, Ok (fst s)).
Definition assign (f : state -> state) : M St unit :=
  m_modify (fun s => (f (fst s), snd s)).
Definition deref (l : loc) : M St (ndarray R) := fun s =>
  match snd s !! l with
  | Some a => (s, Ok a)
  | None => (s, Raise AttributeError "no such object")
  end.
Definition store (l : loc) (a : ndarray R) : M St unit :=
  m_modify (fun s => (fst s, <[l := a]> (snd s))).

(** Lines 44-63: lazy allocation, then the shape adjustment. *)
Definition adjust_shapes (weights biases : loc) : M St unit :=
  w ← deref weights;
  b ← deref biases;
  s ← self;
  (if decide (size (m_w s) = 0)
   then assign (set_m_w (zeros_like w));;
        assign (set_u_w (zeros_like w));;
        assign (set_m_b (zeros_like b));;
        assign (set_u_b (zeros_like b))
   else mret tt);;
  let target_shape := shape w in
  s ← self;
  a ← m_lift (f ← _fill_array (m_w s) target_shape; slice_prefix f target_shape);
  assign (set_m_w a);;
  s ← self;
  a ← m_lift (f ← _fill_array (u_w s) target_shape; slice_prefix f target_shape);
  assign (set_u_w a);;
  if adjust_biases_shape s
  then
    let target_shape := shape b in
    let first_axis (f : ndarray R) : result (ndarray R) :=
      match target_shape with
      | [] => Raise IndexError "tuple index out of range"
      | n :: _ => slice_prefix f [n]
      end in
    s ← self;
    a ← m_lift (f ← _fill_array (m_b s) target_shape; first_axis f);
    assign (set_m_b a);;
    s ← self;
    a ← m_lift (f ← _fill_array (u_b s) target_shape; first_axis f);
    assign (set_u_b a)
  else mret tt.

(** One moment update: [beta1 * m + (1 - beta1) * g]. *)
Definition moment1 (b1 : R) (m g : ndarray R) : result (ndarray R) :=
  broadcast_op s_add (map_arr (s_mul b1) m)
               (map_arr (s_mul (s_sub s_one b1)) g).

(** [np.maximum(beta2 * u, np.abs(g))]. *)
Definition moment_inf (b2 : R) (u g : ndarray R) : result (ndarray R) :=
  broadcast_op s_max (map_arr (s_mul b2) u) (map_arr s_abs g).

(** [(learning_rate / (1 - beta1T)) * (m / (u + e))]. *)
Definition step_of (lr beta1T eps : R) (m u : ndarray R) : result (ndarray R) :=
  c ← py_div lr (s_sub s_one beta1T);
  q ← broadcast_op s_div m (map_arr (fun x => s_add x eps) u);
  mret (map_arr (s_mul c) q).

(** [AdaMax.apply_gradients] *)
Definition apply_gradients (weightGradients biasGradients : ndarray R)
           (weights biases : loc) : M St (loc * loc) :=
  s ← self;
  assign (set_t (t s + 1));;
  s ← self;
  let beta1T := s_pow (beta1 s) (t s) in
  adjust_shapes weights biases;;
  s ← self;
  a ← m_lift (moment1 (beta1 s) (m_w s) weightGradients);
  assign (set_m_w a);;
  s ← self;
  a ← m_lift (moment_inf (beta2 s) (u_w s) weightGradients);
  assign (set_u_w a);;
  s ← self;
  a ← m_lift (moment1 (beta1 s) (m_b s) biasGradients);
  assign (set_m_b a);;
  s ← self;
  a ← m_lift (moment_inf (beta2 s) (u_b s) biasGradients);
  assign (set_u_b a);;
  s ← self;
  w ← deref weights;
  a ← m_lift (d ← step_of (learning_rate s) beta1T (e s) (m_w s) (u_w s);
              inplace_op s_add w d);
  store weights a;;
  b ← deref biases;
  a ← m_lift (d ← step_of (learning_rate s) beta1T (e s) (m_b s) (u_b s);
              inplace_op s_add b d);
  store biases a;;
  mret (weights, biases).
End WithScalar.
Arguments state R : clear implicits.
End AdaMax.

(** ** More of NumPy, as the layers use it *)

(** The global generator of [np.random]: an endless stream of
    standard-normal samples and the position of the next one. *)
Record rng (R : Type) : Type := mk_rng {
  draw : nat -> R;
  pos : nat;
}.
Arguments mk_rng {R} draw pos.
Arguments draw {R} _ _.
Arguments pos {R} _.

(** [np.random.randn(d0, d1, ...)] *)
Definition randn {R} (dims : list Z) : M (rng R) (ndarray R) := fun g =>
  match shape_of_ints dims with
  | Raise e msg => (g, Raise e msg)
  | Ok sh =>
      let n := product sh in
      (mk_rng (draw g) (pos g + n),
       Ok (mk_ndarray sh ((fun i => draw g (pos g + i)) <$> seq 0 n)))
  end.

(** What [output_shape] hands back: an integer, a tuple of integers, or
    [None] (the base class). *)
Inductive pyshape : Type :=
| ShapeInt (n : Z)
| ShapeTuple (dims : list Z)
| ShapeNone.

(** [np.array(s).size] for such a value. *)
Definition pyshape_array_size (s : pyshape) : nat :=
  match s with
  | ShapeInt _ => 1
  | ShapeTuple dims => length dims
  | ShapeNone => 1
  end.

(** Reading an attribute that may not have been assigned yet. *)
Definition attr {A} (name : string) (v : option A) : result A :=
  match v with
  | Some a => Ok a
  | None => Raise AttributeError name
  end.

(** A non-negative index from a possibly negative Python one. *)
Definition wrap_index (n : nat) (i : Z) : result nat :=
  if decide (0 <= i < Z.of_nat n)%Z then Ok (Z.to_nat i)
  else if decide (- Z.of_nat n <= i < 0)%Z then Ok (Z.to_nat (Z.of_nat n + i))
  else Raise IndexError "index out of bounds".

(** [np.max(a)] and [np.sum(a)] over all entries. *)
Definition np_max `{Scalar R} (a : ndarray R) : result R :=
  match data a with
  | [] => Raise ValueError "zero-size array to reduction operation maximum"
  | x :: xs => Ok (foldl s_max x xs)
  end.

Definition np_sum `{Scalar R} (a : ndarray R) : R := foldl s_add s_zero (data a).

(** [a[i0:i1, j0:j1]] with non-negative bounds: needs two axes; bounds past
    the end are clipped. *)
Definition slice2 `{Inhabited A} (a : ndarray A) (i0 i1 j0 j1 : nat)
  : result (ndarray A) :=
  match shape a with
  | n0 :: n1 :: rest =>
      let r0 := Nat.min i0 n0 in
      let r1 := Nat.min j0 n1 in
      Ok (gather ((Nat.min i1 n0 - r0) :: (Nat.min j1 n1 - r1) :: rest)
                 (fun idx => match idx with
                             | a0 :: a1 :: tl => item a ((r0 + a0) :: (r1 + a1) :: tl)
                             | _ => inhabitant
                             end))
  | _ => Raise IndexError "too many indices for array"
  end.

(** [a[p0, p1, ...] = v] for non-negative indices [p]: every entry whose
    index starts with [p] is overwritten, [v] being broadcast over the
    remaining axes. *)
Definition is_prefix (p idx : list nat) : bool :=
  bool_decide (take (length p) idx = p).

Definition setitem `{Inhabited A} (a : ndarray A) (p : list nat) (v : ndarray A)
  : result (ndarray A) :=
  if decide (length p <= ndim a /\ in_bounds (take (length p) (shape a)) p)
  then
    let rest := drop (length p) (shape a) in
    match broadcast_shapes rest (shape v) with
    | Some sh =>
        if decide (sh = rest)
        then Ok (gather (shape a)
                   (fun idx => if is_prefix p idx
                               then item v (bc_index (shape v) (drop (length p) idx))
                               else item a idx))
        else Raise ValueError "could not broadcast input array"
    | None => Raise ValueError "could not broadcast input array"
    end
  else Raise IndexError "index out of bounds".

(** [a[p0, p1, ...]] for non-negative indices: the sub-array at a prefix. *)
Definition getitem `{Inhabited A} (a : ndarray A) (p : list nat)
  : result (ndarray A) :=
  if decide (length p <= ndim a /\ in_bounds (take (length p) (shape a)) p)
  then Ok (gather (drop (length p) (shape a)) (fun idx => item a (p ++ idx)))
  else Raise IndexError "index out of bounds".

Definition scalar_array {A} (v : A) : ndarray A := mk_ndarray [] [v].

Definition np_transpose `{Inhabited A} (a : ndarray A) : ndarray A :=
  gather (reverse (shape a)) (fun idx => item a (reverse idx)).

(** [np.outer(a, b)]: both operands are flattened first. *)
Definition np_outer `{Scalar R} (a b : ndarray R) : ndarray R :=
  gather [size a; size b]
         (fun idx => match idx with
                     | [i; j] => s_mul (data a !!! i) (data b !!! j)
                     | _ => s_zero
                     end).

(** [np.average(l)] of a list of arrays: the list becomes one array (its
    members must agree in shape) and all entries are averaged. *)
Definition np_average `{Scalar R} (l : list (ndarray R)) : result R :=
  match l with
  | [] => Ok (s_div s_zero (s_of_Z 0))
  | a :: l' =>
      if forallb (fun b => bool_decide (shape b = shape a)) l'
      then let all := concat (data <$> l) in
           Ok (s_div (foldl s_add s_zero all) (s_of_Z (Z.of_nat (length all))))
      else Raise ValueError "inhomogeneous shape"
  end.

(** The collaborators a layer is configured with. *)
Record Activation (R : Type) : Type := mk_Activation {
  compute_loss : ndarray R -> ndarray R;
  compute_derivative : ndarray R -> ndarray R;
}.
Arguments compute_loss {R} _ _.
Arguments compute_derivative {R} _ _.

Definition Regularizer (R : Type) : Type :=
  ndarray R -> ndarray R -> ndarray R -> ndarray R.

(** ** layers.py: the base class and its initialisation strategies *)

Module Layer.
Section WithScalar.
Context `{Scalar R}.
(** Element types and the conversion [astype] performs. *)
Context {dtype : Type} (astype : dtype -> R -> R).

(** [a / b] on Python numbers with an integer divisor. *)
Definition true_div (a : R) (b : Z) : result R :=
  if (b =? 0)%Z then Raise ZeroDivisionError "division by zero"
  else Ok (s_div a (s_of_Z b)).

Definition random_initalization (previous_units current_units : Z)
           (weight_data_type : dtype) : M (rng R) (ndarray R * ndarray R) :=
  w ← randn [previous_units; current_units];
  b ← randn [current_units];
  mret (map_arr (astype weight_data_type) w, map_arr (astype weight_data_type) b).

Definition xavier_intialization (previous_units current_units : Z)
           (weight_data_type : dtype) : M (rng R) (ndarray R * ndarray R) :=
  weights ← randn [previous_units; current_units];
  let weights := map_arr (astype weight_data_type) weights in
  let weights := map_arr (fun z => s_sub (s_mul (s_of_Z 2) z) (s_of_Z 1)) weights in
  q ← m_lift (true_div (s_of_Z 6) (previous_units + current_units));
  let weights := map_arr (fun z => s_mul z (s_sqrt q)) weights in
  b ← m_lift (np_zeros [current_units]);
  mret (weights, map_arr (astype weight_data_type) b).

Definition he_intialization (previous_units current_units : Z)
           (weight_data_type : dtype) : M (rng R) (ndarray R * ndarray R) :=
  weights ← randn [previous_units; current_units];
  let weights := map_arr (astype weight_data_type) weights in
  q ← m_lift (true_div (s_of_Z 2) previous_units);
  let weights := map_arr (fun z => s_mul z (s_sqrt q)) weights in
  b ← m_lift (np_zeros [current_units]);
  mret (weights, map_arr (astype weight_data_type) b).

(** [Layer.backpropagate], inherited by the layers without parameters
    that do not override it. *)
Definition backpropagate (gradient : ndarray R) : ndarray R := gradient.

(** [Layer.get_weights] of the package version of the base class
    ([layers/Layer.py]): two empty arrays. *)
Definition get_weights : list (ndarray R) := [empty_array; empty_array].
End WithScalar.
End Layer.

Module Input.
Section WithScalar.
Context `{Scalar R}.

Record t : Type := mk {
  input_shape : pyshape;
  name : string;
  biases : ndarray R;
  weights : ndarray R;
  inputs : option (ndarray R);
  outputs : option (ndarray R);
}.

(** [Input.__init__] *)
Definition init (input_shape : pyshape) (name : string) : M (rng R) t :=
  biases ← match input_shape with
           | ShapeTuple dims => randn dims
           | ShapeInt n => randn [n]
           | ShapeNone => m_lift (Raise TypeError "an integer is required")
           end;
  mret (mk input_shape name biases empty_array None None).

Definition output_shape (self : t) : pyshape := input_shape self.

(** [Input.__call__] *)
Definition call (x : ndarray R) : M t (ndarray R) :=
  m_modify (fun self => mk (input_shape self) (name self) (biases self)
                           (weights self) (Some x) (outputs self));;
  self ← m_get;
  x ← m_lift (broadcast_op s_add x (biases self));
  m_modify (fun self => mk (input_shape self) (name self) (biases self)
                           (weights self) (inputs self) (Some x));;
  mret x.

Definition backpropagate (gradient : ndarray R) : M t (ndarray R) :=
  mret (Layer.backpropagate gradient).
End WithScalar.
Arguments t R : clear implicits.
End Input.

(** The optimizer list handed to [backpropagate]; each entry is an AdaMax
    instance, the optimizer of this code base. *)
Definition Optimizers (R : Type) `{Scalar R} : Type :=
  (list (AdaMax.state R) * heap R)%type.

(** Run a method of [optimizer[k]]. *)
Definition with_optimizer `{Scalar R} {A} (k : nat) (m : M (AdaMax.St (R:=R)) A)
  : M (Optimizers R) A := fun s =>
  match fst s !! k with
  | None => (s, Raise IndexError "list index out of range")
  | Some o =>
      match m (o, snd s) with
      | ((o', h'), r) => ((<[k := o']> (fst s), h'), r)
      end
  end.

Definition heap_deref `{Scalar R} (l : loc) : M (Optimizers R) (ndarray R) :=
  fun s => match snd s !! l with
           | Some a => (s, Ok a)
           | None => (s, Raise AttributeError "no such object")
           end.

Fixpoint mapM_result {A B} (f : A -> result B) (l : list A) : result (list B) :=
  match l with
  | [] => Ok []
  | a :: l' => b ← f a; bs ← mapM_result f l'; mret (b :: bs)
  end.

Module Dense.
Section WithScalar.
Context `{Scalar R}.

Record t : Type := mk {
  units : Z;
  name : string;
  weights : loc;
  biases : loc;
  activation : Activation R;
  regulizer : option (Regularizer R);
  inputs : option (ndarray R);
  outputs : option (list (ndarray R));   (* [output, weighted_sum] *)
}.

Definition output_shape (self : t) : pyshape := ShapeInt (units self).

(** [Dense.backpropagate]; the assignment to [self.weights, self.biases]
    rebinds the two attributes to the objects the optimizer returns. *)
Definition backpropagate (self : t) (gradient : ndarray R)
  : M (Optimizers R) (ndarray R * t) :=
  gradient ← match regulizer self with
             | Some r =>
                 w ← heap_deref (weights self);
                 b ← heap_deref (biases self);
                 mret (r gradient w b)
             | None => mret gradient
             end;
  outs ← m_lift (attr "outputs" (outputs self));
  terms ← m_lift (mapM_result
                    (fun output => broadcast_op s_mul gradient
                                     (compute_derivative (activation self) output))
                    outs);
  delta ← m_lift (np_average terms);
  x ← m_lift (attr "inputs" (inputs self));
  let weights_gradients := np_outer x (scalar_array delta) in
  wb ← with_optimizer 0
         (AdaMax.apply_gradients weights_gradients (scalar_array delta)
                                 (weights self) (biases self));
  let self := mk (units self) (name self) (fst wb) (snd wb) (activation self)
                 (regulizer self) (inputs self) (outputs self) in
  w ← heap_deref (weights self);
  mret (map_arr (s_mul delta) (np_transpose w), self).
End WithScalar.
Arguments t R : clear implicits.
End Dense.

Module Flatten.
Section WithScalar.
Context `{Scalar R}.

(** The constructor assigns [name] only; the other attributes appear
    when [output_shape] or the forward pass first runs. *)
Record t : Type := mk {
  name : string;
  output_shape_value : option Z;
  next_layer_shape : option pyshape;
  original_shape : option (list nat);
}.

Definition init (name : string) : t := mk name None None None.

(** [np.prod(np.array(input_shape))] for extents and a product in the
    range of a 64-bit integer, where NumPy's product is the exact one.
    Beyond it NumPy wraps around (or chooses another element type),
    which this definition does not follow; the statements about it
    bound the extents and their product. *)
Definition prod_of (s : pyshape) : result Z :=
  match s with
  | ShapeInt n => Ok n
  | ShapeTuple dims => Ok (foldr Z.mul 1%Z dims)
  | ShapeNone => Raise TypeError "unsupported operand type"
  end.

(** [Flatten.output_shape], given what the neighbours' [output_shape]
    return. *)
Definition output_shape (previous next : pyshape) : M t Z :=
  v ← m_lift (prod_of previous);
  m_modify (fun self => mk (name self) (Some v) (next_layer_shape self)
                           (original_shape self));;
  m_modify (fun self => mk (name self) (output_shape_value self) (Some next)
                           (original_shape self));;
  mret v.

Definition call (x : ndarray R) : M t (ndarray R) :=
  m_modify (fun self => mk (name self) (output_shape_value self)
                           (next_layer_shape self) (Some (shape x)));;
  mret (np_ravel x).

(** The argument tuple of [gradient.reshape(next_layer_shape, *original_shape)]. *)
Definition reshape_args (next : option pyshape) (original : option (list nat))
  : result (list Z) :=
  n ← attr "next_layer_shape" next;
  o ← attr "original_shape" original;
  match n with
  | ShapeInt k => Ok (k :: (Z.of_nat <$> o))
  | ShapeTuple _ => Raise TypeError "'tuple' object cannot be interpreted as an integer"
  | ShapeNone => Raise TypeError "'NoneType' object cannot be interpreted as an integer"
  end.

(** [Flatten.backpropagate] *)
Definition backpropagate (self : t) (gradient : ndarray R) : ndarray R :=
  try_except
    (args ← reshape_args (next_layer_shape self) (original_shape self);
     np_reshape gradient args)
    gradient.
End WithScalar.
End Flatten.

Module Reshape.
Section WithScalar.
Context `{Scalar R}.

Record t : Type := mk {
  target_shape : list Z;
  name : string;
  next_layer_shape : option pyshape;
  original_shape : option (list nat);
}.

Definition init (target_shape : list Z) (name : string) : t :=
  mk target_shape name None None.

Definition output_shape (next : pyshape) : M t pyshape :=
  m_modify (fun self => mk (target_shape self) (name self) (Some next)
                           (original_shape self));;
  self ← m_get;
  mret (ShapeTuple (target_shape self)).

Definition call (x : ndarray R) : M t (ndarray R) :=
  m_modify (fun self => mk (target_shape self) (name self)
                           (next_layer_shape self) (Some (shape x)));;
  self ← m_get;
  m_lift (np_reshape x (target_shape self)).

(** [Reshape.backpropagate] *)
Definition backpropagate (self : t) (gradient : ndarray R) : ndarray R :=
  try_except
    (args ← Flatten.reshape_args (next_layer_shape self) (original_shape self);
     np_reshape gradient args)
    gradient.
End WithScalar.
End Reshape.

(** ** Loops *)

(** [for i in range(n): acc = body(i, acc)], leaving at the first
    exception. *)
Definition for_range {S} (n : nat) (body : nat -> S -> result S) (init : S)
  : result S :=
  foldl (fun acc i => a ← acc; body i a) (Ok init) (seq 0 n).

(** The values of [range(0, n, step)] for a positive step. *)
Definition range_step (n step : nat) : list nat :=
  (fun q => q * step) <$> seq 0 ((n + step - 1) / step).

(** [t[k]] on a tuple. *)
Definition tuple_index {A} (t : list A) (k : nat) : result A :=
  match t !! k with
  | Some a => Ok a
  | None => Raise IndexError "tuple index out of range"
  end.

(** [(n - k) // s + 1], the output extent of a window of [k] moved by [s]. *)
Definition out_extent (n k s : nat) : result Z :=
  q ← py_floordiv (Z.of_nat n - Z.of_nat k) (Z.of_nat s); mret (q + 1)%Z.

Module MaxPool1D.
(** The forward pass reads [kernel_size] and [strides] and assigns no
    attribute; the backward pass is the inherited identity. *)
Record t : Type := mk {
  kernel_size : nat;
  strides : nat;
  name : string;
  output_shape_value : option Z;
}.

Definition init (kernel_size strides : nat) (name : string) : t :=
  mk kernel_size strides name None.
End MaxPool1D.

Module MaxPool2D.
Section WithScalar.
Context `{Scalar R}.

Record t : Type := mk {
  pool_size : nat * nat;
  strides : nat * nat;
  name : string;
  inputs : option (ndarray R);
  output : option (ndarray R);
}.

Definition init (pool_size strides : nat * nat) (name : string) : t :=
  mk pool_size strides name None None.

(** The two nested loops of the forward pass. *)
Definition pool_loops (self : t) (x : ndarray R) (height width : nat)
           (output : ndarray R) : result (ndarray R) :=
  for_range height (fun i output =>
    for_range width (fun j output =>
      let i_start := i * fst (strides self) in
      let j_start := j * snd (strides self) in
      let i_end := i_start + fst (pool_size self) in
      let j_end := j_start + snd (pool_size self) in
      window ← slice2 x i_start i_end j_start j_end;
      m ← np_max window;
      setitem output [i; j] (scalar_array m)) output) output.

(** [output[-1, -1, :] = x[-1, -1, :]] *)
Definition copy_last (x output : ndarray R) : result (ndarray R) :=
  xi ← wrap_index (nth 0 (shape x) 0) (-1);
  xj ← wrap_index (nth 1 (shape x) 0) (-1);
  v ← getitem x [xi; xj];
  oi ← wrap_index (nth 0 (shape output) 0) (-1);
  oj ← wrap_index (nth 1 (shape output) 0) (-1);
  setitem output [oi; oj] v.

(** [MaxPool2D.__call__] *)
Definition call (x : ndarray R) : M t (ndarray R) :=
  m_modify (fun self => mk (pool_size self) (strides self) (name self)
                           (Some x) (output self));;
  self ← m_get;
  let x_shape := shape x in
  n0 ← m_lift (tuple_index x_shape 0);
  height ← m_lift (out_extent n0 (fst (pool_size self)) (fst (strides self)));
  n1 ← m_lift (tuple_index x_shape 1);
  width ← m_lift (out_extent n1 (snd (pool_size self)) (snd (strides self)));
  output ← m_lift (np_zeros [height; width]);
  output ← (if decide (length x_shape = 3)
            then m_lift (np_zeros [height; width; Z.of_nat (List.last x_shape 0)])
            else mret output);
  output ← m_lift (pool_loops self x (Z.to_nat height) (Z.to_nat width) output);
  output ← (if decide (length (shape x) = 3)
            then m_lift (copy_last x output)
            else mret output);
  m_modify (fun self => mk (pool_size self) (strides self) (name self)
                           (inputs self) (Some output));;
  mret output.

Definition not_implemented_message : string :=
  "MaxPool2D backpropagation is not implemented yet, if you really need it set the strides in Conv2D to something other than (1, 1)".

(** [MaxPool2D.backpropagate]: the state is the layer and the optimizer
    list with its store. *)
Definition backpropagate (gradient : ndarray R)
  : M (t * Optimizers R) (ndarray R) :=
  fun s => (s, Raise PyException not_implemented_message).
End WithScalar.
Arguments t R : clear implicits.
End MaxPool2D.

(** ** Index arrays and matrix products *)

(** [np.arange(n)]: empty for [n <= 0]. *)
Definition np_arange (n : Z) : ndarray nat :=
  mk_ndarray [Z.to_nat n] (seq 0 (Z.to_nat n)).

(** [np.repeat(a, reps)]: [a] is flattened and every entry is repeated. *)
Definition np_repeat {A} (a : ndarray A) (reps : Z) : result (ndarray A) :=
  if decide (reps < 0 /\ data a <> [])%Z
  then Raise ValueError "repeats may not contain negative values"
  else let d := x ← data a; replicate (Z.to_nat reps) x in
       Ok (mk_ndarray [length d] d).

(** [np.tile(a, reps)] for a one-axis array and an integer [reps]. *)
Definition np_tile {A} (a : ndarray A) (reps : Z) : result (ndarray A) :=
  if decide (reps < 0 /\ data a <> [])%Z
  then Raise ValueError "repeats may not contain negative values"
  else let d := _ ← seq 0 (Z.to_nat reps); data a in
       Ok (mk_ndarray [length d] d).

(** [x[i, j, k]] with three integer index arrays: they are broadcast to a
    common shape, which is followed by the axes of [x] after the third;
    an index past the end of its axis is an error. *)
Definition fancy_index3 `{Inhabited A} (x : ndarray A) (i j k : ndarray nat)
  : result (ndarray A) :=
  match shape x with
  | n0 :: n1 :: n2 :: rest =>
      match s ← broadcast_shapes (shape i) (shape j);
            broadcast_shapes s (shape k) with
      | None => Raise IndexError "shape mismatch: indexing arrays could not be broadcast together"
      | Some sh =>
          let r := length sh in
          gather_result (sh ++ rest)
            (fun idx =>
               let p := take r idx in
               let a := item i (bc_index (shape i) p) in
               let b := item j (bc_index (shape j) p) in
               let c := item k (bc_index (shape k) p) in
               if decide (a < n0 /\ b < n1 /\ c < n2)
               then Ok (item x (a :: b :: c :: drop r idx))
               else Raise IndexError "index out of bounds")
      end
  | _ => Raise IndexError "too many indices for array"
  end.

(** [np.dot(a, b)] of two matrices; operands of another rank are outside
    this model and reported as a [TypeError]. *)
Definition np_dot `{Scalar R} (a b : ndarray R) : result (ndarray R) :=
  match shape a, shape b with
  | [n; k], [k'; m] =>
      if decide (k = k')
      then Ok (gather [n; m]
                 (fun idx => match idx with
                             | [r; c] =>
                                 foldl (fun acc l =>
                                          s_add acc (s_mul (item a [r; l]) (item b [l; c])))
                                       s_zero (seq 0 k)
                             | _ => s_zero
                             end))
      else Raise ValueError "shapes not aligned"
  | _, _ => Raise TypeError "np.dot: operand rank outside the model"
  end.

(** [a.transpose(1, 2, 0)] of a three-axis array. *)
Definition transpose_120 `{Inhabited A} (a : ndarray A) : result (ndarray A) :=
  match shape a with
  | [n0; n1; n2] =>
      Ok (gather [n1; n2; n0]
                 (fun idx => match idx with
                             | [p; q; r] => item a [r; p; q]
                             | _ => inhabitant
                             end))
  | _ => Raise ValueError "axes don't match array"
  end.

Module Conv1D.
Section WithScalar.
Context `{Scalar R}.

(** Only the forward pass and [output_shape] are modelled; both read
    the parameter arrays, so these are held by value. *)
Record t : Type := mk {
  number_of_filters : nat;
  kernel_size : nat;
  strides : nat;
  activation : Activation R;
  weights : ndarray R;
  name : string;
  biases : ndarray R;
  inputs : option (ndarray R);
  outputs : option (list (ndarray R));
  output_shape_value : option (Z * Z);
}.

(** [Conv1D.__init__] *)
Definition init (filters kernel_size strides : nat) (activation : Activation R)
           (name : string) : M (rng R) t :=
  w ← randn [Z.of_nat filters; Z.of_nat kernel_size];
  b ← randn [Z.of_nat filters];
  mret (mk filters kernel_size strides activation w name b None None None).

(** [Conv1D.output_shape], given what the predecessor's [output_shape]
    returned. *)
Definition output_shape (input_shape : pyshape) : M t (Z * Z) :=
  self ← m_get;
  q ← m_lift (py_floordiv (Z.of_nat (pyshape_array_size input_shape))
                         (Z.of_nat (strides self)));
  let v := (q, Z.of_nat (number_of_filters self)) in
  m_modify (fun self => mk (number_of_filters self) (kernel_size self)
              (strides self) (activation self) (weights self) (name self)
              (biases self) (inputs self) (outputs self) (Some v));;
  mret v.

(** [len(self.weights)] *)
Definition len (a : ndarray R) : result nat :=
  match shape a with
  | n :: _ => Ok n
  | [] => Raise TypeError "len() of unsized object"
  end.

(** The body of the outer loop for one [i]. *)
Definition filters_loop (self : t) (x : ndarray R) (i : nat)
           (weighted_sum : ndarray R) : result (ndarray R) :=
  n ← len (weights self);
  for_range n (fun j weighted_sum =>
    xs ← slice2 x i (i + kernel_size self) j (j + kernel_size self);
    wj ← getitem (weights self) [j];
    p ← broadcast_op s_mul xs wj;
    setitem weighted_sum [i / strides self; j] (scalar_array (np_sum p)))
    weighted_sum.

(** [for i in range(0, x.size, strides)] with its [break]. *)
Fixpoint positions_loop (self : t) (x : ndarray R) (positions : list nat)
         (weighted_sum : ndarray R) : result (ndarray R) :=
  match positions with
  | [] => Ok weighted_sum
  | i :: rest =>
      if decide (size x < i + kernel_size self) then Ok weighted_sum
      else ws ← filters_loop self x i weighted_sum;
           positions_loop self x rest ws
  end.

(** [Conv1D.__call__] *)
Definition call (x : ndarray R) : M t (ndarray R) :=
  m_modify (fun self => mk (number_of_filters self) (kernel_size self)
              (strides self) (activation self) (weights self) (name self)
              (biases self) (Some x) (outputs self) (output_shape_value self));;
  self ← m_get;
  rows ← m_lift (py_floordiv (Z.of_nat (size x)) (Z.of_nat (strides self)));
  weighted_sum ← m_lift (np_zeros [rows; Z.of_nat (number_of_filters self)]);
  weighted_sum ← m_lift (positions_loop self x
                           (range_step (size x) (strides self)) weighted_sum);
  weighted_sum ← m_lift (broadcast_op s_add weighted_sum (biases self));
  let output := compute_loss (activation self) weighted_sum in
  m_modify (fun self => mk (number_of_filters self) (kernel_size self)
              (strides self) (activation self) (weights self) (name self)
              (biases self) (inputs self) (Some [output; weighted_sum])
              (output_shape_value self));;
  mret output.
End WithScalar.
Arguments t R : clear implicits.
End Conv1D.

Module Conv2D.
Section WithScalar.
Context `{Scalar R}.

(** Only the forward pass is modelled. *)
Record t : Type := mk {
  number_of_filters : nat;
  kernel_size : nat * nat;
  strides : nat * nat;
  activation : Activation R;
  weights : ndarray R;            (* [kh, kw, channels, filters] *)
  biases : ndarray R;
  name : string;
  inputs : option (ndarray R);
  outputs : option (list (ndarray R));
}.

(** [Conv2D.im2col] *)
Definition im2col (self : t) (x : ndarray R) : result (ndarray R) :=
  let inputs_shape := shape x in
  let '(kh, kw) := kernel_size self in
  let '(s0, s1) := strides self in
  n0 ← tuple_index inputs_shape 0;
  height ← out_extent n0 kh s0;
  n1 ← tuple_index inputs_shape 1;
  width ← out_extent n1 kw s1;
  let channels := Z.of_nat (List.last inputs_shape 0) in
  i0 ← np_repeat (np_arange (Z.of_nat kh)) (Z.of_nat kw);
  i0 ← np_tile i0 channels;
  i1 ← np_repeat (np_arange height) width;
  let i1 := map_arr (Nat.mul s0) i1 in
  j0 ← np_tile (np_arange (Z.of_nat kw)) (Z.of_nat kh * channels);
  j1 ← np_tile (np_arange width) height;
  let j1 := map_arr (Nat.mul s1) j1 in
  i0c ← np_reshape i0 [-1; 1]%Z;
  i1r ← np_reshape i1 [1; -1]%Z;
  i ← broadcast_op Nat.add i0c i1r;
  j0c ← np_reshape j0 [-1; 1]%Z;
  j1r ← np_reshape j1 [1; -1]%Z;
  j ← broadcast_op Nat.add j0c j1r;
  k ← np_repeat (np_arange channels) (Z.of_nat kh * Z.of_nat kw);
  k ← np_reshape k [-1; 1]%Z;
  fancy_index3 x i j k.

(** [Conv2D.__call__] *)
Definition call (x : ndarray R) : M t (ndarray R) :=
  let input_shape := shape x in
  m_modify (fun self => mk (number_of_filters self) (kernel_size self)
              (strides self) (activation self) (weights self) (biases self)
              (name self) (Some x) (outputs self));;
  self ← m_get;
  cols ← m_lift (im2col self x);
  n0 ← m_lift (tuple_index input_shape 0);
  height ← m_lift (out_extent n0 (fst (kernel_size self)) (fst (strides self)));
  n1 ← m_lift (tuple_index input_shape 1);
  width ← m_lift (out_extent n1 (snd (kernel_size self)) (snd (strides self)));
  weights_col ← m_lift (np_reshape (weights self)
                          [Z.of_nat (number_of_filters self); -1]%Z);
  weighted_sum ← m_lift (np_dot weights_col cols);
  weighted_sum ← m_lift (r ← np_reshape weighted_sum
                                [Z.of_nat (number_of_filters self); height; width];
                         transpose_120 r);
  let output := compute_loss (activation self) weighted_sum in
  m_modify (fun self => mk (number_of_filters self) (kernel_size self)
              (strides self) (activation self) (weights self) (biases self)
              (name self) (inputs self) (Some [output; weighted_sum]));;
  mret output.

(** The convolution written as nested loops, as the specification words
    it: output positions row-major over height then width; for each one
    and each filter the kernel rows, then the kernel columns, then the
    channels (fastest) are summed, the weight being
    [weights[a, b, c, f]]. *)
Definition direct_convolution (self : t) (x : ndarray R) : result (ndarray R) :=
  match shape x with
  | [n0; n1; channels] =>
      let '(kh, kw) := kernel_size self in
      let '(s0, s1) := strides self in
      height ← out_extent n0 kh s0;
      width ← out_extent n1 kw s1;
      sh ← shape_of_ints [height; width; Z.of_nat (number_of_filters self)];
      let weighted_sum :=
        gather sh (fun idx =>
          match idx with
          | [i; j; f] =>
              foldl (fun acc a =>
                foldl (fun acc b =>
                  foldl (fun acc c =>
                    s_add acc (s_mul (item x [i * s0 + a; j * s1 + b; c])
                                     (item (weights self) [a; b; c; f])))
                    acc (seq 0 channels))
                  acc (seq 0 kw))
                s_zero (seq 0 kh)
          | _ => s_zero
          end) in
      Ok (compute_loss (activation self) weighted_sum)
  | _ => Raise ValueError "expected a three-axis input"
  end.
End WithScalar.
Arguments t R : clear implicits.
End Conv2D.

(** ** The AdaMax rule as the specification words it *)

Section AdaMaxRule.
Context `{Scalar R}.



End AdaMaxRule.

(** An accumulator zero-extended or truncated to a target shape: inside
    the old bounds the old entry, elsewhere zero. *)
Definition resized `{Scalar R} (target : list nat) (arr : ndarray R) : ndarray R :=
  gather target (fun idx => default s_zero (get_at arr idx)).

(** The accumulators as the shape adjustment of a call finds them: freshly
    allocated when [m_w] is still empty (lines 44-48). *)
Definition allocated `{Scalar R} (s : AdaMax.state R) (w b : ndarray R)
  : AdaMax.state R :=
  if decide (size (AdaMax.m_w s) = 0)
  then AdaMax.set_u_b (zeros_like b) (AdaMax.set_m_b (zeros_like b)
         (AdaMax.set_u_w (zeros_like w) (AdaMax.set_m_w (zeros_like w) s)))
  else s.



(** Whether [sub] occurs in [s]. *)
Definition contains (sub s : string) : bool :=
  match String.index 0 sub s with
  | Some _ => true
  | None => false
  end.


(** A computation over an optimizer and the store that never writes to
    the store. *)
Definition keeps_heap `{Scalar R} {A} (m : M (AdaMax.St (R:=R)) A) : Prop :=
  forall st st' r, m st = (st', r) -> snd st' = snd st.

(** ** The initialisation rules as the specification words them *)

Section InitializerRules.
Context `{Scalar R}.

(** The next [n] samples of the generator. *)
Definition samples (g : rng R) (n : nat) : list R :=
  (fun i => draw g (pos g + i)) <$> seq 0 n.


End InitializerRules.

(** ** [LAYERS_WITHOUT_UNITS] *)

Inductive layer_without_units (R : Type) : Type :=
| L_Flatten (l : Flatten.t)
| L_Reshape (l : Reshape.t)
| L_MaxPool1D (l : MaxPool1D.t)
| L_MaxPool2D (l : MaxPool2D.t R)
| L_Input (l : Input.t R).
Arguments L_Flatten {R} l.
Arguments L_Reshape {R} l.
Arguments L_MaxPool1D {R} l.
Arguments L_MaxPool2D {R} l.
Arguments L_Input {R} l.

(** Reading [layer.weights] and [layer.biases].  Of the five classes only
    [Input] assigns these attributes: the other constructors do not call
    [Layer.__init__], no method of theirs assigns them, and the inherited
    [generate_weights] reads [self.units], which none of the five sets, so
    it raises before its assignment. *)
Definition weights_attr {R} (l : layer_without_units R) : result (ndarray R) :=
  match l with
  | L_Input i => Ok (Input.weights i)
  | _ => Raise AttributeError "weights"
  end.

Definition biases_attr {R} (l : layer_without_units R) : result (ndarray R) :=
  match l with
  | L_Input i => Ok (Input.biases i)
  | _ => Raise AttributeError "biases"
  end.

(** "Carries empty weight and bias tensors". *)
Definition carries_empty_tensors {R} (l : layer_without_units R) : Prop :=
  exists w b, weights_attr l = Ok w /\ biases_attr l = Ok b
              /\ size w = 0 /\ size b = 0.

(** The size [n] of a gradient does not fit the reshape target made of the
    integer [k] followed by the extents [original]: with [k = -1] no
    extent can be inferred, otherwise the products differ. *)
Definition size_mismatch (k : Z) (original : list nat) (n : nat) : Prop :=
  if decide (k = (-1)%Z)
  then product original = 0 \/ n mod product original <> 0
  else (k * Z.of_nat (product original))%Z <> Z.of_nat n.

(** ** Example data *)

Module Examples.
Open Scope Q_scope.

(** An AdaMax instance with easy constants, and a 1x2 weight matrix
    with a 2-vector of biases in the store. *)
Definition optimizer0 : AdaMax.state Q :=
  AdaMax.init (1 # 10) (1 # 2) (1 # 2) (1 # 100) false.
Definition weights0 : ndarray Q := mk_ndarray [1; 2]%nat [1; 2].
Definition biases0 : ndarray Q := mk_ndarray [2%nat] [5; 6].
Definition heap0 : heap Q := <[1%nat := biases0]> (<[0%nat := weights0]> ∅).
Definition weight_gradients0 : ndarray Q := mk_ndarray [1; 2]%nat [1; -2].
Definition bias_gradients0 : ndarray Q := mk_ndarray [2%nat] [1; 1].

(** The same optimizer after that first call, then met by a layer whose
    parameters have grown to 1x3 and 3. *)
Definition optimizer1 : AdaMax.state Q :=
  fst (fst (AdaMax.apply_gradients weight_gradients0 bias_gradients0
              0%nat 1%nat (optimizer0, heap0))).
Definition weights1 : ndarray Q := mk_ndarray [1; 3]%nat [1; 2; 3].
Definition biases1 : ndarray Q := mk_ndarray [3%nat] [5; 6; 7].
Definition heap1 : heap Q := <[1%nat := biases1]> (<[0%nat := weights1]> ∅).
Definition weight_gradients1 : ndarray Q := mk_ndarray [1; 3]%nat [1; -2; 1].
Definition bias_gradients1 : ndarray Q := mk_ndarray [3%nat] [1; 1; 1].


(** A gradient of five entries. *)
Definition gradient5 : ndarray Z := mk_ndarray [5%nat] [1; 2; 3; 4; 5]%Z.

(** A Flatten layer that saw an input of shape (1, 2), followed by a
    Dense layer of 3 units whose 2x3 weights and 3 biases are in the
    store, after one forward pass. *)
Definition identity_activation {R} : Activation R :=
  mk_Activation R (fun a => a) (fun a => a).
Definition flatten0 : Flatten.t :=
  Flatten.mk "Flatten" (Some 2%Z) (Some (ShapeInt 3)) (Some [1; 2]%nat).
Definition dense0 : Dense.t Q :=
  Dense.mk 3 "Dense" 0%nat 1%nat identity_activation None
           (Some (mk_ndarray [2%nat] [1; 2]))
           (Some [mk_ndarray [3%nat] [1; 1; 1]; mk_ndarray [3%nat] [1; 1; 1]]).
Definition dense_store : Optimizers Q :=
  ([optimizer0],
   <[1%nat := mk_ndarray [3%nat] [0; 0; 0]]>
     (<[0%nat := mk_ndarray [2; 3]%nat [1; 2; 3; 4; 5; 6]]> ∅)).
Definition dense_gradient : ndarray Q := mk_ndarray [3%nat] [1; 2; 3].

(** The two element types the library is used with; exact rationals
    stand for both, so the conversion is the identity. *)
Inductive np_float : Type := Float32 | Float64.
Definition astype_exact (dt : np_float) (x : Q) : Q := x.

(** A generator whose samples are 0, 1, 2, ... *)
Definition counting_rng : rng Q := mk_rng (fun i => inject_Z (Z.of_nat i)) 0.

(** [Conv1D(filters=1, kernel_size=2, strides=1)] with weights [[1, 1]]
    and a zero bias, placed after [Input(10)]; a column of ten values. *)
Definition conv1d0 : Conv1D.t Z :=
  Conv1D.mk 1 2 1 identity_activation (mk_ndarray [1; 2]%nat [1; 1]%Z) "Conv1D"
            (mk_ndarray [1%nat] [0%Z]) None None None.
Definition input10 : Input.t Z :=
  Input.mk (ShapeInt 10) "Input" (full [10%nat] 0%Z) empty_array None None.
Definition column10 : ndarray Z :=
  mk_ndarray [10; 1]%nat [1; 2; 3; 4; 5; 6; 7; 8; 9; 10]%Z.
Definition vector10 : ndarray Z :=
  mk_ndarray [10%nat] [1; 2; 3; 4; 5; 6; 7; 8; 9; 10]%Z.

(** The 4x4 matrix of the MaxPool2D docstring, and a 3x3 image with two
    channels. *)
Definition matrix44 : ndarray Z :=
  mk_ndarray [4; 4]%nat [2; 3; 5; 9; 4; 5; 2; 6; 7; 4; 6; 5; 8; 3; 4; 1]%Z.
Definition image332 : ndarray Z :=
  mk_ndarray [3; 3; 2]%nat
             [1; 2; 3; 4; 5; 6; 7; 0; 1; 2; 3; 4; 5; 6; 7; 8; 9; 1]%Z.

(** [Conv2D(filters=2, kernel_size=(1, 2), strides=(1, 1))] with the
    weights [w[0,0,0,:] = (1, 2)] and [w[0,1,0,:] = (3, 4)], and an input
    of one row, two columns and one channel. *)
Definition conv2d0 : Conv2D.t Z :=
  Conv2D.mk 2 (1, 2)%nat (1, 1)%nat identity_activation
            (mk_ndarray [1; 2; 1; 2]%nat [1; 2; 3; 4]%Z) empty_array "Conv2D"
            None None.
Definition image121 : ndarray Z := mk_ndarray [1; 2; 1]%nat [10; 1]%Z.

(** One pixel with one channel. *)
Definition image111 : ndarray Z := mk_ndarray [1; 1; 1]%nat [7%Z].
End Examples.

(** ** Further definitions *)

(** What fills the unknown extent [-1] of a reshape target. *)
Definition inferred_dim (q : nat) (d : Z) : nat :=
  if decide (d = (-1)%Z) then q else Z.to_nat d.

(** A computation whose start and end states are always related by [I],
    whether it returns or raises. *)
Definition m_relates {S A} (I : S -> S -> Prop) (m : M S A) : Prop :=
  forall st st' r, m st = (st', r) -> I st st'.

(** Two optimizers with the same settings and step counter. *)
Definition same_settings `{Scalar R} (s s' : AdaMax.state R) : Prop :=
  AdaMax.learning_rate s' = AdaMax.learning_rate s
  /\ AdaMax.beta1 s' = AdaMax.beta1 s
  /\ AdaMax.beta2 s' = AdaMax.beta2 s
  /\ AdaMax.e s' = AdaMax.e s
  /\ AdaMax.adjust_biases_shape s' = AdaMax.adjust_biases_shape s
  /\ AdaMax.t s' = AdaMax.t s.

(** Two stores that agree everywhere but at [l1] and [l2]. *)
Definition same_elsewhere {R} (l1 l2 : loc) (h h' : heap R) : Prop :=
  forall l, l <> l1 -> l <> l2 -> h' !! l = h !! l.

(** What one call of [apply_gradients] may change once the step counter
    has been advanced. *)
Definition adamax_footprint `{Scalar R} (weights biases : loc)
    (st st' : AdaMax.St (R:=R)) : Prop :=
  same_settings (fst st) (fst st')
  /\ same_elsewhere weights biases (snd st) (snd st').

(** [a[i0:i1]] with non-negative bounds: a slice of the first axis, clipped
    at its end; an array without axes cannot be sliced. *)
Definition slice1 `{Inhabited A} (a : ndarray A) (i0 i1 : nat) : result (ndarray A) :=
  match shape a with
  | n0 :: rest =>
      let r0 := Nat.min i0 n0 in
      Ok (gather ((Nat.min i1 n0 - r0) :: rest)
                 (fun idx => match idx with
                             | a0 :: tl => item a ((r0 + a0) :: tl)
                             | _ => inhabitant
                             end))
  | [] => Raise IndexError "too many indices for array"
  end.

(** [np.empty(dims)]: the entries are whatever the memory held, given here
    by [junk]. *)
Definition np_empty {A} (dims : list Z) (junk : list nat -> A) : result (ndarray A) :=
  sh ← shape_of_ints dims; mret (gather sh junk).

(** The extents and products that fit a 64-bit integer are below this
    bound. *)
Definition int64_bound : Z := (2 ^ 63)%Z.

(** Below this bound an integer is a double, and the double quotient of
    two such integers lies on the same side of every integer as the exact
    quotient. *)
Definition double_exact : Z := (2 ^ 53)%Z.

(** [math.ceil(a / s)] for integers [0 <= a] and [0 < s] below
    [double_exact]: the quotient goes through a double, and in this range
    its ceiling is the exact one.  Beyond the range the double may round
    across an integer, which this definition does not follow; the
    statements about it bound their arguments. *)
Definition ceil_div (a : Z) (s : nat) : result Z :=
  if decide (s = 0) then Raise ZeroDivisionError "division by zero"
  else Ok (- ((- a) / Z.of_nat s))%Z.

(** ** layers.py: the methods of MaxPool1D *)

Module MaxPool1D_methods.
Section WithScalar.
Context `{Scalar R}.

(** [MaxPool1D.output_shape], given what the predecessor reports. *)
Definition output_shape (input_shape : pyshape) : M MaxPool1D.t Z :=
  self ← m_get;
  match input_shape with
  | ShapeInt n =>
      v ← m_lift (ceil_div (n - Z.of_nat (MaxPool1D.kernel_size self) + 1)
                           (MaxPool1D.strides self));
      m_modify (fun self => MaxPool1D.mk (MaxPool1D.kernel_size self)
                              (MaxPool1D.strides self) (MaxPool1D.name self)
                              (Some v));;
      mret v
  | _ => m_lift (Raise TypeError "unsupported operand type(s) for -")
  end.

(** The loop of the forward pass, over the values of
    [range(0, x.size, strides)], with the output and [currentIndex]. *)
Fixpoint windows_loop (self : MaxPool1D.t) (x : ndarray R) (positions : list nat)
         (st : ndarray R * nat) : result (ndarray R * nat) :=
  match positions with
  | [] => Ok st
  | i :: rest =>
      if decide (size x < i + MaxPool1D.kernel_size self) then Ok st
      else
        window ← slice1 x i (i + MaxPool1D.kernel_size self);
        m ← np_max window;
        output ← setitem (fst st) [snd st] (scalar_array m);
        windows_loop self x rest (output, snd st + 1)
  end.

(** [MaxPool1D.__call__]; it assigns no attribute. *)
Definition call (self : MaxPool1D.t) (junk : list nat -> R) (x : ndarray R)
  : result (ndarray R) :=
  output_size ← ceil_div (Z.of_nat (size x)
                          - Z.of_nat (MaxPool1D.kernel_size self) + 1)
                         (MaxPool1D.strides self);
  output ← np_empty [output_size] junk;
  st ← windows_loop self x (range_step (size x) (MaxPool1D.strides self))
                    (output, 0);
  mret (fst st).

(** The maximum of the window that starts at [q * strides]. *)
Definition window1_max (self : MaxPool1D.t) (x : ndarray R) (q : nat) : result R :=
  window ← slice1 x (q * MaxPool1D.strides self)
                  (q * MaxPool1D.strides self + MaxPool1D.kernel_size self);
  np_max window.
End WithScalar.
End MaxPool1D_methods.

(** [math.floor(a / s)] for integers [0 <= a] and [0 < s] below
    [double_exact]: the quotient goes through a double, and in this range
    its floor is the exact one.  Beyond the range the double may round
    across an integer, which this definition does not follow; the
    statements about it bound their arguments. *)
Definition floor_true_div (a : Z) (s : nat) : result Z :=
  if decide (s = 0) then Raise ZeroDivisionError "division by zero"
  else Ok (a / Z.of_nat s)%Z.

(** ** layers.py: further methods of MaxPool2D *)

Module MaxPool2D_methods.
Section WithScalar.
Context `{Scalar R}.

(** [MaxPool2D.output_shape], given what the predecessor reports; the
    state is the attribute [output_shape_value]. *)
Definition output_shape (self : MaxPool2D.t R) (input_shape : pyshape)
  : M (option (list Z)) (list Z) :=
  match input_shape with
  | ShapeTuple dims =>
      e0 ← m_lift (n ← tuple_index dims 0;
                   q ← floor_true_div (n - Z.of_nat (fst (MaxPool2D.pool_size self)))
                                      (fst (MaxPool2D.strides self));
                   mret (q + 1)%Z);
      e1 ← m_lift (n ← tuple_index dims 1;
                   q ← floor_true_div (n - Z.of_nat (snd (MaxPool2D.pool_size self)))
                                      (snd (MaxPool2D.strides self));
                   mret (q + 1)%Z);
      m_modify (fun _ => Some [e0; e1]);;
      if decide (2 < length dims)
      then let v := [e0; e1; List.last dims 0%Z] in
           m_modify (fun _ => Some v);; mret v
      else mret [e0; e1]
  | ShapeInt _ => m_lift (Raise TypeError "'int' object is not subscriptable")
  | ShapeNone => m_lift (Raise TypeError "'NoneType' object is not subscriptable")
  end.

(** The maximum of the window of output position [(i, j)]: it is taken
    over all the entries of [x[i_start:i_end, j_start:j_end]], whatever
    axes follow the first two. *)
Definition window_max (self : MaxPool2D.t R) (x : ndarray R) (i j : nat) : result R :=
  window ← slice2 x (i * fst (MaxPool2D.strides self))
                  (i * fst (MaxPool2D.strides self) + fst (MaxPool2D.pool_size self))
                  (j * snd (MaxPool2D.strides self))
                  (j * snd (MaxPool2D.strides self) + snd (MaxPool2D.pool_size self));
  np_max window.
End WithScalar.
End MaxPool2D_methods.

(** ** layers.py: [Layer.generate_weights] *)

(** [d[key]] on a dictionary with string keys. *)
Definition dict_getitem {V} (d : gmap string V) (key : string) : result V :=
  match d !! key with
  | Some v => Ok v
  | None => Raise KeyError ("'" ++ key ++ "'")
  end.

(** What [np.random.randn] makes of an extent handed over as the value of
    an [output_shape]. *)
Definition as_extent (s : pyshape) : result Z :=
  match s with
  | ShapeInt n => Ok n
  | ShapeTuple _ => Raise TypeError "'tuple' object cannot be interpreted as an integer"
  | ShapeNone => Raise TypeError "'NoneType' object cannot be interpreted as an integer"
  end.

Module Layer_methods.
Section WithScalar.
Context `{Scalar R}.
Context {dtype : Type} (astype : dtype -> R -> R).

(** An initialisation strategy, called with
    [(previous_units, current_units, weight_data_type)]. *)
Definition strategy : Type :=
  Z -> Z -> dtype -> M (rng R) (ndarray R * ndarray R).

Definition LAYER_INTIALIZATIONS : gmap string strategy :=
  <["random" := Layer.random_initalization astype]>
    (<["xavier" := Layer.xavier_intialization astype]>
       (<["he" := Layer.he_intialization astype]> ∅)).

(** [Layer.generate_weights], given the layer's [units] and what the
    predecessor's [output_shape] returned; the state is the generator
    and the pair of attributes [(weights, biases)].  All three
    strategies hand [previous_units] to [np.random.randn] first. *)
Definition generate_weights (units : Z) (previous_units : pyshape)
           (weight_initalization : string) (weight_data_type : dtype)
  : M (rng R * (ndarray R * ndarray R)) unit := fun st =>
  match dict_getitem LAYER_INTIALIZATIONS weight_initalization with
  | Raise e msg => (st, Raise e msg)
  | Ok init =>
      match as_extent previous_units with
      | Raise e msg => (st, Raise e msg)
      | Ok p =>
          match init p units weight_data_type (fst st) with
          | (g, Ok wb) => ((g, wb), Ok tt)
          | (g, Raise e msg) => ((g, snd st), Raise e msg)
          end
      end
  end.
End WithScalar.
End Layer_methods.

(** ** layers.py: the forward pass of the base class, and Dropout *)

(** [sum(f(l) for l in range(k))], accumulated from the left. *)
Definition dot_sum `{Scalar R} (k : nat) (f : nat -> R) : R :=
  foldl (fun acc l => s_add acc (f l)) s_zero (seq 0 k).

(** [np.dot(a, b)] for a vector or a matrix [a] and a matrix [b]; operands
    of another rank are outside this model and reported as a
    [TypeError]. *)
Definition np_dot_rows `{Scalar R} (a b : ndarray R) : result (ndarray R) :=
  match shape a, shape b with
  | [k], [k'; m] =>
      if decide (k = k')
      then Ok (gather [m]
                 (fun idx => match idx with
                             | [c] => dot_sum k (fun l =>
                                        s_mul (item a [l]) (item b [l; c]))
                             | _ => s_zero
                             end))
      else Raise ValueError "shapes not aligned"
  | [n; k], [k'; m] =>
      if decide (k = k')
      then Ok (gather [n; m]
                 (fun idx => match idx with
                             | [r; c] => dot_sum k (fun l =>
                                           s_mul (item a [r; l]) (item b [l; c]))
                             | _ => s_zero
                             end))
      else Raise ValueError "shapes not aligned"
  | _, _ => Raise TypeError "np.dot: operand rank outside the model"
  end.

(** Reading the array an attribute refers to. *)
Definition heap_lookup {R} (h : heap R) (l : loc) : result (ndarray R) :=
  match h !! l with
  | Some a => Ok a
  | None => Raise AttributeError "no such object"
  end.

Module Layer_call.
Section WithScalar.
Context `{Scalar R}.

Definition set_inputs (x : ndarray R) (self : Dense.t R) : Dense.t R :=
  Dense.mk (Dense.units self) (Dense.name self) (Dense.weights self)
           (Dense.biases self) (Dense.activation self) (Dense.regulizer self)
           (Some x) (Dense.outputs self).

Definition set_outputs (o : list (ndarray R)) (self : Dense.t R) : Dense.t R :=
  Dense.mk (Dense.units self) (Dense.name self) (Dense.weights self)
           (Dense.biases self) (Dense.activation self) (Dense.regulizer self)
           (Dense.inputs self) (Some o).

(** [np.dot(x, self.weights) + self.biases] *)
Definition weighted_sum (self : Dense.t R) (x : ndarray R) (h : heap R)
  : result (ndarray R) :=
  w ← heap_lookup h (Dense.weights self);
  d ← np_dot_rows x w;
  b ← heap_lookup h (Dense.biases self);
  broadcast_op s_add d b.

(** [Layer.__call__], which Dense inherits; the parameter arrays are
    read from the store [h]. *)
Definition call (h : heap R) (x : ndarray R) : M (Dense.t R) (ndarray R) :=
  m_modify (set_inputs x);;
  self ← m_get;
  weighted_sum ← m_lift (weighted_sum self x h);
  let output := compute_loss (Dense.activation self) weighted_sum in
  m_modify (set_outputs [output; weighted_sum]);;
  mret output.
End WithScalar.
End Layer_call.

Module Dropout.
Section WithScalar.
Context `{Scalar R}.

(** A Dropout layer has the attributes of the base class and
    [dropout_rate]. *)
Record t : Type := mk {
  base : Dense.t R;
  dropout_rate : R;
}.

Definition output_shape (self : t) : pyshape := ShapeInt (Dense.units (base self)).

Definition on_base {A} (m : M (Dense.t R) A) : M t A := fun self =>
  match m (base self) with
  | (b, r) => (mk b (dropout_rate self), r)
  end.

(** [Dropout.__call__] *)
Definition call (h : heap R) (x : ndarray R) (isTraining : bool) : M t (ndarray R) :=
  on_base (m_modify (Layer_call.set_inputs x));;
  if isTraining then
    self ← m_get;
    weighted_sum ← m_lift (Layer_call.weighted_sum (base self) x h);
    weighted_sum ← m_lift (inplace_op s_div weighted_sum
                             (scalar_array (s_sub (s_of_Z 1) (dropout_rate self))));
    let output := compute_loss (Dense.activation (base self)) weighted_sum in
    on_base (m_modify (Layer_call.set_outputs [output; weighted_sum]));;
    mret output
  else on_base (Layer_call.call h x).
End WithScalar.
Arguments t R : clear implicits.
End Dropout.

(** ** Index vectors *)

(** The one-axis array [f(0), ..., f(n-1)]. *)
Definition vec_of {A} (n : nat) (f : nat -> A) : ndarray A :=
  mk_ndarray [n] (f <$> seq 0 n).

(** The input entry that [Conv2D.im2col] places in row [r] and column [q]
    of its result, for a kernel [kh x kw], strides [(s0, s1)] and [w]
    output columns: the rows run over the channels, then the kernel rows,
    then the kernel columns; the columns over the output positions. *)
Definition im2col_source (kh kw s0 s1 w : nat) (r q : nat) : list nat :=
  [(r mod (kh * kw)) / kw + s0 * (q / w); r mod kw + s1 * (q mod w); r / (kh * kw)].

(** ** layers.py: further methods of Conv2D *)

Module Conv2D_methods.
Section WithScalar.
Context `{Scalar R}.

(** [Conv2D.output_shape], given what the predecessor reports; the
    state is the pair of attributes [(input_shape, output_shape_value)]. *)
Definition output_shape (self : Conv2D.t R) (input_shape : pyshape)
  : M (option pyshape * option (list Z)) (list Z) :=
  m_modify (fun st => (Some input_shape, snd st));;
  match input_shape with
  | ShapeTuple dims =>
      n0 ← m_lift (tuple_index dims 0);
      q0 ← m_lift (py_floordiv (n0 - Z.of_nat (fst (Conv2D.kernel_size self)))
                               (Z.of_nat (fst (Conv2D.strides self))));
      let height := (q0 + 1)%Z in
      n1 ← m_lift (tuple_index dims 1);
      q1 ← m_lift (py_floordiv (n1 - Z.of_nat (snd (Conv2D.kernel_size self)))
                               (Z.of_nat (snd (Conv2D.strides self))));
      let width := (q1 + 1)%Z in
      let channels := Z.of_nat (Conv2D.number_of_filters self) in
      let v := [height; width; channels] in
      m_modify (fun st => (fst st, Some v));;
      mret v
  | ShapeInt _ => m_lift (Raise TypeError "'int' object is not subscriptable")
  | ShapeNone => m_lift (Raise TypeError "'NoneType' object is not subscriptable")
  end.

(** The weights as the forward pass reads them: the stored entries,
    in their stored order, cut into one row per filter. *)
Definition weights_col (self : Conv2D.t R) (K : nat) : ndarray R :=
  mk_ndarray [Conv2D.number_of_filters self; K] (data (Conv2D.weights self)).
End WithScalar.
End Conv2D_methods.

(** ** A further example *)

Module MoreExamples.
(** [Conv2D(filters=1, kernel_size=(2, 2), strides=(1, 1))] with the
    identity as activation and the eight stored weights 1, ..., 8, for
    inputs of two channels. *)
Definition conv2d1 : Conv2D.t Z :=
  Conv2D.mk 1 (2, 2)%nat (1, 1)%nat Examples.identity_activation
            (mk_ndarray [2; 2; 2; 1]%nat [1; 2; 3; 4; 5; 6; 7; 8]%Z)
            empty_array "Conv2D" None None.
End MoreExamples.

(** ** layers.py: the initialisation strategies of Conv2D *)

(** [input_shape[-1]] on the value of an [output_shape]. *)
Definition last_extent (s : pyshape) : result Z :=
  match s with
  | ShapeTuple dims =>
      match last dims with
      | Some d => Ok d
      | None => Raise IndexError "tuple index out of range"
      end
  | ShapeInt _ => Raise TypeError "'int' object is not subscriptable"
  | ShapeNone => Raise TypeError "'NoneType' object is not subscriptable"
  end.

Module Conv2D_init.
Section WithScalar.
Context `{Scalar R}.
Context {dtype : Type} (astype : dtype -> R -> R).

(** [input_shape[-1] * self.kernel_size[0] * self.kernel_size[1]] *)
Definition fan_in (self : Conv2D.t R) (input_shape : pyshape) : result Z :=
  c ← last_extent input_shape;
  mret (c * Z.of_nat (fst (Conv2D.kernel_size self))
          * Z.of_nat (snd (Conv2D.kernel_size self)))%Z.

(** [2. / fan_in] *)
Definition float_div (a : R) (b : Z) : result R :=
  if (b =? 0)%Z then Raise ZeroDivisionError "float division by zero"
  else Ok (s_div a (s_of_Z b)).

Definition random_initalization (self : Conv2D.t R) (weights : list Z)
           (input_shape : pyshape) (weight_data_type : dtype)
  : M (rng R) (ndarray R * ndarray R) :=
  w ← randn weights;
  b ← randn [Z.of_nat (Conv2D.number_of_filters self)];
  mret (map_arr (astype weight_data_type) w, map_arr (astype weight_data_type) b).

Definition xavier_intialization (self : Conv2D.t R) (weights : list Z)
           (input_shape : pyshape) (weight_data_type : dtype)
  : M (rng R) (ndarray R * ndarray R) :=
  weights ← randn weights;
  let weights := map_arr (astype weight_data_type) weights in
  let weights := map_arr (fun z => s_sub (s_mul (s_of_Z 2) z) (s_of_Z 1)) weights in
  fan_in ← m_lift (fan_in self input_shape);
  q ← m_lift (Layer.true_div (s_of_Z 6)
                (fan_in + Z.of_nat (Conv2D.number_of_filters self)));
  let weights := map_arr (fun z => s_mul z (s_sqrt q)) weights in
  b ← m_lift (np_zeros [Z.of_nat (Conv2D.number_of_filters self)]);
  mret (weights, map_arr (astype weight_data_type) b).

Definition he_intialization (self : Conv2D.t R) (weights : list Z)
           (input_shape : pyshape) (weight_data_type : dtype)
  : M (rng R) (ndarray R * ndarray R) :=
  weights ← randn weights;
  let weights := map_arr (astype weight_data_type) weights in
  fan_in ← m_lift (fan_in self input_shape);
  q ← m_lift (float_div (s_of_Z 2) fan_in);
  let weights := map_arr (fun z => s_mul z (s_sqrt q)) weights in
  b ← m_lift (np_zeros [Z.of_nat (Conv2D.number_of_filters self)]);
  mret (weights, map_arr (astype weight_data_type) b).

Definition strategy : Type :=
  list Z -> pyshape -> dtype -> M (rng R) (ndarray R * ndarray R).

Definition LAYER_INTIALIZATIONS (self : Conv2D.t R) : gmap string strategy :=
  <["random" := random_initalization self]>
    (<["xavier" := xavier_intialization self]>
       (<["he" := he_intialization self]> ∅)).

Definition set_parameters (wb : ndarray R * ndarray R) (self : Conv2D.t R)
  : Conv2D.t R :=
  Conv2D.mk (Conv2D.number_of_filters self) (Conv2D.kernel_size self)
            (Conv2D.strides self) (Conv2D.activation self) (fst wb) (snd wb)
            (Conv2D.name self) (Conv2D.inputs self) (Conv2D.outputs self).

(** [Conv2D.generate_weights], given what the predecessor's
    [output_shape] returned; the state is the generator and the
    layer. *)
Definition generate_weights (input_shape : pyshape) (weight_initalization : string)
           (weight_data_type : dtype) : M (rng R * Conv2D.t R) unit := fun st =>
  let self := snd st in
  match last_extent input_shape with
  | Raise e msg => (st, Raise e msg)
  | Ok c =>
      let weights := [Z.of_nat (fst (Conv2D.kernel_size self));
                      Z.of_nat (snd (Conv2D.kernel_size self));
                      c; Z.of_nat (Conv2D.number_of_filters self)] in
      match dict_getitem (LAYER_INTIALIZATIONS self) weight_initalization with
      | Raise e msg => (st, Raise e msg)
      | Ok init =>
          match init weights input_shape weight_data_type (fst st) with
          | (g, Ok wb) => ((g, set_parameters wb self), Ok tt)
          | (g, Raise e msg) => ((g, self), Raise e msg)
          end
      end
  end.
End WithScalar.
End Conv2D_init.

(** ** layers.py: the weight gradients of [Conv2D.backpropagate] *)

(** [range(0, n, step)] for a non-negative step. *)
Definition py_range (n step : nat) : result (list nat) :=
  if decide (step = 0) then Raise ValueError "range() arg 3 must not be zero"
  else Ok (range_step n step).

(** [a[i0:i1, j0:j1, 0:-1]] with non-negative bounds: needs three axes;
    bounds past the end are clipped, and the last index of the third axis
    is left out. *)
Definition slice3_but_last `{Inhabited A} (a : ndarray A) (i0 i1 j0 j1 : nat)
  : result (ndarray A) :=
  match shape a with
  | n0 :: n1 :: n2 :: rest =>
      let r0 := Nat.min i0 n0 in
      let r1 := Nat.min j0 n1 in
      Ok (gather ((Nat.min i1 n0 - r0) :: (Nat.min j1 n1 - r1) :: (n2 - 1) :: rest)
                 (fun idx => match idx with
                             | a0 :: a1 :: tl => item a ((r0 + a0) :: (r1 + a1) :: tl)
                             | _ => inhabitant
                             end))
  | _ => Raise IndexError "too many indices for array"
  end.

(** [np.tensordot(a, b, axes=([0, 1, 2], [0, 1, 2]))] of two three-axis
    arrays: the sum of the products of their entries; operands of another
    rank are outside this model and reported as a [TypeError]. *)
Definition tensordot3 `{Scalar R} (a b : ndarray R) : result R :=
  if decide (ndim a = 3 /\ ndim b = 3)
  then if decide (shape a = shape b)
       then Ok (foldl s_add s_zero (zip_with s_mul (data a) (data b)))
       else Raise ValueError "shape-mismatch for sum"
  else Raise TypeError "np.tensordot: operand rank outside the model".

(** [wg[:, :, :, k] += v] for a scalar [v]. *)
Definition add_to_filter `{Scalar R} (wg : ndarray R) (k : nat) (v : R)
  : result (ndarray R) :=
  match shape wg with
  | [_; _; _; f] =>
      if decide (k < f)
      then Ok (gather (shape wg)
                 (fun idx => if decide (idx !! 3 = Some k)
                             then s_add (item wg idx) v else item wg idx))
      else Raise IndexError "index out of bounds"
  | _ => Raise IndexError "too many indices for array"
  end.

(** An array of shape [sh] all of whose entries are [v]. *)
Definition constant_array `{Inhabited A} (sh : list nat) (a : ndarray A) (v : A)
  : Prop :=
  shape a = sh /\ forall idx, in_bounds sh idx -> item a idx = v.

Module Conv2D_backward.
Section WithScalar.
Context `{Scalar R}.

(** The layer after [self.inputs = x]. *)
Definition with_inputs (x : ndarray R) (self : Conv2D.t R) : Conv2D.t R :=
  Conv2D.mk (Conv2D.number_of_filters self) (Conv2D.kernel_size self)
            (Conv2D.strides self) (Conv2D.activation self) (Conv2D.weights self)
            (Conv2D.biases self) (Conv2D.name self) (Some x)
            (Conv2D.outputs self).

(** The loop over the filters for the window at [(i, j)]. *)
Definition filters_loop (self : Conv2D.t R) (inputs delta_array : ndarray R)
           (i j : nat) (weights_gradients : ndarray R) : result (ndarray R) :=
  let '(kh, kw) := Conv2D.kernel_size self in
  for_range (Conv2D.number_of_filters self) (fun k weights_gradients =>
    a ← slice3_but_last inputs i (i + kh) j (j + kw);
    b ← slice3_but_last delta_array i (i + kh) j (j + kw);
    t ← tensordot3 a b;
    add_to_filter weights_gradients k t) weights_gradients.

(** The loop over [j], with its [break]. *)
Fixpoint columns_loop (self : Conv2D.t R) (inputs delta_array : ndarray R)
         (i : nat) (positions : list nat) (weights_gradients : ndarray R)
  : result (ndarray R) :=
  match positions with
  | [] => Ok weights_gradients
  | j :: rest =>
      n0 ← tuple_index (shape inputs) 0;
      n1 ← tuple_index (shape inputs) 1;
      if decide (n0 < i + fst (Conv2D.kernel_size self)
                 \/ n1 < j + snd (Conv2D.kernel_size self))
      then Ok weights_gradients
      else wg ← filters_loop self inputs delta_array i j weights_gradients;
           columns_loop self inputs delta_array i rest wg
  end.

(** The loop over [i]. *)
Fixpoint rows_loop (self : Conv2D.t R) (inputs delta_array : ndarray R)
         (positions : list nat) (weights_gradients : ndarray R)
  : result (ndarray R) :=
  match positions with
  | [] => Ok weights_gradients
  | i :: rest =>
      n1 ← tuple_index (shape inputs) 1;
      columns ← py_range n1 (snd (Conv2D.strides self));
      wg ← columns_loop self inputs delta_array i columns weights_gradients;
      rows_loop self inputs delta_array rest wg
  end.

(** The weight gradients that [Conv2D.backpropagate] hands to the
    optimizer, for the scalar [delta] it has computed. *)
Definition weights_gradients (self : Conv2D.t R) (delta : R) : result (ndarray R) :=
  inputs ← attr "inputs" (Conv2D.inputs self);
  channels ← match last (shape inputs) with
             | Some c => Ok c
             | None => Raise IndexError "tuple index out of range"
             end;
  wg ← np_zeros [Z.of_nat (fst (Conv2D.kernel_size self));
                 Z.of_nat (snd (Conv2D.kernel_size self));
                 Z.of_nat channels;
                 Z.of_nat (Conv2D.number_of_filters self)];
  let delta_array := full (shape inputs) delta in
  n0 ← tuple_index (shape inputs) 0;
  rows ← py_range n0 (fst (Conv2D.strides self));
  rows_loop self inputs delta_array rows wg.
End WithScalar.
End Conv2D_backward.

(** ** layers.py: [Dropout.backpropagate] *)

(** [1 / d] on Python floats. *)
Definition float_reciprocal `{Scalar R} (d : R) : result R :=
  if s_is_zero d then Raise ZeroDivisionError "float division by zero"
  else Ok (s_div (s_of_Z 1) d).

Module Dropout_backward.
Section WithScalar.
Context `{Scalar R}.

(** [Dropout.backpropagate]; as in [Dense.backpropagate], the
    assignment to [self.weights, self.biases] rebinds the two
    attributes to the objects the optimizer returns. *)
Definition backpropagate (self : Dropout.t R) (gradient : ndarray R)
  : M (Optimizers R) (ndarray R * Dropout.t R) :=
  let base := Dropout.base self in
  gradient ← match Dense.regulizer base with
             | Some r =>
                 w ← heap_deref (Dense.weights base);
                 b ← heap_deref (Dense.biases base);
                 mret (r gradient w b)
             | None => mret gradient
             end;
  outs ← m_lift (attr "outputs" (Dense.outputs base));
  terms ← m_lift (mapM_result
                    (fun output => broadcast_op s_mul gradient
                                     (compute_derivative (Dense.activation base) output))
                    outs);
  delta ← m_lift (np_average terms);
  scale ← m_lift (float_reciprocal (s_sub (s_of_Z 1) (Dropout.dropout_rate self)));
  let delta := s_div delta scale in
  x ← m_lift (attr "inputs" (Dense.inputs base));
  let weights_gradients := np_outer x (scalar_array delta) in
  wb ← with_optimizer 0
         (AdaMax.apply_gradients weights_gradients (scalar_array delta)
                                 (Dense.weights base) (Dense.biases base));
  let base := Dense.mk (Dense.units base) (Dense.name base) (fst wb) (snd wb)
                       (Dense.activation base) (Dense.regulizer base)
                       (Dense.inputs base) (Dense.outputs base) in
  w ← heap_deref (Dense.weights base);
  mret (map_arr (s_mul delta) (np_transpose w),
        Dropout.mk base (Dropout.dropout_rate self)).
End WithScalar.
End Dropout_backward.

(** ** The AdaMax rule under NumPy's broadcasting *)

Section AdaMaxBroadcast.
Context `{Scalar R}.

(** The entry of [a] that broadcasting pairs with the result index
    [idx]. *)
Definition bc_item (a : ndarray R) (idx : list nat) : R :=
  item a (bc_index (shape a) idx).

(** [r] is the array of the elementwise operation [f] on [a] and [b]
    under broadcasting. *)
Definition elementwise (f : R -> R -> R) (a b r : ndarray R) : Prop :=
  broadcast_shapes (shape a) (shape b) = Some (shape r)
  /\ well_formed r
  /\ forall idx, in_bounds (shape r) idx ->
       item r idx = f (bc_item a idx) (bc_item b idx).

(** [p'] is what [p += d] leaves in [p]: the step is broadcast to the
    shape of [p], which is kept. *)
Definition added_in_place (p d p' : ndarray R) : Prop :=
  broadcast_shapes (shape p) (shape d) = Some (shape p)
  /\ shape p' = shape p /\ well_formed p'
  /\ forall idx, in_bounds (shape p) idx ->
       item p' idx = s_add (item p idx) (bc_item d idx).

(** [beta1*m + (1-beta1)*gradient] *)
Definition first_moment_of (beta1 m g : R) : R :=
  s_add (s_mul beta1 m) (s_mul (s_sub s_one beta1) g).

(** [max(beta2*u, |gradient|)] *)
Definition inf_moment_of (beta2 u g : R) : R :=
  s_max (s_mul beta2 u) (s_abs g).

(** [(learning_rate / (1 - beta1^t)) * (m / (u + epsilon))] *)
Definition step_of_moments (learning_rate beta1 epsilon : R) (t : nat) (m u : R)
  : R :=
  s_mul (s_div learning_rate (s_sub s_one (s_pow beta1 t)))
        (s_div m (s_add u epsilon)).
End AdaMaxBroadcast.

(** One optimizer shared by two Dense layers, as a model hands the same
    [optimizer[0]] to every layer: after a call for a layer of one unit
    (weights 2x1, one bias), a call for a layer of two units (weights
    2x2, two biases) with gradients as Dense builds them: an outer
    product of two rows and one column, and a scalar. *)
Module SharedOptimizer.
Open Scope Q_scope.
Definition heap_a : heap Q :=
  <[1%nat := mk_ndarray [1%nat] [5]]> (<[0%nat := mk_ndarray [2; 1]%nat [1; 2]]> ∅).
Definition weight_gradients : ndarray Q := mk_ndarray [2; 1]%nat [1; -2].
Definition bias_gradient : ndarray Q := scalar_array 1.
Definition optimizer_a : AdaMax.state Q :=
  fst (fst (AdaMax.apply_gradients weight_gradients bias_gradient
              0%nat 1%nat (Examples.optimizer0, heap_a))).
Definition weights_b : ndarray Q := mk_ndarray [2; 2]%nat [1; 2; 3; 4].
Definition biases_b : ndarray Q := mk_ndarray [2%nat] [5; 6].
Definition heap_b : heap Q := <[1%nat := biases_b]> (<[0%nat := weights_b]> ∅).
End SharedOptimizer.

(** * Verification *)

(** ** Facts about arrays *)

Section ArrayBasics.
Context {A : Type}.

Lemma length_indices (sh : list nat) : length (indices sh) = product sh.
Proof.
  induction sh as [|n sh IH]; [done|].
  cbn [indices product foldr]. fold (product sh). rewrite <- IH.
  generalize 0. induction n as [|n IHn]; intros s; [done|].
  cbn. rewrite length_app, length_fmap, IHn. done.
Qed.

Lemma lookup_bind_block {B} (f : nat -> list B) (k : nat) :
  (forall i, length (f i) = k) ->
  forall n s i o, i < n -> o < k ->
    (seq s n ≫= f) !! (i * k + o) = f (s + i) !! o.
Proof.
  intros Hk. induction n as [|n IH]; intros s i o Hi Ho; [lia|].
  cbn [seq]. rewrite bind_cons.
  destruct i as [|i].
  - rewrite Nat.add_0_r. cbn. rewrite lookup_app_l by (rewrite Hk; lia). done.
  - rewrite lookup_app_r by (rewrite Hk; lia).
    rewrite Hk. replace (S i * k + o - k) with (i * k + o) by lia.
    rewrite IH by lia. f_equal. f_equal. lia.
Qed.

Lemma ravel_index_lt (sh idx : list nat) (o : nat) :
  ravel_index sh idx = Some o -> o < product sh.
Proof.
  revert idx o. induction sh as [|n sh IH]; intros [|i idx] o; cbn; try done.
  - intros [= <-]. lia.
  - destruct (decide (i < n)); [|done].
    destruct (ravel_index sh idx) as [o'|] eqn:E; [|done].
    cbn. intros [= <-]. apply IH in E. fold (product sh). nia.
Qed.

Lemma ravel_index_in_bounds (sh idx : list nat) :
  in_bounds sh idx -> is_Some (ravel_index sh idx).
Proof.
  intros H. induction H as [|i n idx sh Hlt _ IH]; cbn; [by eexists|].
  rewrite decide_True by done. destruct IH as [o ->]. by eexists.
Qed.

Lemma ravel_index_Some_in_bounds (sh idx : list nat) (o : nat) :
  ravel_index sh idx = Some o -> in_bounds sh idx.
Proof.
  revert idx o. induction sh as [|n sh IH]; intros [|i idx] o; cbn; try done.
  - intros _. constructor.
  - destruct (decide (i < n)); [|done].
    destruct (ravel_index sh idx) as [o'|] eqn:E; [|done].
    intros _. constructor; [done|]. by eapply IH.
Qed.

Lemma lookup_indices (sh idx : list nat) (o : nat) :
  ravel_index sh idx = Some o -> indices sh !! o = Some idx.
Proof.
  revert idx o. induction sh as [|n sh IH]; intros [|i idx] o; cbn; try done.
  - by intros [= <-].
  - destruct (decide (i < n)) as [Hi|]; [|done].
    destruct (ravel_index sh idx) as [o'|] eqn:E; [|done].
    cbn. intros [= <-]. fold (product sh).
    rewrite (lookup_bind_block (fun i => cons i <$> indices sh) (product sh)).
    + cbn. rewrite list_lookup_fmap, (IH _ _ E). done.
    + intros j. by rewrite length_fmap, length_indices.
    + done.
    + by eapply ravel_index_lt.
Qed.

Lemma get_at_gather (sh : list nat) (f : list nat -> A) (idx : list nat) :
  in_bounds sh idx -> get_at (gather sh f) idx = Some (f idx).
Proof.
  intros Hb. unfold get_at, gather. cbn.
  destruct (ravel_index_in_bounds _ _ Hb) as [o Ho]. rewrite Ho. cbn.
  rewrite list_lookup_fmap, (lookup_indices _ _ _ Ho). done.
Qed.

Lemma get_at_gather_None (sh : list nat) (f : list nat -> A) (idx : list nat) :
  ~ in_bounds sh idx -> get_at (gather sh f) idx = None.
Proof.
  intros Hb. unfold get_at, gather. cbn.
  destruct (ravel_index sh idx) as [o|] eqn:E; [|done].
  exfalso. apply Hb. by eapply ravel_index_Some_in_bounds.
Qed.

Lemma gather_well_formed (sh : list nat) (f : list nat -> A) :
  well_formed (gather sh f).
Proof. unfold well_formed, gather. cbn. by rewrite length_fmap, length_indices. Qed.

Lemma get_at_is_Some (a : ndarray A) (idx : list nat) :
  well_formed a -> in_bounds (shape a) idx -> is_Some (get_at a idx).
Proof.
  intros Hwf Hb. unfold get_at.
  destruct (ravel_index_in_bounds _ _ Hb) as [o Ho]. rewrite Ho. cbn.
  apply lookup_lt_is_Some. rewrite Hwf. by eapply ravel_index_lt.
Qed.

Lemma sequence_result_Ok (l : list (result A)) (xs : list A) :
  l = Ok <$> xs -> sequence_result l = Ok xs.
Proof.
  intros ->. induction xs as [|x xs IH]; [done|].
  cbn. rewrite IH. done.
Qed.

Lemma indices_in_bounds (sh idx : list nat) :
  idx ∈ indices sh -> in_bounds sh idx.
Proof.
  revert idx. induction sh as [|n sh IH]; intros idx E.
  - apply list_elem_of_singleton in E as ->. constructor.
  - cbn in E. apply list_elem_of_bind in E as (i & Hin & Hi).
    apply list_elem_of_fmap in Hin as (idx' & -> & Hin).
    apply elem_of_seq in Hi.
    constructor; [lia|]. by apply IH.
Qed.

Lemma gather_result_Ok (sh : list nat) (f : list nat -> result A)
      (g : list nat -> A) :
  (forall idx, in_bounds sh idx -> f idx = Ok (g idx)) ->
  gather_result sh f = Ok (gather sh g).
Proof.
  intros Hf. unfold gather_result, gather.
  rewrite (sequence_result_Ok _ (g <$> indices sh)); [done|].
  rewrite <- list_fmap_compose. apply list_fmap_ext.
  intros o idx E. apply Hf, indices_in_bounds.
  by eapply list_elem_of_lookup_2.
Qed.

Lemma gather_ext (sh : list nat) (f g : list nat -> A) :
  (forall idx, in_bounds sh idx -> f idx = g idx) ->
  gather sh f = gather sh g.
Proof.
  intros Hfg. unfold gather. f_equal. apply list_fmap_ext.
  intros o idx E. apply Hfg, indices_in_bounds.
  by eapply list_elem_of_lookup_2.
Qed.
End ArrayBasics.

Section NumpyFacts.
Context `{Inhabited A}.

Lemma item_gather (sh : list nat) (f : list nat -> A) (idx : list nat) :
  in_bounds sh idx -> item (gather sh f) idx = f idx.
Proof. intros Hb. unfold item. by rewrite get_at_gather. Qed.

Lemma broadcast_rev_same (s : list nat) : broadcast_rev s s = Some s.
Proof.
  induction s as [|a s IH]; [done|].
  cbn. rewrite decide_True by done. cbn. by rewrite IH.
Qed.

Lemma broadcast_shapes_same (s : list nat) : broadcast_shapes s s = Some s.
Proof.
  unfold broadcast_shapes. rewrite broadcast_rev_same. cbn.
  by rewrite reverse_involutive.
Qed.

Lemma broadcast_shapes_scalar_r (s : list nat) : broadcast_shapes s [] = Some s.
Proof.
  unfold broadcast_shapes. rewrite reverse_nil.
  assert (Hr : forall l, broadcast_rev l [] = Some l) by (by intros [|]).
  rewrite Hr. cbn [fmap option_fmap option_map]. by rewrite reverse_involutive.
Qed.

Lemma bc_index_same (s idx : list nat) :
  in_bounds s idx -> bc_index s idx = idx.
Proof.
  intros Hb. unfold bc_index.
  rewrite (Forall2_length _ _ _ Hb), Nat.sub_diag, drop_0.
  induction Hb as [|i n idx s Hlt _ IH]; [done|].
  cbn. rewrite IH. destruct (decide (n = 1)); [|done]. f_equal. lia.
Qed.

Lemma bc_index_scalar (idx : list nat) : bc_index [] idx = [].
Proof. done. Qed.
End NumpyFacts.

(** ** Broadcasting reads inside its operands *)

Section Broadcasting.
Let pick (d i : nat) : nat := if decide (d = 1) then 0 else i.

Lemma reverse_zip_with {A B C} (f : A -> B -> C) (l : list A) (k : list B) :
  length l = length k ->
  reverse (zip_with f l k) = zip_with f (reverse l) (reverse k).
Proof.
  revert k. induction l as [|a l IH]; intros [|b k] Hlen; try done.
  cbn in Hlen. cbn [zip_with]. rewrite !reverse_cons.
  rewrite zip_with_app by (rewrite !length_reverse; lia).
  rewrite IH by lia. done.
Qed.

Lemma bc_index_reverse (s idx : list nat) :
  length s <= length idx ->
  bc_index s idx = reverse (zip_with pick (reverse s) (reverse idx)).
Proof.
  intros Hlen. unfold bc_index. fold pick.
  rewrite <- (reverse_involutive (zip_with pick s _)).
  f_equal. rewrite reverse_zip_with by (rewrite length_drop; lia).
  rewrite reverse_drop.
  replace (length idx - (length idx - length s)) with (length (reverse s))
    by (rewrite length_reverse; lia).
  by rewrite zip_with_take_r.
Qed.

Lemma broadcast_rev_in_bounds (r1 r2 r ridx : list nat) :
  broadcast_rev r1 r2 = Some r -> Forall2 lt ridx r ->
  Forall2 lt (zip_with pick r1 ridx) r1 /\ Forall2 lt (zip_with pick r2 ridx) r2.
Proof.
  revert r2 r ridx. induction r1 as [|a r1 IH]; intros r2 r ridx Hb Hidx.
  - cbn in Hb. injection Hb as <-. split; [constructor|].
    induction Hidx as [|i n ridx r2 Hlt _ IH']; cbn; [constructor|].
    constructor; [|done]. unfold pick. destruct (decide (n = 1)); lia.
  - destruct r2 as [|b r2].
    + cbn in Hb. injection Hb as <-. split; [|destruct ridx; constructor].
      clear IH. revert Hidx. generalize (a :: r1). intros l Hidx.
      induction Hidx as [|i n ridx l Hlt _ IH']; cbn; [constructor|].
      constructor; [|done]. unfold pick. destruct (decide (n = 1)); lia.
    + cbn in Hb.
      destruct (if decide (a = b) then Some a
                else if decide (a = 1) then Some b
                else if decide (b = 1) then Some a else None) as [d|] eqn:Ed;
        [|done]. cbn in Hb.
      destruct (broadcast_rev r1 r2) as [r'|] eqn:Er; [|done].
      cbn in Hb. injection Hb as <-.
      apply Forall2_cons_inv_r in Hidx as (i & ridx' & Hi & Hidx' & ->).
      destruct (IH _ _ _ Er Hidx') as [H1 H2].
      cbn. split; (constructor; [|done]); unfold pick.
      * destruct (decide (a = 1)); [lia|].
        repeat (destruct (decide _) in Ed); simplify_eq; lia.
      * destruct (decide (b = 1)); [lia|].
        repeat (destruct (decide _) in Ed); simplify_eq; lia.
Qed.

Lemma broadcast_rev_length (r1 r2 r : list nat) :
  broadcast_rev r1 r2 = Some r ->
  length r1 <= length r /\ length r2 <= length r.
Proof.
  revert r2 r. induction r1 as [|a r1 IH]; intros r2 r Hb.
  - cbn in Hb. injection Hb as <-. cbn. lia.
  - destruct r2 as [|b r2]; [cbn in Hb; injection Hb as <-; cbn; lia|].
    cbn in Hb.
    destruct (if decide (a = b) then Some a
              else if decide (a = 1) then Some b
              else if decide (b = 1) then Some a else None) as [d|]; [|done].
    cbn in Hb. destruct (broadcast_rev r1 r2) as [r'|] eqn:Er; [|done].
    cbn in Hb. injection Hb as <-. apply IH in Er. cbn. lia.
Qed.

Lemma broadcast_in_bounds (s1 s2 sh idx : list nat) :
  broadcast_shapes s1 s2 = Some sh -> in_bounds sh idx ->
  in_bounds s1 (bc_index s1 idx) /\ in_bounds s2 (bc_index s2 idx).
Proof.
  unfold broadcast_shapes, in_bounds. intros Hb Hidx.
  destruct (broadcast_rev (reverse s1) (reverse s2)) as [r|] eqn:Er; [|done].
  cbn in Hb. injection Hb as <-.
  destruct (broadcast_rev_length _ _ _ Er) as [L1 L2].
  rewrite !length_reverse in L1, L2.
  pose proof (Forall2_length _ _ _ Hidx) as Hl. rewrite length_reverse in Hl.
  apply Forall2_reverse in Hidx. rewrite reverse_involutive in Hidx.
  destruct (broadcast_rev_in_bounds _ _ _ _ Er Hidx) as [H1 H2].
  rewrite !bc_index_reverse by lia.
  split.
  - rewrite <- (reverse_involutive s1) at 2. by apply Forall2_reverse.
  - rewrite <- (reverse_involutive s2) at 2. by apply Forall2_reverse.
Qed.
End Broadcasting.

(** ** Facts about entries *)

Section ItemFacts.
Context `{Inhabited A}.

Lemma get_at_map_arr {B} (f : A -> B) (a : ndarray A) (idx : list nat) :
  get_at (map_arr f a) idx = f <$> get_at a idx.
Proof.
  unfold get_at, map_arr. cbn.
  destruct (ravel_index (shape a) idx) as [o|]; [|done].
  cbn. by rewrite list_lookup_fmap.
Qed.

Lemma item_map_arr `{Inhabited B} (f : A -> B) (a : ndarray A) (idx : list nat) :
  well_formed a -> in_bounds (shape a) idx ->
  item (map_arr f a) idx = f (item a idx).
Proof.
  intros Hwf Hb. unfold item. rewrite get_at_map_arr.
  destruct (get_at_is_Some a idx Hwf Hb) as [x ->]. done.
Qed.

Lemma well_formed_map_arr {B} (f : A -> B) (a : ndarray A) :
  well_formed a -> well_formed (map_arr f a).
Proof. unfold well_formed, map_arr. cbn. by rewrite length_fmap. Qed.

Lemma well_formed_full (sh : list nat) (v : A) : well_formed (full sh v).
Proof. unfold well_formed, full. cbn. by rewrite length_replicate. Qed.

Lemma item_full (sh : list nat) (v : A) (idx : list nat) :
  in_bounds sh idx -> item (full sh v) idx = v.
Proof.
  intros Hb. unfold item, get_at, full. cbn.
  destruct (ravel_index_in_bounds _ _ Hb) as [o Ho]. rewrite Ho. cbn.
  rewrite lookup_replicate_2; [done|]. by eapply ravel_index_lt.
Qed.
End ItemFacts.

(** ** The state monad *)

Section MonadFacts.
Context {S : Type}.

Lemma M_bind_eq {A B} (m : M S A) (f : A -> M S B) (s s' : S) (a : A) :
  m s = (s', Ok a) -> (m ≫= f) s = f a s'.
Proof. intros E. unfold mbind, M_bind. by rewrite E. Qed.

Lemma M_bind_raise {A B} (m : M S A) (f : A -> M S B) (s s' : S) e msg :
  m s = (s', Raise e msg) -> (m ≫= f) s = (s', Raise e msg).
Proof. intros E. unfold mbind, M_bind. by rewrite E. Qed.

Lemma M_bind_Ok_inv {A B} (m : M S A) (f : A -> M S B) (s s' : S) (b : B) :
  (m ≫= f) s = (s', Ok b) ->
  exists s1 a, m s = (s1, Ok a) /\ f a s1 = (s', Ok b).
Proof.
  unfold mbind, M_bind. destruct (m s) as [s1 [a|e msg]]; [|done].
  intros E. by exists s1, a.
Qed.

Lemma result_bind_Ok_inv {A B} (r : result A) (f : A -> result B) (b : B) :
  r ≫= f = Ok b -> exists a, r = Ok a /\ f a = Ok b.
Proof. destruct r as [a|]; [|done]. intros E. by exists a. Qed.
End MonadFacts.

(** ** Shapes given by Python integers, and sampling *)

Section ShapesAndSamples.
Context {R : Type}.

Lemma shape_of_ints_pos (dims : list Z) :
  Forall (fun d => 0 <= d)%Z dims -> shape_of_ints dims = Ok (Z.to_nat <$> dims).
Proof.
  intros Hd. unfold shape_of_ints.
  replace (forallb (Z.leb 0) dims) with true; [done|].
  symmetry. induction Hd as [|d dims Hd _ IH]; [done|].
  cbn [forallb]. rewrite IH, andb_true_r. by apply Z.leb_le.
Qed.

Lemma randn_Ok (dims : list Z) (g : rng R) :
  Forall (fun d => 0 <= d)%Z dims ->
  randn (R:=R) dims g
  = (mk_rng (draw g) (pos g + product (Z.to_nat <$> dims)),
     Ok (mk_ndarray (Z.to_nat <$> dims)
                    (samples g (product (Z.to_nat <$> dims))))).
Proof. intros Hd. unfold randn. by rewrite shape_of_ints_pos. Qed.

End ShapesAndSamples.

(** ** AdaMax: the numeric update *)

Section AdaMaxFacts.
Context `{Scalar R}.
Import AdaMax.




End AdaMaxFacts.

(** ** AdaMax: allocation and resizing of the accumulators *)

Section AdaMaxShapes.
Context `{Scalar R}.
Import AdaMax.

Lemma clip_max (sm ts : list nat) :
  length ts = length sm -> clip_shape (zip_with Nat.max sm ts) ts = ts.
Proof.
  revert ts. induction sm as [|a sm IH]; intros [|b ts] Hl; try done.
  cbn in *. rewrite IH by lia. f_equal. lia.
Qed.

Lemma in_bounds_max (sm ts idx : list nat) :
  length ts = length sm -> in_bounds ts idx ->
  in_bounds (zip_with Nat.max sm ts) idx.
Proof.
  unfold in_bounds. intros Hl Hb. revert sm Hl.
  induction Hb as [|i n idx ts Hlt _ IH]; intros [|a sm] Hl; try done.
  cbn in *. constructor; [lia|]. apply IH. lia.
Qed.

Lemma resize_step (m : ndarray R) (ts : list nat) :
  length ts = ndim m ->
  (f ← _fill_array m ts; slice_prefix f ts) = Ok (resized ts m).
Proof.
  intros Hl. unfold _fill_array. rewrite decide_True by done.
  cbn [mbind result_bind]. unfold slice_prefix.
  rewrite decide_True.
  2:{ unfold ndim, gather. cbn [shape]. rewrite length_zip_with.
      unfold ndim in Hl. lia. }
  f_equal.
  change (shape (gather ?sh _)) with sh. rewrite clip_max by done.
  apply gather_ext. intros idx Hb.
  rewrite item_gather by (by apply in_bounds_max). done.
Qed.

Lemma resize_step_first_axis (m : ndarray R) (n : nat) :
  ndim m = 1 ->
  (f ← _fill_array m [n]; slice_prefix f [n]) = Ok (resized [n] m).
Proof. intros Hl. by apply resize_step. Qed.

Lemma resized_shape (ts : list nat) (m : ndarray R) : shape (resized ts m) = ts.
Proof. done. Qed.

Lemma resized_well_formed (ts : list nat) (m : ndarray R) :
  well_formed (resized ts m).
Proof. apply gather_well_formed. Qed.



Ltac simpl_fields :=
  cbn [fst snd m_w u_w m_b u_b t learning_rate beta1 beta2 e
       adjust_biases_shape set_m_w set_u_w set_m_b set_u_b set_t].


Lemma deref_eq (st : St) (l : loc) (a : ndarray R) :
  snd st !! l = Some a -> deref l st = (st, Ok a).
Proof. intros E. unfold deref. by rewrite E. Qed.

End AdaMaxShapes.

Section AdaMaxUpdate.
Context `{Scalar R}.
Import AdaMax.

Ltac simpl_fields :=
  cbn [fst snd m_w u_w m_b u_b t learning_rate beta1 beta2 e
       adjust_biases_shape set_m_w set_u_w set_m_b set_u_b set_t].



End AdaMaxUpdate.

(** ** MaxPool2D: the backward pass *)

(** C2, as stated, fails: the exception raised is of the base class
    [Exception], not a [NotImplementedError]. *)
Lemma C2_counterexample :
  ~ exists msg,
      snd (MaxPool2D.backpropagate (R:=Z) (mk_ndarray [1] [1%Z])
             (MaxPool2D.init (2, 2) (2, 2) "MaxPool2D", ([], ∅)))
      = Raise NotImplementedError msg.
Proof. intros [msg Hmsg]. discriminate Hmsg. Qed.

Section MaxPool2DBackward.
Context `{Scalar R}.

(** C2 (amended). For every gradient, layer and optimizer list,
    [MaxPool2D.backpropagate] raises an exception of class [Exception]
    whose message says that the backward pass is not implemented, and
    leaves the layer, the optimizers and the store as they were. *)
Theorem C2_backpropagate_raises
    (gradient : ndarray R) (self : MaxPool2D.t R) (optimizer : Optimizers R) :
  MaxPool2D.backpropagate gradient (self, optimizer)
  = ((self, optimizer), Raise PyException MaxPool2D.not_implemented_message)
  /\ contains "not implemented" MaxPool2D.not_implemented_message = true.
Proof. split; reflexivity. Qed.
End MaxPool2DBackward.

(** ** AdaMax keeps the shape of the parameters it updates *)

Section AdaMaxInversion.
Context `{Scalar R}.
Import AdaMax.
Local Abbreviation St := (AdaMax.St (R:=R)).

Lemma inv_self (st s1 : St) (a : state R) :
  self st = (s1, Ok a) -> s1 = st /\ a = fst st.
Proof. unfold self. by intros [= <- <-]. Qed.

Lemma inv_assign (f : state R -> state R) (st s1 : St) (u : unit) :
  assign f st = (s1, Ok u) -> s1 = (f (fst st), snd st).
Proof. unfold assign, m_modify. by intros [= <-]. Qed.

Lemma inv_lift {A} (r : result A) (st s1 : St) (a : A) :
  m_lift r st = (s1, Ok a) -> s1 = st /\ r = Ok a.
Proof. unfold m_lift. by intros [= <- <-]. Qed.

Lemma inv_deref (l : loc) (st s1 : St) (a : ndarray R) :
  deref l st = (s1, Ok a) -> s1 = st /\ snd st !! l = Some a.
Proof.
  unfold deref. destruct (snd st !! l) as [x|]; [|done]. by intros [= <- <-].
Qed.

Lemma inv_store (l : loc) (v : ndarray R) (st s1 : St) (u : unit) :
  store l v st = (s1, Ok u) -> s1 = (fst st, <[l := v]> (snd st)).
Proof. unfold store, m_modify. by intros [= <-]. Qed.

Lemma keeps_heap_bind {A B} (m : M St A) (f : A -> M St B) :
  keeps_heap m -> (forall a, keeps_heap (f a)) -> keeps_heap (m ≫= f).
Proof.
  intros Hm Hf st st' r. unfold mbind, M_bind.
  destruct (m st) as [s1 [a|e msg]] eqn:E.
  - intros E'. rewrite (Hf _ _ _ _ E'). by eapply Hm.
  - intros [= <- <-]. by eapply Hm.
Qed.

Lemma keeps_heap_self : keeps_heap self.
Proof. by intros st st' r [= <- <-]. Qed.
Lemma keeps_heap_assign (f : state R -> state R) : keeps_heap (assign f).
Proof. by intros st st' r [= <- <-]. Qed.
Lemma keeps_heap_lift {A} (r : result A) : keeps_heap (m_lift r).
Proof. by intros st st' r' [= <- <-]. Qed.
Lemma keeps_heap_ret {A} (a : A) : keeps_heap (mret a).
Proof. by intros st st' r' [= <- <-]. Qed.
Lemma keeps_heap_deref (l : loc) : keeps_heap (deref l).
Proof.
  intros st st' r. unfold deref.
  destruct (snd st !! l); by intros [= <- <-].
Qed.

Lemma keeps_heap_adjust_shapes (wl bl : loc) : keeps_heap (adjust_shapes wl bl).
Proof.
  unfold adjust_shapes.
  repeat first
    [ apply keeps_heap_bind; [|intros ?]
    | apply keeps_heap_self | apply keeps_heap_assign | apply keeps_heap_lift
    | apply keeps_heap_ret | apply keeps_heap_deref
    | match goal with |- keeps_heap (if ?c then _ else _) => destruct c end ].
Qed.

Lemma inplace_op_shape {A B} `{Inhabited A} `{Inhabited B}
      (f : A -> B -> A) (a : ndarray A) (b : ndarray B) (c : ndarray A) :
  inplace_op f a b = Ok c -> shape c = shape a.
Proof.
  unfold inplace_op. destruct (broadcast_shapes _ _) as [sh|]; [|done].
  destruct (decide (sh = shape a)) as [->|]; [|done]. by intros [= <-].
Qed.

(** A successful call hands back the two objects it was given, and the
    weight object holds an array of the shape it had before. *)
Lemma apply_gradients_Ok_inv (wg bg : ndarray R) (wl bl : loc)
      (st st' : St) (r : loc * loc) (w : ndarray R) :
  apply_gradients wg bg wl bl st = (st', Ok r) ->
  snd st !! wl = Some w ->
  r = (wl, bl) /\ exists w', snd st' !! wl = Some w' /\ shape w' = shape w.
Proof.
  unfold apply_gradients. intros Hrun Hw.
  repeat match type of Hrun with
  | (mbind _ (deref _)) _ = _ => fail 1
  | (mbind _ ?m) ?s = _ =>
      let s1 := fresh "s" in let a := fresh "a" in let Hm := fresh "Hm" in
      apply M_bind_Ok_inv in Hrun as (s1 & a & Hm & Hrun);
      first
        [ apply inv_self in Hm as [-> ->]
        | apply inv_assign in Hm as ->
        | apply inv_lift in Hm as [-> Hm]
        | apply keeps_heap_adjust_shapes in Hm;
          destruct s1 as [? ?]; cbn [fst snd] in Hm; subst ]
  end.
  cbn [fst snd] in *.
  apply M_bind_Ok_inv in Hrun as (s1 & w0 & Hq1 & Hrun).
  apply inv_deref in Hq1 as [-> Hw0]. cbn [snd] in Hw0.
  rewrite Hw in Hw0. injection Hw0 as <-.
  apply M_bind_Ok_inv in Hrun as (s1 & w1 & Hq2 & Hrun).
  apply inv_lift in Hq2 as [-> Hw1].
  apply result_bind_Ok_inv in Hw1 as (d & _ & Hw1).
  apply inplace_op_shape in Hw1.
  apply M_bind_Ok_inv in Hrun as (s1 & u & Hq3 & Hrun).
  apply inv_store in Hq3 as ->. cbn [fst snd] in Hrun.
  apply M_bind_Ok_inv in Hrun as (s1 & b0 & Hq4 & Hrun).
  apply inv_deref in Hq4 as [-> Hb0]. cbn [snd] in Hb0.
  apply M_bind_Ok_inv in Hrun as (s1 & b1 & Hq5 & Hrun).
  apply inv_lift in Hq5 as [-> Hb1].
  apply result_bind_Ok_inv in Hb1 as (d' & _ & Hb1).
  apply inplace_op_shape in Hb1.
  apply M_bind_Ok_inv in Hrun as (s1 & u' & Hq6 & Hrun).
  apply inv_store in Hq6 as ->. cbn [fst snd] in Hrun.
  injection Hrun as <- <-. split; [done|]. cbn [snd].
  destruct (decide (bl = wl)) as [->|Hne].
  - exists b1. rewrite lookup_insert_eq. split; [done|].
    rewrite lookup_insert_eq in Hb0. injection Hb0 as <-. congruence.
  - exists w1. rewrite lookup_insert_ne by done.
    rewrite lookup_insert_eq. done.
Qed.
End AdaMaxInversion.

(** ** Flatten and Reshape: the backward pass *)

Section ReshapeFacts.
Lemma nonneg_dims (dims : list nat) :
  forallb (Z.leb (-1)) (Z.of_nat <$> dims) = true
  /\ filter (fun d => d = (-1)%Z) (Z.of_nat <$> dims) = []
  /\ filter (fun d => d <> (-1)%Z) (Z.of_nat <$> dims) = Z.of_nat <$> dims
  /\ foldr Z.mul 1%Z (Z.of_nat <$> dims) = Z.of_nat (product dims)
  /\ Z.to_nat <$> (Z.of_nat <$> dims) = dims.
Proof.
  induction dims as [|d dims (IH1 & IH2 & IH3 & IH4 & IH5)]; [done|].
  cbn [fmap list_fmap forallb foldr].
  rewrite filter_cons_False by (cbn; lia). rewrite filter_cons_True by (cbn; lia).
  fold (@fmap list _ _ _ Z.of_nat dims).
  rewrite IH1, IH2, IH3, IH4. repeat split; try done.
  - rewrite andb_true_r. apply Z.leb_le. lia.
  - unfold product. cbn [foldr]. lia.
  - rewrite IH5. f_equal. lia.
Qed.

Lemma reshape_target_fits (n : nat) (k : Z) (dims : list nat) :
  (0 <= k)%Z -> (k * Z.of_nat (product dims))%Z = Z.of_nat n ->
  reshape_target n (k :: (Z.of_nat <$> dims)) = Ok (Z.to_nat k :: dims).
Proof.
  intros Hk Hn. destruct (nonneg_dims dims) as (H1 & H2 & H3 & H4 & H5).
  unfold reshape_target, count_minus_one, known_product.
  cbn [forallb]. rewrite H1.
  replace (-1 <=? k)%Z with true by (symmetry; apply Z.leb_le; lia).
  cbn [andb negb].
  rewrite filter_cons_False by (cbn; lia). rewrite H2. cbn [length].
  rewrite filter_cons_True by (cbn; lia). rewrite H3. cbn [foldr]. rewrite H4.
  rewrite decide_True by done. cbn [fmap list_fmap].
  fold (@fmap list _ _ _ Z.to_nat (Z.of_nat <$> dims)). by rewrite H5.
Qed.

Lemma reshape_target_mismatch (n : nat) (k : Z) (dims : list nat) :
  size_mismatch k dims n ->
  exists e msg, reshape_target n (k :: (Z.of_nat <$> dims)) = Raise e msg.
Proof.
  unfold size_mismatch. intros Hn.
  destruct (nonneg_dims dims) as (H1 & H2 & H3 & H4 & H5).
  unfold reshape_target, count_minus_one, known_product.
  cbn [forallb]. rewrite H1.
  destruct (-1 <=? k)%Z eqn:Ek; cbn [andb negb]; [|by eexists _, _].
  apply Z.leb_le in Ek.
  destruct (decide (k = (-1)%Z)) as [->|Hk].
  - rewrite filter_cons_True by done. rewrite H2. cbn [length].
    rewrite filter_cons_False by (cbn; lia). rewrite H3, H4.
    rewrite decide_False; [by eexists _, _|].
    intros [Hnz Hmod]. destruct Hn as [Hz|Hm]; [lia|].
    apply Hm. apply Nat2Z.inj. rewrite Nat2Z.inj_mod. done.
  - rewrite filter_cons_False by (cbn; lia). rewrite H2. cbn [length].
    rewrite filter_cons_True by (cbn; lia). rewrite H3. cbn [foldr]. rewrite H4.
    rewrite decide_False by done. by eexists _, _.
Qed.
End ReshapeFacts.

Section ReshapeBackward.
Context `{Scalar R}.

(** C6. When the size of the incoming gradient does not fit the
    recorded target (the integer shape [k] of the next layer followed by
    the original input shape), neither layer raises: each returns the
    gradient it was given. *)
Theorem C6_backpropagate_fallback (gradient : ndarray R) :
  (forall (self : Flatten.t) (k : Z) (original : list nat),
      Flatten.next_layer_shape self = Some (ShapeInt k) ->
      Flatten.original_shape self = Some original ->
      size_mismatch k original (size gradient) ->
      Flatten.backpropagate self gradient = gradient)
  /\ (forall (self : Reshape.t) (k : Z) (original : list nat),
      Reshape.next_layer_shape self = Some (ShapeInt k) ->
      Reshape.original_shape self = Some original ->
      size_mismatch k original (size gradient) ->
      Reshape.backpropagate self gradient = gradient).
Proof.
  split; intros self k original Hn Ho Hsz.
  - unfold Flatten.backpropagate, Flatten.reshape_args. rewrite Hn, Ho.
    cbn [attr mbind result_bind]. unfold np_reshape.
    destruct (reshape_target_mismatch _ _ _ Hsz) as (e & msg & ->). done.
  - unfold Reshape.backpropagate, Flatten.reshape_args. rewrite Hn, Ho.
    cbn [attr mbind result_bind]. unfold np_reshape.
    destruct (reshape_target_mismatch _ _ _ Hsz) as (e & msg & ->). done.
Qed.

(** With a target that is no integer followed by extents (the next layer
    reports a tuple, or nothing was recorded yet) the call falls back in
    the same way. *)
Lemma backpropagate_fallback_bad_target (self : Flatten.t) (gradient : ndarray R) :
  (forall k, Flatten.next_layer_shape self <> Some (ShapeInt k))
  \/ Flatten.original_shape self = None ->
  Flatten.backpropagate self gradient = gradient.
Proof.
  unfold Flatten.backpropagate, Flatten.reshape_args.
  destruct (Flatten.next_layer_shape self) as [[k|dims|]|],
           (Flatten.original_shape self) as [o|]; cbn; try done.
  intros [Hk|Ho]; [by destruct (Hk k)|done].
Qed.
End ReshapeBackward.

(** A gradient of 5 entries against the target (4, 2, 3). *)
Lemma C6_backpropagate_fallback_witness :
  Flatten.backpropagate
    (Flatten.mk "Flatten" (Some 6%Z) (Some (ShapeInt 4)) (Some [2; 3]))
    Examples.gradient5 = Examples.gradient5
  /\ Reshape.backpropagate
       (Reshape.mk [6%Z] "Reshape" (Some (ShapeInt 4)) (Some [2; 3]))
       Examples.gradient5 = Examples.gradient5.
Proof.
  destruct (C6_backpropagate_fallback Examples.gradient5) as [HF HR]. split.
  - apply (HF _ 4%Z [2; 3]); [reflexivity | reflexivity | vm_compute; lia].
  - apply (HR _ 4%Z [2; 3]); [reflexivity | reflexivity | vm_compute; lia].
Defined.

(** ** Dense followed by Flatten *)

Section DenseFlatten.
Context `{Scalar R}.

Lemma inv_heap_deref (l : loc) (st s1 : Optimizers R) (a : ndarray R) :
  heap_deref l st = (s1, Ok a) -> s1 = st /\ snd st !! l = Some a.
Proof.
  unfold heap_deref. destruct (snd st !! l) as [x|]; [|done].
  by intros [= <- <-].
Qed.

Lemma inv_m_lift {S A} (r : result A) (st s1 : S) (a : A) :
  m_lift r st = (s1, Ok a) -> s1 = st /\ r = Ok a.
Proof. unfold m_lift. by intros [= <- <-]. Qed.

Lemma inv_with_optimizer {A} (k : nat) (m : M (AdaMax.St (R:=R)) A)
      (st s1 : Optimizers R) (a : A) :
  with_optimizer k m st = (s1, Ok a) ->
  exists o o', fst st !! k = Some o /\ m (o, snd st) = ((o', snd s1), Ok a).
Proof.
  unfold with_optimizer. destruct (fst st !! k) as [o|]; [|done].
  destruct (m (o, snd st)) as [[o' h'] r] eqn:E.
  intros [= <- <-]. by exists o, o'.
Qed.

(** The gradient a Dense layer hands back is a multiple of its updated
    weight matrix, transposed; the update keeps the shape of the
    weights. *)
Lemma Dense_backpropagate_Ok_inv (self self' : Dense.t R) (gradient g : ndarray R)
      (st st' : Optimizers R) (w : ndarray R) :
  Dense.backpropagate self gradient st = (st', Ok (g, self')) ->
  snd st !! Dense.weights self = Some w ->
  exists (delta : R) (w' : ndarray R),
    shape w' = shape w /\ g = map_arr (s_mul delta) (np_transpose w').
Proof.
  unfold Dense.backpropagate. intros Hrun Hw.
  apply M_bind_Ok_inv in Hrun as (s1 & g0 & Hreg & Hrun).
  assert (s1 = st) as ->.
  { destruct (Dense.regulizer self) as [r|].
    - apply M_bind_Ok_inv in Hreg as (s2 & w0 & Hq1 & Hreg).
      apply inv_heap_deref in Hq1 as [-> _].
      apply M_bind_Ok_inv in Hreg as (s2 & b0 & Hq2 & Hreg).
      apply inv_heap_deref in Hq2 as [-> _].
      by injection Hreg as <- _.
    - by injection Hreg as <- _. }
  apply M_bind_Ok_inv in Hrun as (s1 & outs & Hq1 & Hrun).
  apply inv_m_lift in Hq1 as [-> _].
  apply M_bind_Ok_inv in Hrun as (s1 & terms & Hq2 & Hrun).
  apply inv_m_lift in Hq2 as [-> _].
  apply M_bind_Ok_inv in Hrun as (s1 & delta & Hq3 & Hrun).
  apply inv_m_lift in Hq3 as [-> _].
  apply M_bind_Ok_inv in Hrun as (s1 & x & Hq4 & Hrun).
  apply inv_m_lift in Hq4 as [-> _].
  apply M_bind_Ok_inv in Hrun as (s1 & wb & Hq5 & Hrun).
  apply inv_with_optimizer in Hq5 as (o & o' & _ & Hopt).
  destruct (apply_gradients_Ok_inv _ _ _ _ _ _ _ w Hopt Hw)
    as (-> & w' & Hw' & Hshape).
  cbn [snd fst Dense.weights] in *.
  apply M_bind_Ok_inv in Hrun as (s2 & w2 & Hq6 & Hrun).
  apply inv_heap_deref in Hq6 as [-> Hw2].
  rewrite Hw' in Hw2. injection Hw2 as <-.
  injection Hrun as _ <- _. by exists delta, w'.
Qed.

Lemma product_pair (a b : nat) : product [a; b] = a * b.
Proof. unfold product. cbn. lia. Qed.

(** C5 (amended). Let a Flatten layer have recorded the input shape
    [original] and, for the Dense layer that follows it, the integer
    shape [units]; let the weights of that Dense layer be a matrix of
    [product original] rows and [units] columns.  The gradient that
    [Dense.backpropagate] returns, passed to [Flatten.backpropagate],
    comes back with its entries in the same order and the shape
    [units] followed by [original]. *)
Theorem C5_flatten_dense_roundtrip
    (flatten : Flatten.t) (dense dense' : Dense.t R) (original : list nat)
    (gradient g w : ndarray R) (st st' : Optimizers R) :
  Flatten.original_shape flatten = Some original ->
  Flatten.next_layer_shape flatten = Some (Dense.output_shape dense) ->
  (0 <= Dense.units dense)%Z ->
  snd st !! Dense.weights dense = Some w ->
  shape w = [product original; Z.to_nat (Dense.units dense)] ->
  Dense.backpropagate dense gradient st = (st', Ok (g, dense')) ->
  Flatten.backpropagate flatten g
  = mk_ndarray (Z.to_nat (Dense.units dense) :: original) (data g).
Proof.
  intros Ho Hn Hu Hw Hsw Hrun.
  destruct (Dense_backpropagate_Ok_inv _ _ _ _ _ _ _ Hrun Hw)
    as (delta & w' & Hsw' & ->).
  unfold Flatten.backpropagate, Flatten.reshape_args. rewrite Hn, Ho.
  unfold Dense.output_shape. cbn [attr mbind result_bind]. unfold np_reshape.
  rewrite reshape_target_fits; [done|done|].
  unfold size, np_transpose. cbn [shape map_arr gather].
  rewrite Hsw', Hsw. change (reverse [?a; ?b]) with [b; a].
  rewrite product_pair. lia.
Qed.
End DenseFlatten.

(** C5, as stated, fails: for a Flatten layer that recorded the input shape
    (1, 2) before a Dense layer of 3 units, the gradient comes back with
    shape (3, 1, 2), not (1, 2). *)
Lemma C5_counterexample :
  exists g dense' st',
    Dense.backpropagate Examples.dense0 Examples.dense_gradient Examples.dense_store
    = (st', Ok (g, dense'))
    /\ Flatten.original_shape Examples.flatten0 = Some [1; 2]
    /\ shape (Flatten.backpropagate Examples.flatten0 g) = [3; 1; 2]
    /\ shape (Flatten.backpropagate Examples.flatten0 g) <> [1; 2].
Proof.
  eexists _, _, _. split; [vm_compute; reflexivity|].
  repeat split; [vm_compute; congruence].
Qed.

Lemma C5_flatten_dense_roundtrip_witness :
  exists g dense' st',
    Dense.backpropagate Examples.dense0 Examples.dense_gradient Examples.dense_store
    = (st', Ok (g, dense'))
    /\ Flatten.backpropagate Examples.flatten0 g = mk_ndarray [3; 1; 2] (data g).
Proof.
  eexists _, _, _. split; [vm_compute; reflexivity|].
  eapply (C5_flatten_dense_roundtrip Examples.flatten0 Examples.dense0 _ [1; 2]
            Examples.dense_gradient _ (mk_ndarray [2; 3] [1; 2; 3; 4; 5; 6]%Q)
            Examples.dense_store).
  - reflexivity.
  - reflexivity.
  - vm_compute. discriminate.
  - reflexivity.
  - reflexivity.
  - vm_compute. reflexivity.
Defined.

(** ** The initialisation strategies *)

Section Initializers.
Context `{Scalar R}.
Context {dtype : Type} (astype : dtype -> R -> R).
(** Converting to an element type keeps zero. *)
Hypothesis astype_zero : forall dt, astype dt s_zero = s_zero.

End Initializers.


(** ** The layers without units and their parameter tensors *)

(** C7, as stated, fails: an Input layer for inputs of shape (3,) carries
    three biases, and a Flatten layer has no parameter attribute at all. *)
Lemma C7_counterexample :
  exists input g',
    Input.init (ShapeTuple [3%Z]) "Input" Examples.counting_rng = (g', Ok input)
    /\ size (Input.biases input) = 3
    /\ ~ carries_empty_tensors (L_Input input)
    /\ ~ carries_empty_tensors (L_Flatten (R:=Q) (Flatten.init "Flatten")).
Proof.
  eexists _, _. split; [reflexivity|]. split; [reflexivity|]. split.
  - intros (w & b & _ & Hb & _ & Hsz). injection Hb as <-. discriminate Hsz.
  - intros (w & b & Hw & _). discriminate Hw.
Qed.

Section ParameterTensors.
Context `{Scalar R}.

(** C7 (amended). An Input layer built for a tuple of non-negative
    extents holds an empty weight tensor and a bias tensor of exactly
    that shape, one sample per entry, and its forward pass changes
    neither; Flatten, Reshape, MaxPool1D and MaxPool2D never have a
    [weights] or a [biases] attribute. *)
Theorem C7_parameter_tensors :
  (forall (dims : list Z) (name : string) (g : rng R),
      Forall (fun d => 0 <= d)%Z dims ->
      exists self g',
        Input.init (ShapeTuple dims) name g = (g', Ok self)
        /\ Input.weights self = empty_array
        /\ size (Input.weights self) = 0
        /\ shape (Input.biases self) = Z.to_nat <$> dims
        /\ well_formed (Input.biases self))
  /\ (forall (x : ndarray R) (self self' : Input.t R) (r : result (ndarray R)),
      Input.call x self = (self', r) ->
      Input.weights self' = Input.weights self
      /\ Input.biases self' = Input.biases self)
  /\ (forall l : layer_without_units R,
      (forall i, l <> L_Input i) ->
      weights_attr l = Raise AttributeError "weights"
      /\ biases_attr l = Raise AttributeError "biases").
Proof.
  split; [|split].
  - intros dims name g Hd. eexists _, _. split.
    + unfold Input.init. rewrite (M_bind_eq _ _ _ _ _ (randn_Ok _ g Hd)).
      reflexivity.
    + cbn [Input.weights Input.biases shape]. repeat split.
      unfold well_formed, samples. cbn [data shape].
      by rewrite length_fmap, length_seq.
  - intros x self self' r. unfold Input.call, mbind, M_bind, m_modify, m_get, m_lift.
    destruct (broadcast_op s_add x _) as [y|e msg]; by intros [= <- _].
  - intros [l|l|l|l|l] Hl; try done. by destruct (Hl l).
Qed.
End ParameterTensors.

Lemma C7_parameter_tensors_witness :
  exists input g',
    Input.init (ShapeTuple [2; 3]%Z) "Input" Examples.counting_rng = (g', Ok input)
    /\ size (Input.weights input) = 0
    /\ shape (Input.biases input) = [2; 3]
    /\ weights_attr (L_MaxPool1D (R:=Q) (MaxPool1D.init 2 2 "MaxPool1D"))
       = Raise AttributeError "weights".
Proof.
  destruct (C7_parameter_tensors (R:=Q)) as (Hinit & _ & Hnone).
  destruct (Hinit [2; 3]%Z "Input" Examples.counting_rng)
    as (input & g' & Hrun & _ & Hw & Hb & _).
  { repeat constructor; lia. }
  exists input, g'. split; [exact Hrun|]. split; [exact Hw|]. split; [exact Hb|].
  apply Hnone. intros i Hi. discriminate Hi.
Defined.

(** ** Conv1D: the reported and the produced output length *)

Section Conv1DShape.
Context `{Scalar R}.

(** For an integer predecessor shape the reported length is
    [1 // strides], whatever the predecessor's length and the kernel
    size: [np.array(n).size] is 1. *)
Lemma Conv1D_output_shape_of_int (self : Conv1D.t R) (n : Z) :
  Conv1D.strides self <> 0 ->
  snd (Conv1D.output_shape (ShapeInt n) self)
  = Ok ((1 / Z.of_nat (Conv1D.strides self))%Z,
        Z.of_nat (Conv1D.number_of_filters self)).
Proof.
  intros Hs. unfold Conv1D.output_shape, mbind, M_bind, m_get, m_lift, py_floordiv.
  cbn [pyshape_array_size].
  replace (Z.of_nat (Conv1D.strides self) =? 0)%Z with false
    by (symmetry; apply Z.eqb_neq; lia).
  reflexivity.
Qed.
End Conv1DShape.

(** C8 (the code at a failing input). After [Input(10)], a Conv1D layer
    with kernel size 2 and stride 1 reports the output shape (1, 1); its
    forward pass on a column of ten values produces ten rows, and on a
    plain vector of ten values it raises. *)
Theorem C8_output_shape_disagrees_with_forward :
  snd (Conv1D.output_shape (Input.output_shape Examples.input10) Examples.conv1d0)
  = Ok (1%Z, 1%Z)
  /\ shape <$> snd (Conv1D.call Examples.column10 Examples.conv1d0) = Ok [10; 1]
  /\ snd (Conv1D.call Examples.vector10 Examples.conv1d0)
     = Raise IndexError "too many indices for array".
Proof. repeat split; vm_compute; reflexivity. Qed.

(** ** MaxPool2D: the forward pass *)

Section Loops.
Context {S : Type}.

Lemma for_range_S (n : nat) (body : nat -> S -> result S) (init : S) :
  for_range (Datatypes.S n) body init = for_range n body init ≫= body n.
Proof.
  unfold for_range. rewrite seq_S, foldl_app. cbn [foldl].
  by destruct (foldl _ _ _).
Qed.

Lemma for_range_invariant (P : S -> Prop) (n : nat)
      (body : nat -> S -> result S) (init : S) :
  P init ->
  (forall i a, i < n -> P a -> exists a', body i a = Ok a' /\ P a') ->
  exists a', for_range n body init = Ok a' /\ P a'.
Proof.
  intros Hinit. induction n as [|n IH]; intros Hbody.
  - by exists init.
  - destruct IH as (a & Ha & HP); [intros i a' Hi; apply Hbody; lia|].
    destruct (Hbody n a) as (a' & Ha' & HP'); [lia|done|].
    exists a'. rewrite for_range_S, Ha. done.
Qed.
End Loops.

Section SetGet.
Context `{Inhabited A}.

Lemma setitem_scalar (a : ndarray A) (p : list nat) (v : A) :
  length p <= ndim a -> in_bounds (take (length p) (shape a)) p ->
  setitem a p (scalar_array v)
  = Ok (gather (shape a) (fun idx => if is_prefix p idx then v else item a idx)).
Proof.
  intros Hl Hb. unfold setitem. rewrite decide_True by done.
  cbn [shape scalar_array]. rewrite broadcast_shapes_scalar_r.
  rewrite decide_True by done. done.
Qed.

Lemma setitem_same_shape (a v : ndarray A) (p : list nat) :
  length p <= ndim a -> in_bounds (take (length p) (shape a)) p ->
  shape v = drop (length p) (shape a) ->
  setitem a p v
  = Ok (gather (shape a)
          (fun idx => if is_prefix p idx
                      then item v (bc_index (shape v) (drop (length p) idx))
                      else item a idx)).
Proof.
  intros Hl Hb Hv. unfold setitem. rewrite decide_True by done.
  rewrite Hv, broadcast_shapes_same. rewrite decide_True by done. done.
Qed.

Lemma getitem_Ok (a : ndarray A) (p : list nat) :
  length p <= ndim a -> in_bounds (take (length p) (shape a)) p ->
  getitem a p = Ok (gather (drop (length p) (shape a)) (fun idx => item a (p ++ idx))).
Proof. intros Hl Hb. unfold getitem. by rewrite decide_True. Qed.

Lemma gather_data_nonempty (sh : list nat) (f : list nat -> A) :
  0 < product sh -> data (gather sh f) <> [].
Proof.
  intros Hp Hd. apply (f_equal length) in Hd.
  unfold gather in Hd. cbn in Hd. rewrite length_fmap, length_indices in Hd. lia.
Qed.
End SetGet.

Section MaxPool2DForward.
Context `{Scalar R}.
Import MaxPool2D.

Lemma np_max_Ok (a : ndarray R) :
  data a <> [] -> exists m, np_max a = Ok m.
Proof. unfold np_max. destruct (data a); [done|]. by eexists. Qed.

Lemma out_extent_Ok (n k s : nat) :
  0 < s -> k <= n ->
  out_extent n k s = Ok (Z.of_nat ((n - k) / s + 1)).
Proof.
  intros Hs Hk. unfold out_extent, py_floordiv.
  replace (Z.of_nat s =? 0)%Z with false by (symmetry; apply Z.eqb_neq; lia).
  cbn [mbind result_bind mret result_ret]. f_equal.
  rewrite Nat2Z.inj_add, Nat2Z.inj_div, Nat2Z.inj_sub by done. done.
Qed.

Lemma window_fits (n k s i : nat) :
  0 < s -> k <= n -> i < (n - k) / s + 1 -> i * s + k <= n.
Proof.
  intros Hs Hk Hi.
  assert (i <= (n - k) / s) by lia.
  pose proof (Nat.Div0.mul_div_le (n - k) s). nia.
Qed.

(** One step of the inner loop: the window is not empty, its maximum
    lands at [output[i, j]], and the shape of the output is kept. *)
Lemma pool_step (self : t R) (x output : ndarray R) (n0 n1 : nat)
      (rest : list nat) (i j : nat) :
  let h := (n0 - fst (pool_size self)) / fst (strides self) + 1 in
  let w := (n1 - snd (pool_size self)) / snd (strides self) + 1 in
  shape x = n0 :: n1 :: rest -> 0 < product rest ->
  0 < fst (strides self) -> 0 < snd (strides self) ->
  0 < fst (pool_size self) <= n0 -> 0 < snd (pool_size self) <= n1 ->
  shape output = h :: w :: rest -> i < h -> j < w ->
  exists window m,
    slice2 x (i * fst (strides self)) (i * fst (strides self) + fst (pool_size self))
             (j * snd (strides self)) (j * snd (strides self) + snd (pool_size self))
    = Ok window
    /\ np_max window = Ok m
    /\ (window ← slice2 x (i * fst (strides self))
                   (i * fst (strides self) + fst (pool_size self))
                   (j * snd (strides self))
                   (j * snd (strides self) + snd (pool_size self));
        m ← np_max window;
        setitem output [i; j] (scalar_array m))
       = Ok (gather (h :: w :: rest)
               (fun idx => if is_prefix [i; j] idx then m else item output idx)).
Proof.
  intros h w Hx Hrest Hs0 Hs1 Hp0 Hp1 Hout Hi Hj.
  pose proof (window_fits n0 _ _ i Hs0 (proj2 Hp0) Hi) as Hf0.
  pose proof (window_fits n1 _ _ j Hs1 (proj2 Hp1) Hj) as Hf1.
  unfold slice2. rewrite Hx.
  eexists. 
  match goal with |- context [Ok (gather ?sh ?f)] =>
    destruct (np_max_Ok (gather sh f)) as [m Hm]
  end.
  { apply gather_data_nonempty. unfold product. cbn [foldr].
    fold (product rest).
    rewrite !Nat.min_l by lia.
    replace (i * fst (strides self) + fst (pool_size self) - i * fst (strides self))
      with (fst (pool_size self)) by lia.
    replace (j * snd (strides self) + snd (pool_size self) - j * snd (strides self))
      with (snd (pool_size self)) by lia.
    destruct Hp0, Hp1. nia. }
  exists m. split; [reflexivity|]. split; [exact Hm|].
  cbn [mbind result_bind]. rewrite Hm. cbn [mbind result_bind].
  rewrite setitem_scalar.
  - by rewrite Hout.
  - unfold ndim. rewrite Hout. cbn. lia.
  - rewrite Hout. cbn. repeat constructor; done.
Qed.

Lemma wrap_index_last (n : nat) : 0 < n -> wrap_index n (-1) = Ok (n - 1).
Proof.
  intros Hn. unfold wrap_index.
  rewrite decide_False by lia. rewrite decide_True by lia. f_equal. lia.
Qed.

(** The loops run to their end and keep the shape of the output; the
    entry written last, at the last output position, is the maximum of
    the last window. *)
Lemma pool_loops_Ok (self : t R) (x output : ndarray R) (n0 n1 : nat)
      (rest : list nat) :
  let h := (n0 - fst (pool_size self)) / fst (strides self) + 1 in
  let w := (n1 - snd (pool_size self)) / snd (strides self) + 1 in
  shape x = n0 :: n1 :: rest -> 0 < product rest ->
  0 < fst (strides self) -> 0 < snd (strides self) ->
  0 < fst (pool_size self) <= n0 -> 0 < snd (pool_size self) <= n1 ->
  shape output = h :: w :: rest ->
  exists out window m,
    pool_loops self x h w output = Ok out
    /\ shape out = h :: w :: rest
    /\ slice2 x ((h - 1) * fst (strides self))
                ((h - 1) * fst (strides self) + fst (pool_size self))
                ((w - 1) * snd (strides self))
                ((w - 1) * snd (strides self) + snd (pool_size self))
       = Ok window
    /\ np_max window = Ok m
    /\ forall tl, in_bounds rest tl -> item out ((h - 1) :: (w - 1) :: tl) = m.
Proof.
  intros h w Hx Hrest Hs0 Hs1 Hp0 Hp1 Hout.
  set (P := fun o : ndarray R => shape o = h :: w :: rest).
  set (inner := fun (i j : nat) (output : ndarray R) =>
    window ← slice2 x (i * fst (strides self))
               (i * fst (strides self) + fst (pool_size self))
               (j * snd (strides self))
               (j * snd (strides self) + snd (pool_size self));
    m ← np_max window;
    setitem output [i; j] (scalar_array m)).
  assert (Hinner : forall i j o, i < h -> j < w -> P o ->
            exists o', inner i j o = Ok o' /\ P o').
  { intros i j o Hi Hj Ho.
    destruct (pool_step self x o n0 n1 rest i j Hx Hrest Hs0 Hs1 Hp0 Hp1 Ho Hi Hj)
      as (win & m & _ & _ & Hstep).
    eexists. split; [exact Hstep|done]. }
  assert (Hrow : forall i o k, i < h -> k <= w -> P o ->
            exists o', for_range k (inner i) o = Ok o' /\ P o').
  { intros i o k Hi Hk Ho. apply for_range_invariant; [done|].
    intros j a Hj Ha. apply Hinner; [done|lia|done]. }
  assert (Hh : h = Datatypes.S (h - 1)) by (subst h; lia).
  assert (Hw : w = Datatypes.S (w - 1)) by (subst w; lia).
  set (F := fun (i : nat) (o : ndarray R) => for_range w (inner i) o).
  assert (Hloops : pool_loops self x h w output = for_range h F output)
    by reflexivity.
  destruct (for_range_invariant P (h - 1) F output Hout) as (o1 & Ho1 & HP1).
  { intros i a Hi Ha. apply Hrow; [lia|lia|done]. }
  destruct (Hrow (h - 1) o1 (w - 1)) as (o2 & Ho2 & HP2); [lia|lia|done|].
  destruct (pool_step self x o2 n0 n1 rest (h - 1) (w - 1)
              Hx Hrest Hs0 Hs1 Hp0 Hp1 HP2) as (win & m & Hwin & Hm & Hstep);
    [lia|lia|].
  fold h w in Hstep. fold (inner (h - 1) (w - 1) o2) in Hstep.
  assert (Hlast : for_range h F output
                  = Ok (gather (h :: w :: rest)
                          (fun idx => if is_prefix [h - 1; w - 1] idx
                                      then m else item o2 idx))).
  { rewrite Hh, for_range_S, Ho1. cbn [mbind result_bind].
    unfold F at 1. rewrite Hw, for_range_S. rewrite <- Hw, <- Hh.
    rewrite Ho2. cbn [mbind result_bind]. exact Hstep. }
  eexists _, win, m. rewrite Hloops.
  split; [exact Hlast|]. split; [done|]. split; [exact Hwin|]. split; [exact Hm|].
  intros tl Htl. rewrite item_gather.
  - unfold is_prefix. cbn [length take]. by rewrite bool_decide_true.
  - repeat constructor; [lia|lia|done].
Qed.
End MaxPool2DForward.

Section MaxPool2DLastPosition.
Context `{Scalar R}.
Import MaxPool2D.

Lemma np_zeros_nat (dims : list nat) :
  np_zeros (Z.of_nat <$> dims) = Ok (full dims (s_zero : R)).
Proof.
  unfold np_zeros. rewrite shape_of_ints_pos.
  - cbn [mbind result_bind mret result_ret]. do 2 f_equal.
    rewrite <- list_fmap_compose. rewrite <- (list_fmap_id dims) at 2.
    apply list_fmap_ext. intros _ d _. cbn. lia.
  - apply Forall_fmap, Forall_true. intros d. cbn. lia.
Qed.

Ltac mstep := erewrite M_bind_eq; [|reflexivity].

Ltac lift_by E :=
  erewrite M_bind_eq; [|unfold m_lift; rewrite E; reflexivity].

(** C10. With a positive stride and a window that fits the input, the
    forward pass on a three-axis input returns an output whose last
    spatial position holds, for every channel, the input value at the
    input's last spatial position; on a two-axis input the last output
    position holds the maximum of the last window. *)
Theorem C10_maxpool2d_last_position (self : t R) (x : ndarray R) (n0 n1 : nat) :
  let h := (n0 - fst (pool_size self)) / fst (strides self) + 1 in
  let w := (n1 - snd (pool_size self)) / snd (strides self) + 1 in
  0 < fst (strides self) -> 0 < snd (strides self) ->
  0 < fst (pool_size self) <= n0 -> 0 < snd (pool_size self) <= n1 ->
  (forall c, shape x = [n0; n1; c] -> 0 < c ->
     exists output self',
       call x self = (self', Ok output)
       /\ shape output = [h; w; c]
       /\ forall ch, ch < c ->
            item output [h - 1; w - 1; ch] = item x [n0 - 1; n1 - 1; ch])
  /\ (shape x = [n0; n1] ->
      exists output self' window m,
        call x self = (self', Ok output)
        /\ shape output = [h; w]
        /\ slice2 x ((h - 1) * fst (strides self))
                    ((h - 1) * fst (strides self) + fst (pool_size self))
                    ((w - 1) * snd (strides self))
                    ((w - 1) * snd (strides self) + snd (pool_size self))
           = Ok window
        /\ np_max window = Ok m
        /\ item output [h - 1; w - 1] = m).
Proof.
  intros h w Hs0 Hs1 Hp0 Hp1.
  set (self1 := mk (pool_size self) (strides self) (name self) (Some x) (output self)).
  assert (Hz2 : np_zeros [Z.of_nat h; Z.of_nat w] = Ok (full [h; w] (s_zero : R)))
    by apply (np_zeros_nat [h; w]).
  split.
  - intros c Hx Hc.
    assert (Hz3 : np_zeros [Z.of_nat h; Z.of_nat w; Z.of_nat c]
                  = Ok (full [h; w; c] (s_zero : R)))
      by apply (np_zeros_nat [h; w; c]).
    destruct (pool_loops_Ok self1 x (full [h; w; c] s_zero) n0 n1 [c])
      as (out & win & m & Hloops & Hshape & _); try done.
    { unfold product. cbn. lia. }
    change (pool_loops self1 x h w (full [h; w; c] s_zero) = Ok out) in Hloops.
    change (shape out = [h; w; c]) in Hshape.
    assert (Hcopy : copy_last x out
              = Ok (gather [h; w; c]
                      (fun idx => if is_prefix [h - 1; w - 1] idx
                                  then item x ([n0 - 1; n1 - 1] ++ drop 2 idx)
                                  else item out idx))).
    { unfold copy_last. rewrite Hx, Hshape. cbn [nth].
      rewrite !wrap_index_last by (subst h w; lia). cbn [mbind result_bind].
      rewrite getitem_Ok; [|unfold ndim; rewrite Hx; cbn; lia
                           |rewrite Hx; cbn; repeat constructor; lia].
      cbn [mbind result_bind].
      rewrite setitem_same_shape;
        [|unfold ndim; rewrite Hshape; cbn; lia
         |rewrite Hshape; cbn; repeat constructor; subst h w; lia
         |rewrite Hshape, Hx; reflexivity].
      rewrite Hshape. f_equal. apply gather_ext. intros idx Hidx.
      destruct (is_prefix [h - 1; w - 1] idx) eqn:Epre; [|done].
      cbn [length]. rewrite Hx. cbn [shape gather drop length].
      inversion Hidx as [|i0 ? idx1 ? Hi0 Hidx1]; subst.
      inversion Hidx1 as [|i1 ? idx2 ? Hi1 Hidx2]; subst.
      inversion Hidx2 as [|i2 ? idx3 ? Hi2 Hidx3]; subst.
      inversion Hidx3; subst. cbn [drop].
      rewrite bc_index_same by (repeat constructor; done).
      rewrite item_gather by (repeat constructor; done). done. }
    eexists _, _. split; [|split].
    + unfold call.
      mstep. fold self1. mstep.
      change (pool_size self1) with (pool_size self).
      change (strides self1) with (strides self).
      rewrite Hx. cbn [tuple_index lookup list_lookup List.last length].
      mstep.
      lift_by (out_extent_Ok n0 (fst (pool_size self)) (fst (strides self)) Hs0 (proj2 Hp0)).
      mstep.
      lift_by (out_extent_Ok n1 (snd (pool_size self)) (snd (strides self)) Hs1 (proj2 Hp1)).
      fold h w. lift_by Hz2.
      rewrite decide_True by done.
      lift_by Hz3. rewrite !Nat2Z.id. lift_by Hloops.
      rewrite decide_True by done.
      lift_by Hcopy.
      mstep. reflexivity.
    + reflexivity.
    + intros ch Hch. rewrite item_gather by (repeat constructor; subst h w; lia).
      unfold is_prefix. cbn [length take]. rewrite bool_decide_true by done.
      reflexivity.
  - intros Hx.
    destruct (pool_loops_Ok self1 x (full [h; w] s_zero) n0 n1 [])
      as (out & win & m & Hloops & Hshape & Hwin & Hm & Hlast); try done.
    { unfold product. cbn. lia. }
    change (pool_loops self1 x h w (full [h; w] s_zero) = Ok out) in Hloops.
    change (shape out = [h; w]) in Hshape.
    change (slice2 x ((h - 1) * fst (strides self))
              ((h - 1) * fst (strides self) + fst (pool_size self))
              ((w - 1) * snd (strides self))
              ((w - 1) * snd (strides self) + snd (pool_size self))
            = Ok win) in Hwin.
    change (forall tl, in_bounds [] tl -> item out ((h - 1) :: (w - 1) :: tl) = m)
      in Hlast.
    exists out, (mk (pool_size self) (strides self) (name self) (Some x) (Some out)),
           win, m.
    split; [|split; [done|split; [exact Hwin|split; [exact Hm|]]]].
    + unfold call.
      mstep. fold self1. mstep.
      change (pool_size self1) with (pool_size self).
      change (strides self1) with (strides self).
      rewrite Hx. cbn [tuple_index lookup list_lookup List.last length].
      mstep.
      lift_by (out_extent_Ok n0 (fst (pool_size self)) (fst (strides self)) Hs0 (proj2 Hp0)).
      mstep.
      lift_by (out_extent_Ok n1 (snd (pool_size self)) (snd (strides self)) Hs1 (proj2 Hp1)).
      fold h w. lift_by Hz2.
      rewrite decide_False by done.
      mstep.
      rewrite !Nat2Z.id. lift_by Hloops.
      rewrite decide_False by done.
      mstep.
      mstep. reflexivity.
    + apply Hlast. constructor.
Qed.
End MaxPool2DLastPosition.

(** A 3x3 input with two channels under a 2x2 window moved by 1: the last
    output position holds the input's last values 9 and 1, although the
    last window contains larger ones; on the 4x4 matrix of the docstring
    the last output entry is the maximum 6 of the last window, not the
    input's last value 1. *)
Lemma C10_maxpool2d_last_position_witness :
  (exists output self',
      MaxPool2D.call Examples.image332 (MaxPool2D.init (2, 2) (1, 1) "MaxPool2D")
      = (self', Ok output)
      /\ item (H:=scalar_inhabited) output [1; 1; 0] = 9%Z /\ item (H:=scalar_inhabited) output [1; 1; 1] = 1%Z)
  /\ (exists output self',
        MaxPool2D.call Examples.matrix44 (MaxPool2D.init (2, 2) (2, 2) "MaxPool2D")
        = (self', Ok output)
        /\ item (H:=scalar_inhabited) output [1; 1] = 6%Z
        /\ item (H:=scalar_inhabited) Examples.matrix44 [3; 3] = 1%Z).
Proof.
  split.
  - destruct (C10_maxpool2d_last_position
                (MaxPool2D.init (2, 2) (1, 1) "MaxPool2D") Examples.image332 3 3)
      as [H3 _]; cbn; try lia.
    destruct (H3 2) as (output & self' & Hcall & _ & Hlast); [reflexivity|lia|].
    exists output, self'. split; [exact Hcall|].
    assert (E0 := Hlast 0 ltac:(lia)). assert (E1 := Hlast 1 ltac:(lia)).
    change (item (H:=scalar_inhabited) output [1; 1; 0] = item (H:=scalar_inhabited) Examples.image332 [2; 2; 0]) in E0.
    change (item (H:=scalar_inhabited) output [1; 1; 1] = item (H:=scalar_inhabited) Examples.image332 [2; 2; 1]) in E1.
    rewrite E0, E1. split; reflexivity.
  - destruct (C10_maxpool2d_last_position
                (MaxPool2D.init (2, 2) (2, 2) "MaxPool2D") Examples.matrix44 4 4)
      as [_ H2]; cbn; try lia.
    destruct H2 as (output & self' & win & m & Hcall & _ & Hwin & Hm & Hlast);
      [reflexivity|].
    exists output, self'. split; [exact Hcall|]. split; [|reflexivity].
    cbn in Hlast. rewrite Hlast. vm_compute in Hwin. injection Hwin as <-.
    vm_compute in Hm. by injection Hm.
Defined.

(** Outside these conditions the forward pass does not return: under a 2x2
    window a single pixel leaves an empty output, and the assignment to its
    last position raises. *)
Lemma MaxPool2D_call_window_too_large :
  snd (MaxPool2D.call Examples.image111 (MaxPool2D.init (2, 2) (2, 2) "MaxPool2D"))
  = Raise IndexError "index out of bounds".
Proof. vm_compute. reflexivity. Qed.

(** ** Conv2D: the lowering against the nested loops *)

(** C1 (the code at a failing input). For two filters over a 1x2 kernel the
    column matrix of the input (10, 1) is the column (10, 1); the filter
    bank [[1, 2], [3, 4]] of layout [kh, kw, channels, filters], reshaped
    to [filters, kh*kw*channels] without moving the filter axis first, has
    the rows (1, 2) and (3, 4), which are not the two filters (1, 3) and
    (2, 4).  The forward pass returns (12, 34); the nested loops over the
    same weights give (13, 24). *)
Theorem C1_im2col_differs_from_direct :
  Conv2D.im2col Examples.conv2d0 Examples.image121
  = Ok (mk_ndarray [2; 1] [10; 1]%Z)
  /\ snd (Conv2D.call Examples.image121 Examples.conv2d0)
     = Ok (mk_ndarray [1; 1; 2] [12; 34]%Z)
  /\ Conv2D.direct_convolution Examples.conv2d0 Examples.image121
     = Ok (mk_ndarray [1; 1; 2] [13; 24]%Z).
Proof. repeat split; vm_compute; reflexivity. Qed.

(** * Further properties *)

(** ** Reshaping keeps the entries and yields a well-formed array *)

Section ReshapeWellFormed.
Context {A : Type}.

Lemma product_cons (n : nat) (sh : list nat) : product (n :: sh) = n * product sh.
Proof. done. Qed.

Lemma product_inferred (q : nat) (target : list Z) :
  forallb (Z.leb (-1)) target = true ->
  Z.of_nat (product (inferred_dim q <$> target))
  = (Z.of_nat q ^ Z.of_nat (count_minus_one target) * known_product target)%Z.
Proof.
  unfold count_minus_one, known_product.
  induction target as [|d target IH]; intros Hall; [done|].
  cbn [forallb] in Hall. apply andb_true_iff in Hall as [Hd Hall].
  apply Z.leb_le in Hd. specialize (IH Hall).
  cbn [fmap list_fmap]. rewrite product_cons, Nat2Z.inj_mul.
  fold (@fmap list _ _ _ (inferred_dim q) target). rewrite IH.
  unfold inferred_dim at 1. destruct (decide (d = (-1)%Z)) as [->|Hne].
  - rewrite filter_cons_True by done. rewrite filter_cons_False by (cbn; lia).
    cbn [length]. rewrite Nat2Z.inj_succ, Z.pow_succ_r by lia. lia.
  - rewrite filter_cons_False by done. rewrite filter_cons_True by done.
    cbn [foldr]. rewrite Z2Nat.id by lia. lia.
Qed.

Lemma inferred_dim_no_unknown (q : nat) (target : list Z) :
  count_minus_one target = 0 -> inferred_dim q <$> target = Z.to_nat <$> target.
Proof.
  unfold count_minus_one. induction target as [|d target IH]; [done|].
  intros Hc. cbn [fmap list_fmap]. unfold inferred_dim at 1.
  destruct (decide (d = (-1)%Z)) as [->|Hne].
  - rewrite filter_cons_True in Hc by done. done.
  - rewrite filter_cons_False in Hc by done. f_equal. by apply IH.
Qed.

Lemma reshape_target_product (n : nat) (target : list Z) (sh : list nat) :
  reshape_target n target = Ok sh -> product sh = n.
Proof.
  unfold reshape_target.
  destruct (forallb (Z.leb (-1)) target) eqn:Hall; cbn [negb]; [|done].
  destruct (count_minus_one target) as [|[|c]] eqn:Hc; [| |done].
  - destruct (decide _) as [Hk|]; [|done]. intros [= <-].
    rewrite <- (inferred_dim_no_unknown 0) by done.
    apply Nat2Z.inj. rewrite product_inferred by done.
    rewrite Hc, Z.pow_0_r. lia.
  - destruct (decide _) as [[Hk Hmod]|]; [|done]. intros [= <-].
    change (fun d => if decide (d = (-1)%Z)
                     then Z.to_nat (Z.of_nat n / known_product target)
                     else Z.to_nat d)
      with (inferred_dim (Z.to_nat (Z.of_nat n / known_product target))).
    apply Nat2Z.inj. rewrite product_inferred by done. rewrite Hc.
    assert (Hpos : (0 <= known_product target)%Z).
    { pose proof (product_inferred 1 target Hall) as Hp. rewrite Hc in Hp.
      change (Z.of_nat 1 ^ Z.of_nat 1)%Z with 1%Z in Hp. lia. }
    change (Z.of_nat 1) with 1%Z.
    rewrite Z.pow_1_r, Z2Nat.id by (apply Z.div_pos; lia).
    apply Z.mod_divide in Hmod; [|done]. destruct Hmod as [c ->].
    rewrite Z.div_mul by done. lia.
Qed.

Lemma np_reshape_keeps_entries (a b : ndarray A) (target : list Z) :
  np_reshape a target = Ok b -> well_formed a ->
  data b = data a /\ well_formed b /\ size b = size a.
Proof.
  unfold np_reshape. intros Hr Hwf.
  apply result_bind_Ok_inv in Hr as (sh & Hsh & Hb). injection Hb as <-.
  apply reshape_target_product in Hsh.
  unfold well_formed, size in *. cbn [shape data]. rewrite Hsh. done.
Qed.

(** X1. Whatever a Flatten or Reshape layer has recorded, its backward
    pass hands back the entries of the gradient unchanged and in the same
    order, in a well-formed array of the same size: it either reshapes or
    returns the gradient itself. *)
Theorem X1_backward_keeps_entries (gradient : ndarray A) :
  well_formed gradient ->
  (forall self : Flatten.t,
      data (Flatten.backpropagate self gradient) = data gradient
      /\ well_formed (Flatten.backpropagate self gradient)
      /\ size (Flatten.backpropagate self gradient) = size gradient)
  /\ (forall self : Reshape.t,
      data (Reshape.backpropagate self gradient) = data gradient
      /\ well_formed (Reshape.backpropagate self gradient)
      /\ size (Reshape.backpropagate self gradient) = size gradient).
Proof.
  intros Hwf.
  assert (Hboth : forall next original,
    let r := try_except
               (args ← Flatten.reshape_args next original;
                np_reshape gradient args) gradient in
    data r = data gradient /\ well_formed r /\ size r = size gradient).
  { intros next original.
    destruct (Flatten.reshape_args next original) as [args|e msg]; [|done].
    cbn [mbind result_bind].
    destruct (np_reshape gradient args) as [b|e msg] eqn:Hr; [|done].
    cbn [try_except]. by eapply np_reshape_keeps_entries. }
  split; intros self; apply Hboth.
Qed.
End ReshapeWellFormed.

Lemma X1_backward_keeps_entries_witness :
  data (Flatten.backpropagate Examples.flatten0 Examples.column10)
  = data Examples.column10
  /\ data (Reshape.backpropagate
             (Reshape.mk [5; 2]%Z "Reshape" (Some (ShapeInt 2)) (Some [5]))
             Examples.column10)
     = data Examples.column10.
Proof.
  destruct (X1_backward_keeps_entries Examples.column10) as [HF HR];
    [reflexivity|].
  split; [apply HF|apply HR].
Defined.

(** ** Flatten and Reshape: the forward pass *)

Section FlattenForward.
Context {A : Type}.

Lemma reshape_target_nat (n : nat) (dims : list nat) :
  reshape_target n (Z.of_nat <$> dims)
  = if decide (product dims = n) then Ok dims
    else Raise ValueError "cannot reshape array".
Proof.
  destruct (nonneg_dims dims) as (H1 & H2 & H3 & H4 & H5).
  unfold reshape_target, count_minus_one, known_product.
  rewrite H1, H2, H3, H4, H5. cbn [negb length].
  destruct (decide (product dims = n)) as [<-|Hne].
  - by rewrite decide_True.
  - rewrite decide_False; [done|]. intros Heq. by apply Nat2Z.inj in Heq.
Qed.

Lemma product_to_nat (dims : list Z) :
  Forall (fun d => 0 <= d)%Z dims ->
  product (Z.to_nat <$> dims) = Z.to_nat (foldr Z.mul 1%Z dims)
  /\ (0 <= foldr Z.mul 1%Z dims)%Z.
Proof.
  induction 1 as [|d dims Hd _ [IH1 IH2]]; [done|].
  cbn [fmap list_fmap foldr]. rewrite product_cons.
  fold (@fmap list _ _ _ Z.to_nat dims). rewrite IH1.
  split; [|lia]. rewrite Z2Nat.inj_mul by done. done.
Qed.

(** X2. For a predecessor shape of non-negative extents that, like
    their product, fit a 64-bit integer, [Flatten.output_shape] reports
    their product and records it together with the next layer's shape;
    the forward pass on an input of that shape then records the input
    shape and returns the entries unchanged as a vector of exactly the
    reported length. *)
Theorem X2_flatten_forward_length
    (self : Flatten.t) (dims : list Z) (next : pyshape) (x : ndarray A) :
  Forall (fun d => 0 <= d < int64_bound)%Z dims ->
  (foldr Z.mul 1 dims < int64_bound)%Z ->
  shape x = Z.to_nat <$> dims ->
  let v := foldr Z.mul 1%Z dims in
  let self1 := Flatten.mk (Flatten.name self) (Some v) (Some next)
                          (Flatten.original_shape self) in
  Flatten.output_shape (ShapeTuple dims) next self = (self1, Ok v)
  /\ Flatten.call x self1
     = (Flatten.mk (Flatten.name self) (Some v) (Some next) (Some (shape x)),
        Ok (mk_ndarray [Z.to_nat v] (data x))).
Proof.
  intros Hd64 Hprod Hx v self1.
  assert (Hd : Forall (fun d => 0 <= d)%Z dims)
    by (eapply Forall_impl; [exact Hd64|]; intros d Hdd; cbn in Hdd; lia).
  split; [reflexivity|].
  unfold Flatten.call, mbind, M_bind, m_modify, mret, M_ret, np_ravel, size.
  cbn. rewrite Hx. destruct (product_to_nat dims Hd) as [-> _]. done.
Qed.
End FlattenForward.

Lemma X2_flatten_forward_length_witness :
  snd (Flatten.call Examples.image332 (Flatten.init "Flatten"))
  = Ok (mk_ndarray [18] (data Examples.image332)).
Proof.
  destruct (X2_flatten_forward_length (Flatten.init "Flatten") [3; 3; 2]%Z
              (ShapeInt 4) Examples.image332) as [_ Hcall].
  - repeat constructor; cbn; unfold int64_bound; lia.
  - reflexivity.
  - reflexivity.
  - reflexivity.
Defined.

Section ReshapeForward.
Context {A : Type}.

(** X3. [Reshape.__call__] records the shape of its input before it
    reshapes.  When the target extents multiply to the number of entries,
    it returns the entries unchanged under the target shape, and
    reshaping that result to the recorded shape gives the input back;
    when they do not, it raises a [ValueError], the input shape having
    been recorded all the same. *)
Theorem X3_reshape_forward (self : Reshape.t) (dims : list nat) (x : ndarray A) :
  Reshape.target_shape self = Z.of_nat <$> dims ->
  well_formed x ->
  let self1 := Reshape.mk (Reshape.target_shape self) (Reshape.name self)
                          (Reshape.next_layer_shape self) (Some (shape x)) in
  (product dims = size x ->
     Reshape.call x self = (self1, Ok (mk_ndarray dims (data x)))
     /\ np_reshape (mk_ndarray dims (data x)) (Z.of_nat <$> shape x) = Ok x)
  /\ (product dims <> size x ->
      Reshape.call x self = (self1, Raise ValueError "cannot reshape array")).
Proof.
  intros Ht Hwf self1.
  assert (Hcall : Reshape.call x self
                  = (self1, np_reshape x (Reshape.target_shape self)))
    by reflexivity.
  rewrite Hcall, Ht. unfold np_reshape. rewrite reshape_target_nat.
  split; intros Hp.
  - rewrite decide_True by done. split; [done|].
    unfold size. cbn [shape data]. rewrite reshape_target_nat.
    rewrite decide_True by (by rewrite Hp). by destruct x.
  - by rewrite decide_False.
Qed.
End ReshapeForward.

Lemma X3_reshape_forward_witness :
  snd (Reshape.call Examples.column10 (Reshape.init [2; 5]%Z "Reshape"))
  = Ok (mk_ndarray [2; 5] (data Examples.column10))
  /\ snd (Reshape.call Examples.column10 (Reshape.init [3; 5]%Z "Reshape"))
     = Raise ValueError "cannot reshape array".
Proof.
  destruct (X3_reshape_forward (Reshape.init [2; 5]%Z "Reshape") [2; 5]
              Examples.column10) as [Hok _]; [reflexivity|reflexivity|].
  destruct (X3_reshape_forward (Reshape.init [3; 5]%Z "Reshape") [3; 5]
              Examples.column10) as [_ Hbad]; [reflexivity|reflexivity|].
  destruct Hok as [Hok _]; [reflexivity|].
  rewrite Hok, Hbad; [done|]. vm_compute. lia.
Defined.

(** ** AdaMax: what a call changes, whether it returns or raises *)

Section AdaMaxFootprint.
Context `{Scalar R}.
Import AdaMax.
Variables weights biases : loc.

Local Abbreviation I := (adamax_footprint weights biases).

Lemma footprint_refl (st : St (R:=R)) : I st st.
Proof. by repeat split. Qed.

Lemma footprint_trans (st1 st2 st3 : St (R:=R)) : I st1 st2 -> I st2 st3 -> I st1 st3.
Proof.
  intros [(A1 & A2 & A3 & A4 & A5 & A6) Ah] [(B1 & B2 & B3 & B4 & B5 & B6) Bh].
  split; [repeat split; congruence|].
  intros l H1 H2. rewrite Bh, Ah by done. done.
Qed.

Lemma relates_bind {A B} (m : M (St (R:=R)) A) (f : A -> M (St (R:=R)) B) :
  m_relates I m -> (forall a, m_relates I (f a)) -> m_relates I (m ≫= f).
Proof.
  intros Hm Hf st st' r. unfold mbind, M_bind.
  destruct (m st) as [s1 [a|e msg]] eqn:E.
  - intros E'. eapply footprint_trans; [by eapply Hm|by eapply Hf].
  - intros [= <- <-]. by eapply Hm.
Qed.

Lemma relates_self : m_relates I self.
Proof. intros st st' r [= <- <-]. apply footprint_refl. Qed.
Lemma relates_lift {A} (r : result A) : m_relates I (m_lift r).
Proof. intros st st' r' [= <- <-]. apply footprint_refl. Qed.
Lemma relates_ret {A} (a : A) : m_relates I (mret a).
Proof. intros st st' r' [= <- <-]. apply footprint_refl. Qed.
Lemma relates_deref (l : loc) : m_relates I (deref l).
Proof.
  intros st st' r. unfold deref.
  destruct (snd st !! l); intros [= <- <-]; apply footprint_refl.
Qed.
Lemma relates_assign (f : state R -> state R) :
  (forall s, same_settings s (f s)) -> m_relates I (assign f).
Proof. intros Hf st st' r [= <- <-]. split; [apply Hf|done]. Qed.
Lemma relates_store_weights (a : ndarray R) : m_relates I (store weights a).
Proof.
  intros st st' r [= <- <-]. split; [by repeat split|].
  intros l H1 H2. cbn [snd]. by rewrite lookup_insert_ne.
Qed.
Lemma relates_store_biases (a : ndarray R) : m_relates I (store biases a).
Proof.
  intros st st' r [= <- <-]. split; [by repeat split|].
  intros l H1 H2. cbn [snd]. by rewrite lookup_insert_ne.
Qed.

Ltac relates :=
  repeat first
    [ apply relates_bind; [|intros ?]
    | apply relates_self | apply relates_lift | apply relates_ret
    | apply relates_deref | apply relates_store_weights
    | apply relates_store_biases
    | apply relates_assign; intros ?; by repeat split
    | match goal with |- m_relates _ (if ?c then _ else _) => destruct c end ].

Lemma relates_adjust_shapes : m_relates I (adjust_shapes weights biases).
Proof. unfold adjust_shapes. relates. Qed.

Lemma apply_gradients_footprint (wg bg : ndarray R) (s : state R) (h : heap R)
      (st' : St (R:=R)) (r : result (loc * loc)) :
  apply_gradients wg bg weights biases (s, h) = (st', r) ->
  I (set_t (t s + 1) s, h) st'.
Proof.
  unfold apply_gradients.
  rewrite (M_bind_eq self _ (s, h) _ _ eq_refl).
  rewrite (M_bind_eq (assign _) _ (s, h) _ tt eq_refl).
  cbn [fst snd].
  revert st' r.
  match goal with
  | |- forall st' r, ?m ?st = (st', r) -> _ =>
      assert (Hm : m_relates I m); [|intros st' r Hrun; exact (Hm _ _ _ Hrun)]
  end.
  apply relates_bind; [apply relates_self|]. intros s0. cbv zeta.
  apply relates_bind; [apply relates_adjust_shapes|]. intros _.
  relates.
Qed.

(** X4. Whether a call of [apply_gradients] returns or raises, it advances
    the step counter by exactly one and leaves the learning rate, both
    decay rates, epsilon and the bias-adjustment flag as they were. *)
Theorem X4_settings_and_counter (wg bg : ndarray R) (s s' : state R)
        (h h' : heap R) (r : result (loc * loc)) :
  apply_gradients wg bg weights biases (s, h) = ((s', h'), r) ->
  t s' = t s + 1
  /\ learning_rate s' = learning_rate s /\ beta1 s' = beta1 s
  /\ beta2 s' = beta2 s /\ e s' = e s
  /\ adjust_biases_shape s' = adjust_biases_shape s.
Proof.
  intros Hrun. apply apply_gradients_footprint in Hrun
    as [(H1 & H2 & H3 & H4 & H5 & H6) _].
  cbn in *. done.
Qed.

(** X5. Whether a call of [apply_gradients] returns or raises, it writes
    to no array of the store other than the two parameter arrays it was
    given. *)
Theorem X5_only_parameters_written (wg bg : ndarray R) (s s' : state R)
        (h h' : heap R) (r : result (loc * loc)) (l : loc) :
  apply_gradients wg bg weights biases (s, h) = ((s', h'), r) ->
  l <> weights -> l <> biases -> h' !! l = h !! l.
Proof.
  intros Hrun. apply apply_gradients_footprint in Hrun as [_ Hh].
  apply Hh.
Qed.
End AdaMaxFootprint.

(** A call that raises on grown biases has still advanced the counter. *)
Lemma X4_settings_and_counter_witness :
  snd (AdaMax.apply_gradients Examples.weight_gradients1 Examples.bias_gradients1
         0 1 (Examples.optimizer1, Examples.heap1))
  = Raise ValueError "operands could not be broadcast together"
  /\ AdaMax.t Examples.optimizer1 = 1
  /\ AdaMax.t (fst (fst (AdaMax.apply_gradients Examples.weight_gradients1
                           Examples.bias_gradients1 0 1
                           (Examples.optimizer1, Examples.heap1)))) = 2.
Proof.
  split; [vm_compute; reflexivity|]. split; [reflexivity|].
  destruct (AdaMax.apply_gradients Examples.weight_gradients1
              Examples.bias_gradients1 0 1 (Examples.optimizer1, Examples.heap1))
    as [[s' h'] r] eqn:Hrun.
  apply (X4_settings_and_counter 0 1) in Hrun as [Ht _]. exact Ht.
Defined.

Lemma X5_only_parameters_written_witness :
  snd (fst (AdaMax.apply_gradients Examples.weight_gradients0
              Examples.bias_gradients0 0 1
              (Examples.optimizer0, <[2 := Examples.weights1]> Examples.heap0)))
    !! 2 = Some Examples.weights1.
Proof.
  destruct (AdaMax.apply_gradients Examples.weight_gradients0
              Examples.bias_gradients0 0 1
              (Examples.optimizer0, <[2 := Examples.weights1]> Examples.heap0))
    as [[s' h'] r] eqn:Hrun.
  cbn [fst snd].
  transitivity ((<[2 := Examples.weights1]> Examples.heap0) !! 2); [|reflexivity].
  eapply (X5_only_parameters_written 0 1); [exact Hrun|lia|lia].
Defined.

Section AdaMaxShapes2.
Context `{Scalar R}.
Import AdaMax.

Lemma inplace_op_well_formed {A B} `{Inhabited A} `{Inhabited B}
      (f : A -> B -> A) (a : ndarray A) (b : ndarray B) (c : ndarray A) :
  inplace_op f a b = Ok c -> well_formed c.
Proof.
  unfold inplace_op. destruct (broadcast_shapes _ _) as [sh|]; [|done].
  destruct (decide (sh = shape a)) as [->|]; [|done]. intros [= <-].
  apply gather_well_formed.
Qed.

Lemma apply_gradients_Ok_arrays (wg bg w b : ndarray R) (weights biases : loc)
        (s s' : state R) (h h' : heap R) (r : loc * loc) :
  apply_gradients wg bg weights biases (s, h) = ((s', h'), Ok r) ->
  h !! weights = Some w -> h !! biases = Some b ->
  r = (weights, biases)
  /\ exists w' b',
      h' !! weights = Some w' /\ h' !! biases = Some b'
      /\ shape w' = shape w /\ shape b' = shape b
      /\ well_formed w' /\ well_formed b'.
Proof.
  unfold apply_gradients. intros Hrun Hw Hb.
  repeat match type of Hrun with
  | (mbind _ (deref _)) _ = _ => fail 1
  | (mbind _ ?m) ?s = _ =>
      let s1 := fresh "s" in let a := fresh "a" in let Hm := fresh "Hm" in
      apply M_bind_Ok_inv in Hrun as (s1 & a & Hm & Hrun);
      first
        [ apply inv_self in Hm as [-> ->]
        | apply inv_assign in Hm as ->
        | apply inv_lift in Hm as [-> Hm]
        | apply keeps_heap_adjust_shapes in Hm;
          destruct s1 as [? ?]; cbn [fst snd] in Hm; subst ]
  end.
  cbn [fst snd] in *.
  apply M_bind_Ok_inv in Hrun as (s1 & w0 & Hq1 & Hrun).
  apply inv_deref in Hq1 as [-> Hw0]. cbn [snd] in Hw0.
  rewrite Hw in Hw0. injection Hw0 as <-.
  apply M_bind_Ok_inv in Hrun as (s1 & w1 & Hq2 & Hrun).
  apply inv_lift in Hq2 as [-> Hw1].
  apply result_bind_Ok_inv in Hw1 as (d & _ & Hw1).
  pose proof (inplace_op_well_formed _ _ _ _ Hw1) as Wfw1.
  apply inplace_op_shape in Hw1.
  apply M_bind_Ok_inv in Hrun as (s1 & u & Hq3 & Hrun).
  apply inv_store in Hq3 as ->. cbn [fst snd] in Hrun.
  apply M_bind_Ok_inv in Hrun as (s1 & b0 & Hq4 & Hrun).
  apply inv_deref in Hq4 as [-> Hb0]. cbn [snd] in Hb0.
  apply M_bind_Ok_inv in Hrun as (s1 & b1 & Hq5 & Hrun).
  apply inv_lift in Hq5 as [-> Hb1].
  apply result_bind_Ok_inv in Hb1 as (d' & _ & Hb1).
  pose proof (inplace_op_well_formed _ _ _ _ Hb1) as Wfb1.
  apply inplace_op_shape in Hb1.
  apply M_bind_Ok_inv in Hrun as (s1 & u' & Hq6 & Hrun).
  apply inv_store in Hq6 as ->. cbn [fst snd] in Hrun.
  injection Hrun as <- <- <-. split; [done|].
  destruct (decide (biases = weights)) as [->|Hne].
  - exists b1, b1. rewrite lookup_insert_eq.
    rewrite lookup_insert_eq in Hb0. injection Hb0 as <-.
    rewrite Hw in Hb. injection Hb as <-.
    repeat split; try done; congruence.
  - exists w1, b1. rewrite lookup_insert_ne by done.
    rewrite !lookup_insert_eq.
    rewrite lookup_insert_ne in Hb0 by done. rewrite Hb in Hb0.
    injection Hb0 as <-. done.
Qed.

(** X6. A call of [apply_gradients] that returns has replaced each of the
    two parameter arrays by a well-formed array of the same shape, and
    hands back the two objects it was given. *)
Theorem X6_update_keeps_shapes (wg bg w b : ndarray R) (weights biases : loc)
        (s s' : state R) (h h' : heap R) (r : loc * loc) :
  apply_gradients wg bg weights biases (s, h) = ((s', h'), Ok r) ->
  h !! weights = Some w -> h !! biases = Some b ->
  r = (weights, biases)
  /\ exists w' b',
      h' !! weights = Some w' /\ h' !! biases = Some b'
      /\ shape w' = shape w /\ shape b' = shape b
      /\ well_formed w' /\ well_formed b'.
Proof. apply apply_gradients_Ok_arrays. Qed.
End AdaMaxShapes2.

Lemma X6_update_keeps_shapes_witness :
  exists w' b',
    snd (fst (AdaMax.apply_gradients Examples.weight_gradients0
                Examples.bias_gradients0 0 1 (Examples.optimizer0, Examples.heap0)))
      !! 0 = Some w'
    /\ snd (fst (AdaMax.apply_gradients Examples.weight_gradients0
                   Examples.bias_gradients0 0 1 (Examples.optimizer0, Examples.heap0)))
         !! 1 = Some b'
    /\ shape w' = [1; 2] /\ shape b' = [2].
Proof.
  destruct (AdaMax.apply_gradients Examples.weight_gradients0
              Examples.bias_gradients0 0 1 (Examples.optimizer0, Examples.heap0))
    as [[s' h'] [r|e msg]] eqn:Hrun; [|vm_compute in Hrun; discriminate Hrun].
  destruct (X6_update_keeps_shapes _ _ Examples.weights0 Examples.biases0
              _ _ _ _ _ _ _ Hrun eq_refl eq_refl)
    as (_ & w' & b' & Hw' & Hb' & Hsw & Hsb & _).
  exists w', b'. cbn [fst snd].
  split; [exact Hw'|]. split; [exact Hb'|]. split; [exact Hsw|exact Hsb].
Defined.

Section AdaMaxFirstCall.
Context `{Scalar R}.
Import AdaMax.


End AdaMaxFirstCall.


(** ** AdaMax: the shape adjustment and the update of every returning call *)

Section AdaMaxReturning.
Context `{Scalar R}.
Import AdaMax.
Local Abbreviation St := (AdaMax.St (R:=R)).

Ltac simpl_fields :=
  cbn [fst snd m_w u_w m_b u_b t learning_rate beta1 beta2 e
       adjust_biases_shape set_m_w set_u_w set_m_b set_u_b set_t].

Lemma resize_step_inv (m x : ndarray R) (ts : list nat) :
  (f ← _fill_array m ts; slice_prefix f ts) = Ok x ->
  length ts = ndim m /\ x = resized ts m.
Proof.
  intros Hq. destruct (decide (length ts = ndim m)) as [Hl|Hl].
  - rewrite (resize_step m ts Hl) in Hq. by injection Hq as <-.
  - unfold _fill_array in Hq. by rewrite decide_False in Hq.
Qed.

Lemma slice_prefix_well_formed (f x : ndarray R) (stops : list nat) :
  slice_prefix f stops = Ok x -> well_formed x.
Proof.
  unfold slice_prefix. destruct (decide _); [|done].
  intros [= <-]. apply gather_well_formed.
Qed.

Lemma allocated_well_formed (s : state R) (w b : ndarray R) :
  well_formed (m_b s) -> well_formed (u_b s) ->
  well_formed (m_b (allocated s w b)) /\ well_formed (u_b (allocated s w b)).
Proof.
  intros Hm Hu. unfold allocated. destruct (decide _); [|done].
  simpl_fields. split; apply well_formed_full.
Qed.

(** What the shape adjustment has done when it returns. *)
Lemma adjust_shapes_inv (s sa : state R) (h h' : heap R) (wl bl : loc) (u : unit) :
  adjust_shapes wl bl (s, h) = ((sa, h'), Ok u) ->
  h' = h
  /\ exists w b,
       h !! wl = Some w /\ h !! bl = Some b
       /\ ndim (m_w (allocated s w b)) = ndim w
       /\ ndim (u_w (allocated s w b)) = ndim w
       /\ m_w sa = resized (shape w) (m_w (allocated s w b))
       /\ u_w sa = resized (shape w) (u_w (allocated s w b))
       /\ (adjust_biases_shape s = false ->
           m_b sa = m_b (allocated s w b) /\ u_b sa = u_b (allocated s w b))
       /\ (adjust_biases_shape s = true ->
           well_formed (m_b sa) /\ well_formed (u_b sa)).
Proof.
  intros Hrun.
  pose proof (keeps_heap_adjust_shapes wl bl _ _ _ Hrun) as Hh.
  cbn [snd] in Hh. subst h'. split; [done|].
  unfold adjust_shapes in Hrun.
  apply M_bind_Ok_inv in Hrun as (s1 & w & Hq & Hrun).
  apply inv_deref in Hq as [-> Hw]. cbn [snd] in Hw.
  apply M_bind_Ok_inv in Hrun as (s1 & b & Hq & Hrun).
  apply inv_deref in Hq as [-> Hb]. cbn [snd] in Hb.
  apply M_bind_Ok_inv in Hrun as (s1 & s0 & Hq & Hrun).
  apply inv_self in Hq as [-> ->]. cbn [fst] in Hrun.
  apply M_bind_Ok_inv in Hrun as (s1 & u0 & Hq & Hrun).
  set (a := allocated s w b).
  assert (Hs1 : s1 = (a, h)).
  { subst a. unfold allocated.
    destruct (decide (size (m_w s) = 0)); by injection Hq as <-. }
  subst s1. clear Hq.
  assert (Hflag : adjust_biases_shape a = adjust_biases_shape s).
  { subst a. unfold allocated. by destruct (decide _). }
  apply M_bind_Ok_inv in Hrun as (s1 & s0 & Hq & Hrun).
  apply inv_self in Hq as [-> ->]. cbn [fst] in Hrun.
  apply M_bind_Ok_inv in Hrun as (s1 & mw & Hq & Hrun).
  apply inv_lift in Hq as [-> Hmw].
  apply resize_step_inv in Hmw as [Hrw ->].
  apply M_bind_Ok_inv in Hrun as (s1 & u1 & Hq & Hrun).
  apply inv_assign in Hq as ->. cbn [fst snd] in Hrun.
  apply M_bind_Ok_inv in Hrun as (s1 & s0 & Hq & Hrun).
  apply inv_self in Hq as [-> ->]. cbn [fst] in Hrun. simpl_fields.
  apply M_bind_Ok_inv in Hrun as (s1 & uw & Hq & Hrun).
  apply inv_lift in Hq as [-> Huw]. simpl_fields.
  cbn [u_w set_m_w] in Huw.
  apply resize_step_inv in Huw as [Hru ->].
  apply M_bind_Ok_inv in Hrun as (s1 & u2 & Hq & Hrun).
  apply inv_assign in Hq as ->. cbn [fst snd] in Hrun.
  cbn [adjust_biases_shape set_m_w] in Hrun. rewrite Hflag in Hrun.
  exists w, b. split; [done|]. split; [done|].
  split; [symmetry; exact Hrw|]. split; [symmetry; exact Hru|].
  destruct (adjust_biases_shape s) eqn:Ef.
  - apply M_bind_Ok_inv in Hrun as (s1 & s0 & Hq & Hrun).
    apply inv_self in Hq as [-> ->]. cbn [fst] in Hrun.
    apply M_bind_Ok_inv in Hrun as (s1 & mb & Hq & Hrun).
    apply inv_lift in Hq as [-> Hmb].
    apply M_bind_Ok_inv in Hrun as (s1 & u3 & Hq & Hrun).
    apply inv_assign in Hq as ->. cbn [fst snd] in Hrun.
    apply M_bind_Ok_inv in Hrun as (s1 & s0 & Hq & Hrun).
    apply inv_self in Hq as [-> ->]. cbn [fst] in Hrun.
    apply M_bind_Ok_inv in Hrun as (s1 & ub & Hq & Hrun).
    apply inv_lift in Hq as [-> Hub].
    apply inv_assign in Hrun as Hsa. injection Hsa as ->.
    simpl_fields.
    apply result_bind_Ok_inv in Hmb as (f1 & _ & Hmb).
    apply result_bind_Ok_inv in Hub as (f2 & _ & Hub).
    destruct (shape b) as [|n rest]; [done|].
    apply slice_prefix_well_formed in Hmb, Hub.
    repeat split; try done.
  - injection Hrun as <-. simpl_fields.
    repeat split; try done.
Qed.
End AdaMaxReturning.

Section AdaMaxElementwise.
Context `{Scalar R}.
Import AdaMax.

Lemma broadcast_op_inv (f : R -> R -> R) (a b r : ndarray R) :
  broadcast_op f a b = Ok r ->
  broadcast_shapes (shape a) (shape b) = Some (shape r)
  /\ r = gather (shape r)
           (fun idx => f (item a (bc_index (shape a) idx))
                         (item b (bc_index (shape b) idx))).
Proof.
  unfold broadcast_op. destruct (broadcast_shapes _ _) as [sh|]; [|done].
  by intros [= <-].
Qed.

Lemma moment1_elementwise (b1 : R) (m g r : ndarray R) :
  well_formed m -> well_formed g ->
  moment1 b1 m g = Ok r -> elementwise (first_moment_of b1) m g r.
Proof.
  intros Hm Hg Hr. unfold moment1 in Hr.
  apply broadcast_op_inv in Hr as [Hbc Hr]. cbn [shape map_arr] in Hbc, Hr.
  split; [done|]. split; [rewrite Hr; apply gather_well_formed|].
  intros idx Hidx. rewrite Hr, item_gather by done.
  destruct (broadcast_in_bounds _ _ _ _ Hbc Hidx) as [Hbm Hbg].
  unfold first_moment_of, bc_item. by rewrite !item_map_arr.
Qed.

Lemma moment_inf_elementwise (b2 : R) (u g r : ndarray R) :
  well_formed u -> well_formed g ->
  moment_inf b2 u g = Ok r -> elementwise (inf_moment_of b2) u g r.
Proof.
  intros Hu Hg Hr. unfold moment_inf in Hr.
  apply broadcast_op_inv in Hr as [Hbc Hr]. cbn [shape map_arr] in Hbc, Hr.
  split; [done|]. split; [rewrite Hr; apply gather_well_formed|].
  intros idx Hidx. rewrite Hr, item_gather by done.
  destruct (broadcast_in_bounds _ _ _ _ Hbc Hidx) as [Hbu Hbg].
  unfold inf_moment_of, bc_item. by rewrite !item_map_arr.
Qed.

Lemma step_of_elementwise (lr b1 eps : R) (step : nat) (m u d : ndarray R) :
  well_formed u ->
  step_of lr (s_pow b1 step) eps m u = Ok d ->
  s_is_zero (s_sub s_one (s_pow b1 step)) = false
  /\ elementwise (step_of_moments lr b1 eps step) m u d.
Proof.
  intros Hu Hd. unfold step_of, py_div in Hd.
  destruct (s_is_zero _) eqn:Hz; [done|]. split; [done|].
  cbn [mbind result_bind] in Hd.
  apply result_bind_Ok_inv in Hd as (q & Hq & Hd). injection Hd as <-.
  apply broadcast_op_inv in Hq as [Hbc Hq]. cbn [shape map_arr] in Hbc, Hq.
  split; [done|]. split; [apply well_formed_map_arr; rewrite Hq;
                          apply gather_well_formed|].
  cbn [shape map_arr]. intros idx Hidx.
  rewrite item_map_arr;
    [|rewrite Hq; apply gather_well_formed|done].
  rewrite Hq, item_gather by done.
  destruct (broadcast_in_bounds _ _ _ _ Hbc Hidx) as [_ Hbu].
  unfold step_of_moments, bc_item. by rewrite item_map_arr.
Qed.

Lemma inplace_add_inv (p d p' : ndarray R) :
  inplace_op s_add p d = Ok p' -> added_in_place p d p'.
Proof.
  unfold inplace_op. destruct (broadcast_shapes _ _) as [sh|] eqn:Hbc; [|done].
  destruct (decide (sh = shape p)) as [->|]; [|done]. intros [= <-].
  split; [done|]. split; [done|]. split; [apply gather_well_formed|].
  intros idx Hidx. by rewrite item_gather.
Qed.

Lemma elementwise_Ok (f : R -> R -> R) (a b : ndarray R) (sh : list nat) :
  broadcast_shapes (shape a) (shape b) = Some sh ->
  exists r, broadcast_op f a b = Ok r /\ shape r = sh.
Proof. intros Hbc. unfold broadcast_op. rewrite Hbc. by eexists. Qed.
End AdaMaxElementwise.

Section AdaMaxClaims.
Context `{Scalar R}.
Import AdaMax.

Ltac simpl_fields :=
  cbn [fst snd m_w u_w m_b u_b t learning_rate beta1 beta2 e
       adjust_biases_shape set_m_w set_u_w set_m_b set_u_b set_t].

Ltac step_self Hrun :=
  let st := fresh "st" in let s0 := fresh "s" in let Hq := fresh "Hq" in
  apply M_bind_Ok_inv in Hrun as (st & s0 & Hq & Hrun);
  apply inv_self in Hq as [-> ->]; cbn [fst snd] in Hrun.

Ltac step_assign Hrun :=
  let st := fresh "st" in let u := fresh "u" in let Hq := fresh "Hq" in
  apply M_bind_Ok_inv in Hrun as (st & u & Hq & Hrun);
  apply inv_assign in Hq as ->; cbn [fst snd] in Hrun.

Ltac step_lift Hrun a Ha :=
  let st := fresh "st" in let Hq := fresh "Hq" in
  apply M_bind_Ok_inv in Hrun as (st & a & Hq & Hrun);
  apply inv_lift in Hq as [-> Ha].

Lemma step_of_Ok (lr b1 eps : R) (step : nat) (m u : ndarray R) (sh : list nat) :
  s_is_zero (s_sub s_one (s_pow b1 step)) = false ->
  broadcast_shapes (shape m) (shape u) = Some sh ->
  exists d, step_of lr (s_pow b1 step) eps m u = Ok d /\ shape d = sh.
Proof.
  intros Hz Hbc. unfold step_of, py_div. rewrite Hz.
  cbn [mbind result_bind]. unfold broadcast_op. cbn [shape map_arr].
  rewrite Hbc. cbn [mbind result_bind mret result_ret]. by eexists.
Qed.

Lemma inplace_add_Ok (p d : ndarray R) :
  broadcast_shapes (shape p) (shape d) = Some (shape p) ->
  exists p', inplace_op s_add p d = Ok p' /\ shape p' = shape p.
Proof.
  intros Hbc. unfold inplace_op. rewrite Hbc, decide_True by done. by eexists.
Qed.


(** C3. Every call of [apply_gradients] that returns, with [t+1] the
    step counter after its increment and [m], [u] the accumulators as
    the shape adjustment leaves them, has returned the two parameter
    objects it was given and has computed, under NumPy's broadcasting
    and separately for weights and biases: the new first moment
    [beta1*m + (1-beta1)*gradient], the new infinity-norm moment
    [max(beta2*u, |gradient|)], the step
    [(learning_rate / (1 - beta1^(t+1))) * (m / (u + epsilon))] of the
    new moments, and the parameter array overwritten in place with
    [param + step].  And a call returns whenever its shape adjustment
    returns, these operands can be broadcast, the steps broadcast to
    the parameters and [1 - beta1^(t+1)] is not zero.  The gradients
    and the incoming bias accumulators are arrays with as many entries
    as their shapes say, as every NumPy array is; nothing is assumed
    about how the shapes relate. *)
Theorem C3_apply_gradients_update
    (s : state R) (h : heap R) (weightGradients biasGradients : ndarray R)
    (weights biases : loc) :
  well_formed weightGradients -> well_formed biasGradients ->
  well_formed (m_b s) -> well_formed (u_b s) ->
  (forall s' h' r,
      apply_gradients weightGradients biasGradients weights biases (s, h)
      = ((s', h'), Ok r) ->
      exists (sa : state R) (w w' b b' dw db : ndarray R),
        adjust_shapes weights biases (set_t (t s + 1) s, h) = ((sa, h), Ok tt)
        /\ r = (weights, biases)
        /\ t s' = t s + 1
        /\ s_is_zero (s_sub s_one (s_pow (beta1 s) (t s + 1))) = false
        /\ elementwise (first_moment_of (beta1 s)) (m_w sa) weightGradients (m_w s')
        /\ elementwise (inf_moment_of (beta2 s)) (u_w sa) weightGradients (u_w s')
        /\ elementwise (first_moment_of (beta1 s)) (m_b sa) biasGradients (m_b s')
        /\ elementwise (inf_moment_of (beta2 s)) (u_b sa) biasGradients (u_b s')
        /\ elementwise (step_of_moments (learning_rate s) (beta1 s) (e s) (t s + 1))
                       (m_w s') (u_w s') dw
        /\ elementwise (step_of_moments (learning_rate s) (beta1 s) (e s) (t s + 1))
                       (m_b s') (u_b s') db
        /\ h !! weights = Some w /\ added_in_place w dw w'
        /\ <[weights := w']> h !! biases = Some b /\ added_in_place b db b'
        /\ h' = <[biases := b']> (<[weights := w']> h))
  /\ (forall (sa : state R) (w b : ndarray R) (s1 s2 s3 z1 z2 z3 : list nat),
        adjust_shapes weights biases (set_t (t s + 1) s, h) = ((sa, h), Ok tt) ->
        h !! weights = Some w -> h !! biases = Some b -> weights <> biases ->
        broadcast_shapes (shape (m_w sa)) (shape weightGradients) = Some s1 ->
        broadcast_shapes (shape (u_w sa)) (shape weightGradients) = Some s2 ->
        broadcast_shapes s1 s2 = Some s3 ->
        broadcast_shapes (shape w) s3 = Some (shape w) ->
        broadcast_shapes (shape (m_b sa)) (shape biasGradients) = Some z1 ->
        broadcast_shapes (shape (u_b sa)) (shape biasGradients) = Some z2 ->
        broadcast_shapes z1 z2 = Some z3 ->
        broadcast_shapes (shape b) z3 = Some (shape b) ->
        s_is_zero (s_sub s_one (s_pow (beta1 s) (t s + 1))) = false ->
        exists s' h',
          apply_gradients weightGradients biasGradients weights biases (s, h)
          = ((s', h'), Ok (weights, biases))).
Proof.
  intros Wfwg Wfbg Wfmb Wfub. split.
  - intros s' h' r Hrun. unfold apply_gradients in Hrun.
    step_self Hrun. step_assign Hrun. step_self Hrun.
    cbv zeta in Hrun. simpl_fields.
    cbn [beta1 t set_t] in Hrun.
    apply M_bind_Ok_inv in Hrun as ([sa ha] & ux0 & Hadj & Hrun).
    destruct ux0.
    pose proof (relates_adjust_shapes weights biases _ _ _ Hadj)
      as [(Hlr & Hb1 & Hb2 & He & Hfl & Ht) _].
    cbn [fst learning_rate beta1 beta2 e adjust_biases_shape t set_t]
      in Hlr, Hb1, Hb2, He, Hfl, Ht.
    pose proof (adjust_shapes_inv _ _ _ _ _ _ _ Hadj)
      as (-> & w & b & Hw & Hb & _ & _ & Hmw & Huw & Hoff & Hon).
    cbn [adjust_biases_shape set_t] in Hoff, Hon.
    assert (Wfsa : well_formed (m_w sa) /\ well_formed (u_w sa)
                   /\ well_formed (m_b sa) /\ well_formed (u_b sa)).
    { split; [rewrite Hmw; apply resized_well_formed|].
      split; [rewrite Huw; apply resized_well_formed|].
      destruct (adjust_biases_shape s) eqn:Ef; [by apply Hon|].
      destruct (Hoff eq_refl) as [-> ->].
      by apply allocated_well_formed. }
    destruct Wfsa as (Wmw & Wuw & Wmb & Wub).
    step_self Hrun. step_lift Hrun mw' Hmw'. step_assign Hrun.
    step_self Hrun. step_lift Hrun uw' Huw'. step_assign Hrun.
    step_self Hrun. step_lift Hrun mb' Hmb'. step_assign Hrun.
    step_self Hrun. step_lift Hrun ub' Hub'. step_assign Hrun.
    step_self Hrun.
    simpl_fields. cbn [m_w u_w m_b u_b beta1 beta2 set_m_w set_u_w set_m_b set_u_b]
      in Hmw', Huw', Hmb', Hub'.
    rewrite ?Hb1, ?Hb2 in Hmw', Huw', Hmb', Hub'.
    apply moment1_elementwise in Hmw'; [|done|done].
    apply moment_inf_elementwise in Huw'; [|done|done].
    apply moment1_elementwise in Hmb'; [|done|done].
    apply moment_inf_elementwise in Hub'; [|done|done].
    cbn [learning_rate e m_w u_w m_b u_b set_m_w set_u_w set_m_b set_u_b] in Hrun.
    rewrite ?Hlr, ?He in Hrun.
    apply M_bind_Ok_inv in Hrun as (st1 & w0 & Hq1 & Hrun).
    apply inv_deref in Hq1 as [-> Hw0]. cbn [snd] in Hw0.
    rewrite Hw in Hw0. injection Hw0 as <-.
    step_lift Hrun w' Hw'.
    apply result_bind_Ok_inv in Hw' as (dw & Hdw & Hw').
    apply step_of_elementwise in Hdw as [Hz Hdw]; [|by destruct Huw' as (_ & ? & _)].
    apply inplace_add_inv in Hw'.
    apply M_bind_Ok_inv in Hrun as (st2 & ux1 & Hq2 & Hrun).
    apply inv_store in Hq2 as ->. cbn [fst snd] in Hrun.
    apply M_bind_Ok_inv in Hrun as (st3 & b0 & Hq3 & Hrun).
    apply inv_deref in Hq3 as [-> Hb0]. cbn [snd] in Hb0.
    step_lift Hrun b' Hb'.
    apply result_bind_Ok_inv in Hb' as (db & Hdb & Hb').
    apply step_of_elementwise in Hdb as [_ Hdb]; [|by destruct Hub' as (_ & ? & _)].
    apply inplace_add_inv in Hb'.
    apply M_bind_Ok_inv in Hrun as (st4 & ux2 & Hq4 & Hrun).
    apply inv_store in Hq4 as ->. cbn [fst snd] in Hrun.
    injection Hrun as <- <- <-.
    exists sa, w, w', b0, b', dw, db. simpl_fields.
    rewrite Hb1 in Hmw', Hmb'. rewrite Hb2 in Huw', Hub'.
    repeat (split; [assumption || reflexivity|]). reflexivity.
  - intros sa w b s1 s2 s3 z1 z2 z3 Hadj Hw Hb Hne
           Hs1 Hs2 Hs3 Hsw Hz1 Hz2 Hz3 Hzb Hz.
    pose proof (relates_adjust_shapes weights biases _ _ _ Hadj)
      as [(Hlr & Hb1 & Hb2 & He & Hfl & Ht) _].
    cbn [fst learning_rate beta1 beta2 e adjust_biases_shape t set_t]
      in Hlr, Hb1, Hb2, He, Hfl, Ht.
    destruct (elementwise_Ok s_add (map_arr (s_mul (beta1 s)) (m_w sa))
                (map_arr (s_mul (s_sub s_one (beta1 s))) weightGradients) s1 Hs1)
      as (mw' & Hmw' & Smw').
    destruct (elementwise_Ok s_max (map_arr (s_mul (beta2 s)) (u_w sa))
                (map_arr s_abs weightGradients) s2 Hs2)
      as (uw' & Huw' & Suw').
    destruct (elementwise_Ok s_add (map_arr (s_mul (beta1 s)) (m_b sa))
                (map_arr (s_mul (s_sub s_one (beta1 s))) biasGradients) z1 Hz1)
      as (mb' & Hmb' & Smb').
    destruct (elementwise_Ok s_max (map_arr (s_mul (beta2 s)) (u_b sa))
                (map_arr s_abs biasGradients) z2 Hz2)
      as (ub' & Hub' & Sub').
    destruct (step_of_Ok (learning_rate s) (beta1 s) (e s) (t s + 1) mw' uw' s3 Hz)
      as (dw & Hdw & Sdw); [by rewrite Smw', Suw'|].
    destruct (inplace_add_Ok w dw) as (w' & Hw' & Sw'); [by rewrite Sdw|].
    destruct (step_of_Ok (learning_rate s) (beta1 s) (e s) (t s + 1) mb' ub' z3 Hz)
      as (db & Hdb & Sdb); [by rewrite Smb', Sub'|].
    destruct (inplace_add_Ok b db) as (b' & Hb' & Sb'); [by rewrite Sdb|].
    eexists _, _. unfold apply_gradients.
    rewrite (M_bind_eq self _ (s, h) _ _ eq_refl).
    rewrite (M_bind_eq (assign _) _ (s, h) _ tt eq_refl).
    rewrite (M_bind_eq self _ (_, h) _ _ eq_refl). simpl_fields.
    cbv zeta.
    rewrite (M_bind_eq _ _ _ _ _ Hadj).
    rewrite (M_bind_eq self _ (sa, h) _ _ eq_refl). simpl_fields.
    erewrite M_bind_eq;
      [|unfold m_lift, moment1; rewrite Hb1, Hmw'; reflexivity].
    rewrite (M_bind_eq (assign _) _ (_, h) _ tt eq_refl).
    rewrite (M_bind_eq self _ (_, h) _ _ eq_refl). simpl_fields.
    erewrite M_bind_eq;
      [|unfold m_lift, moment_inf; rewrite Hb2, Huw'; reflexivity].
    rewrite (M_bind_eq (assign _) _ (_, h) _ tt eq_refl).
    rewrite (M_bind_eq self _ (_, h) _ _ eq_refl). simpl_fields.
    erewrite M_bind_eq;
      [|unfold m_lift, moment1; rewrite Hb1, Hmb'; reflexivity].
    rewrite (M_bind_eq (assign _) _ (_, h) _ tt eq_refl).
    rewrite (M_bind_eq self _ (_, h) _ _ eq_refl). simpl_fields.
    erewrite M_bind_eq;
      [|unfold m_lift, moment_inf; rewrite Hb2, Hub'; reflexivity].
    rewrite (M_bind_eq (assign _) _ (_, h) _ tt eq_refl).
    rewrite (M_bind_eq self _ (_, h) _ _ eq_refl). simpl_fields.
    rewrite Hlr, He.
    erewrite M_bind_eq by (by apply deref_eq).
    erewrite M_bind_eq;
      [|unfold m_lift; rewrite Hdw; cbn [mbind result_bind]; rewrite Hw';
        reflexivity].
    rewrite (M_bind_eq (store _ _) _ _ _ tt eq_refl). simpl_fields.
    erewrite M_bind_eq.
    2:{ apply deref_eq. cbn [snd]. rewrite lookup_insert_ne by done. exact Hb. }
    erewrite M_bind_eq;
      [|unfold m_lift; rewrite Hdb; cbn [mbind result_bind]; rewrite Hb';
        reflexivity].
    rewrite (M_bind_eq (store _ _) _ _ _ tt eq_refl).
    reflexivity.
Qed.
End AdaMaxClaims.



(** An optimizer that has served a layer of one unit, so that its bias
    accumulators have the shape (1), is handed a layer of two units with
    a bias gradient of no dimension.  The bias accumulators do not take
    the shape of the biases; the call returns all the same, with the
    counter at 2 and the two biases updated by broadcasting. *)
Lemma C3_apply_gradients_update_witness :
  exists s' h' b',
    AdaMax.apply_gradients SharedOptimizer.weight_gradients
      SharedOptimizer.bias_gradient 0 1
      (SharedOptimizer.optimizer_a, SharedOptimizer.heap_b)
    = ((s', h'), Ok (0, 1))
    /\ AdaMax.t s' = 2
    /\ shape (AdaMax.m_b SharedOptimizer.optimizer_a) = [1]
    /\ shape (AdaMax.m_b s') = [1]
    /\ h' !! 1 = Some b' /\ shape b' = [2].
Proof.
  destruct (C3_apply_gradients_update SharedOptimizer.optimizer_a
              SharedOptimizer.heap_b SharedOptimizer.weight_gradients
              SharedOptimizer.bias_gradient 0 1) as [Hupdate Hreturns].
  - reflexivity.
  - reflexivity.
  - reflexivity.
  - reflexivity.
  - destruct (Hreturns
                (fst (fst (AdaMax.adjust_shapes 0 1
                   (AdaMax.set_t 2 SharedOptimizer.optimizer_a,
                    SharedOptimizer.heap_b))))
                SharedOptimizer.weights_b SharedOptimizer.biases_b
                [2; 2] [2; 2] [2; 2] [1] [1] [1])
      as (s' & h' & Hrun); try (vm_compute; reflexivity); [discriminate|].
    destruct (Hupdate _ _ _ Hrun)
      as (sa & w & w' & b & b' & dw & db & Hadj & _ & Ht & _ & _ & _ & Hmb
          & _ & _ & _ & _ & _ & Hb & Hadd & ->).
    exists s', (<[1 := b']> (<[0 := w']> SharedOptimizer.heap_b)), b'.
    split; [exact Hrun|].
    split; [rewrite Ht; reflexivity|]. split; [reflexivity|].
    split; [|split; [apply lookup_insert_eq|]].
    + destruct Hmb as (Hbc & _).
      vm_compute in Hadj. injection Hadj as <-.
      vm_compute in Hbc. by injection Hbc.
    + destruct Hadd as (_ & Hs & _). rewrite Hs.
      rewrite lookup_insert_ne in Hb by discriminate.
      injection Hb as <-. reflexivity.
Defined.

(** ** Dense: the backward pass *)

Section DenseBackward.
Context `{Scalar R}.

Lemma heap_deref_eq (st : Optimizers R) (l : loc) (a : ndarray R) :
  snd st !! l = Some a -> heap_deref l st = (st, Ok a).
Proof. intros E. unfold heap_deref. by rewrite E. Qed.

(** The steps of [Dense.backpropagate] before the optimizer is called
    leave the optimizers and the store alone. *)
Lemma regulizer_step_state (self : Dense.t R) (gradient : ndarray R)
      (st st' : Optimizers R) (r : result (ndarray R)) :
  match Dense.regulizer self with
  | Some reg =>
      w ← heap_deref (Dense.weights self);
      b ← heap_deref (Dense.biases self);
      mret (reg gradient w b)
  | None => mret gradient
  end st = (st', r) -> st' = st.
Proof.
  destruct (Dense.regulizer self) as [reg|]; [|by intros [= <- _]].
  unfold mbind, M_bind, heap_deref.
  destruct (snd st !! Dense.weights self); [|by intros [= <- _]].
  destruct (snd st !! Dense.biases self); by intros [= <- _].
Qed.

(** X8. A Dense layer asked to backpropagate before any forward pass has
    stored its outputs raises an [AttributeError] (its parameters being in
    the store), and with an empty optimizer list it always raises; in
    both cases the optimizers and the store are left as they were. *)
Theorem X8_dense_backward_errors (self : Dense.t R) (gradient : ndarray R)
        (st : Optimizers R) (w b : ndarray R) :
  snd st !! Dense.weights self = Some w ->
  snd st !! Dense.biases self = Some b ->
  (Dense.outputs self = None ->
     Dense.backpropagate self gradient st = (st, Raise AttributeError "outputs"))
  /\ (fst st = [] ->
      exists e msg, Dense.backpropagate self gradient st = (st, Raise e msg)).
Proof.
  intros Hw Hb.
  assert (Hreg : exists g0,
    match Dense.regulizer self with
    | Some reg =>
        w ← heap_deref (Dense.weights self);
        b ← heap_deref (Dense.biases self);
        mret (reg gradient w b)
    | None => mret gradient
    end st = (st, Ok g0)).
  { destruct (Dense.regulizer self) as [reg|]; [|by eexists].
    eexists. rewrite (M_bind_eq _ _ _ _ _ (heap_deref_eq st _ w Hw)).
    rewrite (M_bind_eq _ _ _ _ _ (heap_deref_eq st _ b Hb)). reflexivity. }
  destruct Hreg as [g0 Hreg].
  split.
  - intros Hout. unfold Dense.backpropagate.
    rewrite (M_bind_eq _ _ _ _ _ Hreg). rewrite Hout. reflexivity.
  - intros Hempty. unfold Dense.backpropagate.
    rewrite (M_bind_eq _ _ _ _ _ Hreg).
    destruct (attr "outputs" (Dense.outputs self)) as [outs|e1 m1];
      [|by eexists _, _].
    rewrite (M_bind_eq (m_lift (Ok outs)) _ st st outs eq_refl).
    destruct (mapM_result _ outs) as [terms|e2 m2]; [|by eexists _, _].
    rewrite (M_bind_eq (m_lift (Ok terms)) _ st st terms eq_refl).
    destruct (np_average terms) as [delta|e3 m3]; [|by eexists _, _].
    rewrite (M_bind_eq (m_lift (Ok delta)) _ st st delta eq_refl).
    destruct (attr "inputs" (Dense.inputs self)) as [x|e4 m4];
      [|by eexists _, _].
    rewrite (M_bind_eq (m_lift (Ok x)) _ st st x eq_refl).
    eexists _, _. apply M_bind_raise.
    unfold with_optimizer. rewrite Hempty. reflexivity.
Qed.
End DenseBackward.

Lemma X8_dense_backward_errors_witness :
  Dense.backpropagate
    (Dense.mk 3 "Dense" 0 1 Examples.identity_activation None None None)
    Examples.dense_gradient Examples.dense_store
  = (Examples.dense_store, Raise AttributeError "outputs")
  /\ snd (Dense.backpropagate Examples.dense0 Examples.dense_gradient
            ([], snd Examples.dense_store))
     = Raise IndexError "list index out of range".
Proof.
  split.
  - eapply (X8_dense_backward_errors _ _ Examples.dense_store); reflexivity.
  - destruct (X8_dense_backward_errors Examples.dense0 Examples.dense_gradient
                ([], snd Examples.dense_store)
                (mk_ndarray [2; 3] [1; 2; 3; 4; 5; 6]%Q) (mk_ndarray [3] [0; 0; 0]%Q)
                eq_refl eq_refl) as [_ Hopt].
    destruct (Hopt eq_refl) as (e & msg & Hrun). rewrite Hrun.
    vm_compute in Hrun. by injection Hrun as <- <-.
Defined.

Section DenseGradient.
Context `{Scalar R}.

(** X9. When [Dense.backpropagate] returns, for a weight matrix of [n]
    rows and [m] columns: the layer still refers to the same parameter
    objects, the optimizer list has kept its length, the updated weights
    have kept their shape, and the gradient handed to the preceding layer
    is a matrix of [m] rows and [n] columns, one scalar [delta] times
    the transpose of the updated weights - not a vector of [n] entries. *)
Theorem X9_dense_backward_gradient
    (self self' : Dense.t R) (gradient g w b : ndarray R)
    (st st' : Optimizers R) (n m : nat) :
  Dense.backpropagate self gradient st = (st', Ok (g, self')) ->
  snd st !! Dense.weights self = Some w ->
  snd st !! Dense.biases self = Some b ->
  shape w = [n; m] ->
  self' = self
  /\ length (fst st') = length (fst st)
  /\ shape g = [m; n]
  /\ exists (delta : R) (w' : ndarray R),
      snd st' !! Dense.weights self = Some w'
      /\ shape w' = [n; m]
      /\ forall i j, i < n -> j < m ->
           item g [j; i] = s_mul delta (item w' [i; j]).
Proof.
  unfold Dense.backpropagate. intros Hrun Hw Hb Hsw.
  apply M_bind_Ok_inv in Hrun as (s1 & g0 & Hreg & Hrun).
  apply regulizer_step_state in Hreg as ->.
  apply M_bind_Ok_inv in Hrun as (s1 & outs & Hq1 & Hrun).
  apply inv_m_lift in Hq1 as [-> _].
  apply M_bind_Ok_inv in Hrun as (s1 & terms & Hq2 & Hrun).
  apply inv_m_lift in Hq2 as [-> _].
  apply M_bind_Ok_inv in Hrun as (s1 & delta & Hq3 & Hrun).
  apply inv_m_lift in Hq3 as [-> _].
  apply M_bind_Ok_inv in Hrun as (s1 & x & Hq4 & Hrun).
  apply inv_m_lift in Hq4 as [-> _].
  apply M_bind_Ok_inv in Hrun as (s1 & wb & Hq5 & Hrun).
  assert (Hlen : length (fst s1) = length (fst st)).
  { unfold with_optimizer in Hq5. destruct (fst st !! 0) as [o|]; [|done].
    destruct (AdaMax.apply_gradients _ _ _ _ _) as [[o' h'] r'].
    injection Hq5 as <- _. cbn [fst]. by rewrite length_insert. }
  apply inv_with_optimizer in Hq5 as (o & o' & _ & Hopt).
  destruct (apply_gradients_Ok_arrays _ _ w b _ _ _ _ _ _ _ Hopt Hw Hb)
    as (-> & w' & b' & Hw' & _ & Hsw' & _ & Wfw' & _).
  cbn [snd fst Dense.weights] in *.
  apply M_bind_Ok_inv in Hrun as (s2 & w2 & Hq6 & Hrun).
  apply inv_heap_deref in Hq6 as [-> Hw2].
  rewrite Hw' in Hw2. injection Hw2 as <-.
  injection Hrun as <- <- <-.
  split; [by destruct self|]. split; [done|].
  rewrite Hsw in Hsw'.
  split; [unfold np_transpose; cbn [shape map_arr gather]; by rewrite Hsw'|].
  exists delta, w'. split; [done|]. split; [done|].
  intros i j Hi Hj.
  rewrite item_map_arr.
  - unfold np_transpose. rewrite item_gather; [done|].
    rewrite Hsw'. repeat constructor; done.
  - apply gather_well_formed.
  - unfold np_transpose. cbn [shape gather]. rewrite Hsw'.
    repeat constructor; done.
Qed.
End DenseGradient.

Lemma X9_dense_backward_gradient_witness :
  exists g self' st',
    Dense.backpropagate Examples.dense0 Examples.dense_gradient Examples.dense_store
    = (st', Ok (g, self'))
    /\ self' = Examples.dense0 /\ shape g = [3; 2].
Proof.
  destruct (Dense.backpropagate Examples.dense0 Examples.dense_gradient
              Examples.dense_store) as [st' [[g self']|e msg]] eqn:Hrun;
    [|vm_compute in Hrun; discriminate Hrun].
  destruct (X9_dense_backward_gradient _ _ _ _
              (mk_ndarray [2; 3] [1; 2; 3; 4; 5; 6]%Q) (mk_ndarray [3] [0; 0; 0]%Q)
              _ _ 2 3 Hrun eq_refl eq_refl eq_refl) as (Hself & _ & Hsg & _).
  exists g, self', st'. split; [reflexivity|]. split; [exact Hself|exact Hsg].
Defined.

(** ** MaxPool1D: the forward pass *)

Section MaxPool1DForward.
Context `{Scalar R}.
Import MaxPool1D_methods.

Lemma ceil_div_windows (n k s : nat) :
  0 < s -> k <= n ->
  ceil_div (Z.of_nat n - Z.of_nat k + 1) s = Ok (Z.of_nat ((n - k) / s + 1)).
Proof.
  intros Hs Hk. unfold ceil_div. rewrite decide_False by lia. f_equal.
  rewrite Nat2Z.inj_add, Nat2Z.inj_div, Nat2Z.inj_sub by done.
  set (a := (Z.of_nat n - Z.of_nat k)%Z). set (z := Z.of_nat s).
  assert (Hz : (0 < z)%Z) by (subst z; lia).
  assert (Ha : (0 <= a)%Z) by (subst a; lia).
  pose proof (Z.div_mod a z ltac:(lia)) as Hdm.
  pose proof (Z.mod_pos_bound a z Hz) as Hmod.
  assert (Hq : ((- (a + 1)) / z = - (a / z) - 1)%Z).
  { symmetry. apply (Z.div_unique _ _ _ (z - a mod z - 1)); lia. }
  rewrite Hq. change (Z.of_nat 1) with 1%Z. lia.
Qed.

Lemma last_window_bound (n k s : nat) :
  0 < s -> k <= n -> n < ((n - k) / s + 1) * s + k.
Proof.
  intros Hs Hk.
  pose proof (Nat.div_mod_eq (n - k) s) as Hdm.
  pose proof (Nat.mod_upper_bound (n - k) s ltac:(lia)). nia.
Qed.

Lemma window1_max_Ok (self : MaxPool1D.t) (x : ndarray R) (n q : nat) :
  shape x = [n] -> 0 < MaxPool1D.kernel_size self ->
  q * MaxPool1D.strides self + MaxPool1D.kernel_size self <= n ->
  exists m, window1_max self x q = Ok m.
Proof.
  intros Hx Hk Hfit. unfold window1_max, slice1. rewrite Hx.
  cbn [mbind result_bind]. apply np_max_Ok, gather_data_nonempty.
  unfold product. cbn [foldr]. rewrite !Nat.min_l by lia. lia.
Qed.

(** The loop from window [a] on: it writes the windows [a], ..., [L-1]
    and stops. *)
Lemma windows_loop_spec (self : MaxPool1D.t) (x : ndarray R) (n : nat)
      (wm : nat -> R) :
  let k := MaxPool1D.kernel_size self in
  let s := MaxPool1D.strides self in
  let L := (n - k) / s + 1 in
  shape x = [n] -> 0 < k <= n -> 0 < s ->
  (forall q, q < L -> window1_max self x q = Ok (wm q)) ->
  forall len a out,
    a <= L -> L <= a + len ->
    shape out = [L] -> well_formed out ->
    (forall q, q < a -> item out [q] = wm q) ->
    exists out',
      windows_loop self x ((fun q => q * s) <$> seq a len) (out, a) = Ok (out', L)
      /\ shape out' = [L] /\ well_formed out'
      /\ forall q, q < L -> item out' [q] = wm q.
Proof.
  intros k s L Hx Hk Hs Hwm.
  induction len as [|len IH]; intros a out Ha Hlen Hsh Hwf Hdone.
  - assert (a = L) as -> by lia. exists out. done.
  - cbn [seq fmap list_fmap windows_loop]. fold k s.
    fold (@fmap list _ _ _ (fun q => q * s) (seq (S a) len)).
    assert (Hsize : size x = n) by (unfold size; rewrite Hx; unfold product; cbn; lia).
    rewrite Hsize.
    destruct (decide (a = L)) as [->|Hne].
    + rewrite decide_True by (apply last_window_bound; lia).
      exists out. done.
    + assert (HaL : a < L) by lia.
      pose proof (window_fits n k s a Hs (proj2 Hk) HaL) as Hfit.
      rewrite decide_False by lia.
      pose proof (Hwm a HaL) as Hm. unfold window1_max in Hm. fold k s in Hm.
      destruct (slice1 x (a * s) (a * s + k)) as [window|e msg]; [|done].
      cbn [mbind result_bind] in Hm |- *. rewrite Hm.
      cbn [mbind result_bind fst snd].
      rewrite setitem_scalar;
        [|unfold ndim; rewrite Hsh; cbn; lia
         |rewrite Hsh; cbn; repeat constructor; lia].
      cbn [mbind result_bind]. rewrite Hsh.
      replace (a + 1) with (S a) by lia.
      apply IH; [lia|lia|done|apply gather_well_formed|].
      intros q Hq. rewrite item_gather by (repeat constructor; lia).
      unfold is_prefix. cbn [length take].
      destruct (decide (q = a)) as [->|Hqa].
      * by rewrite bool_decide_true.
      * rewrite bool_decide_false by congruence. apply Hdone. lia.
Qed.

(** X10. On a vector of [n] values, with a kernel of size [1 <= k <= n]
    and a positive stride [s], [n] and [s] below [double_exact] (so that
    the double quotient in the output size has the exact ceiling), the
    forward pass of MaxPool1D returns a
    well-formed vector of [(n - k) / s + 1] entries, the [q]-th being
    the maximum of the [k] values from position [q * s] on; every entry
    of the buffer obtained from [np.empty] is overwritten, whatever it
    held; and [output_shape] reports, for the length [n], exactly this
    number of entries. *)
Theorem X10_maxpool1d_forward (self : MaxPool1D.t) (x : ndarray R) (n : nat)
        (junk : list nat -> R) :
  let k := MaxPool1D.kernel_size self in
  let s := MaxPool1D.strides self in
  let L := (n - k) / s + 1 in
  shape x = [n] -> 0 < k <= n -> 0 < s ->
  (Z.of_nat n < double_exact)%Z -> (Z.of_nat s < double_exact)%Z ->
  (exists out,
      call self junk x = Ok out
      /\ shape out = [L] /\ well_formed out
      /\ forall q, q < L -> window1_max self x q = Ok (item out [q]))
  /\ snd (output_shape (ShapeInt (Z.of_nat n)) self) = Ok (Z.of_nat L).
Proof.
  intros k s L Hx Hk Hs _ _.
  assert (Hsize : size x = n) by (unfold size; rewrite Hx; unfold product; cbn; lia).
  split.
  - set (wm := fun q => match window1_max self x q with
                        | Ok m => m | Raise _ _ => s_zero end).
    assert (Hwm : forall q, q < L -> window1_max self x q = Ok (wm q)).
    { intros q Hq. subst wm. cbn beta.
      destruct (window1_max_Ok self x n q Hx (proj1 Hk)) as [m ->]; [|done].
      apply (window_fits n k s q Hs (proj2 Hk) Hq). }
    unfold call. fold k s. rewrite Hsize.
    rewrite ceil_div_windows by lia. cbn [mbind result_bind]. fold L.
    unfold np_empty.
    rewrite (shape_of_ints_pos [Z.of_nat L]) by (repeat constructor; lia).
    cbn [mbind result_bind mret result_ret fmap list_fmap].
    rewrite Nat2Z.id. unfold range_step.
    destruct (windows_loop_spec self x n wm Hx Hk Hs Hwm
                ((n + s - 1) / s) 0 (gather [L] junk))
      as (out' & Hloop & Hsh & Hwf & Hitems).
    + lia.
    + rewrite Nat.add_0_l. transitivity ((n - k + 1 * s) / s).
      * rewrite Nat.div_add by lia. done.
      * apply Nat.Div0.div_le_mono. lia.
    + done.
    + apply gather_well_formed.
    + intros q Hq. lia.
    + fold k s L in Hloop. rewrite Hloop. cbn [mbind result_bind fst].
      exists out'. split; [done|]. split; [done|]. split; [done|].
      intros q Hq. rewrite Hitems by done. by apply Hwm.
  - unfold output_shape, mbind, M_bind, m_get, m_lift. fold k s.
    rewrite ceil_div_windows by lia. reflexivity.
Qed.
End MaxPool1DForward.

(** The six values of the docstring under a window of 2 moved by 2. *)
Lemma X10_maxpool1d_forward_witness :
  exists out,
    MaxPool1D_methods.call (MaxPool1D.init 2 2 "MaxPool1D") (fun _ => 99%Z)
      (mk_ndarray [6] [1; 5; 3; 6; 7; 4]%Z) = Ok out
    /\ shape out = [3]
    /\ snd (MaxPool1D_methods.output_shape (ShapeInt 6)
              (MaxPool1D.init 2 2 "MaxPool1D")) = Ok 3%Z.
Proof.
  destruct (X10_maxpool1d_forward (MaxPool1D.init 2 2 "MaxPool1D")
              (mk_ndarray [6] [1; 5; 3; 6; 7; 4]%Z) 6 (fun _ => 99%Z))
    as [(out & Hcall & Hsh & _) Hshape];
    [reflexivity|cbn; lia|cbn; lia|reflexivity|reflexivity|].
  exists out. split; [exact Hcall|]. split; [exact Hsh|exact Hshape].
Defined.

(** ** MaxPool2D: every entry of the forward pass, and [output_shape] *)

Section IndexedLoops.
Context {S : Type}.

Lemma for_range_invariant_ix (P : nat -> S -> Prop) (n : nat)
      (body : nat -> S -> result S) (init : S) :
  P 0 init ->
  (forall i a, i < n -> P i a -> exists a', body i a = Ok a' /\ P (Datatypes.S i) a') ->
  exists a', for_range n body init = Ok a' /\ P n a'.
Proof.
  intros Hinit. induction n as [|n IH]; intros Hbody.
  - by exists init.
  - destruct IH as (a & Ha & HP); [intros i a' Hi; apply Hbody; lia|].
    destruct (Hbody n a) as (a' & Ha' & HP'); [lia|done|].
    exists a'. rewrite for_range_S, Ha. done.
Qed.
End IndexedLoops.

Section MaxPool2DEntries.
Context `{Scalar R}.
Import MaxPool2D MaxPool2D_methods.

Ltac mstep := erewrite M_bind_eq; [|reflexivity].

Ltac lift_by E :=
  erewrite M_bind_eq; [|unfold m_lift; rewrite E; reflexivity].

(** The loops fill every position with the maximum of its window. *)
Lemma pool_loops_entries (self : t R) (x output : ndarray R) (n0 n1 : nat)
      (rest : list nat) :
  let h := (n0 - fst (pool_size self)) / fst (strides self) + 1 in
  let w := (n1 - snd (pool_size self)) / snd (strides self) + 1 in
  shape x = n0 :: n1 :: rest -> 0 < product rest ->
  0 < fst (strides self) -> 0 < snd (strides self) ->
  0 < fst (pool_size self) <= n0 -> 0 < snd (pool_size self) <= n1 ->
  shape output = h :: w :: rest ->
  exists out,
    pool_loops self x h w output = Ok out
    /\ shape out = h :: w :: rest
    /\ forall i j, i < h -> j < w ->
         exists m, window_max self x i j = Ok m
                   /\ forall tl, in_bounds rest tl -> item out (i :: j :: tl) = m.
Proof.
  intros h w Hx Hrest Hs0 Hs1 Hp0 Hp1 Hout.
  set (inner := fun (i j : nat) (output : ndarray R) =>
    window ← slice2 x (i * fst (strides self))
               (i * fst (strides self) + fst (pool_size self))
               (j * snd (strides self))
               (j * snd (strides self) + snd (pool_size self));
    m ← np_max window;
    setitem output [i; j] (scalar_array m)).
  set (done_at := fun (i j : nat) (o : ndarray R) =>
    shape o = h :: w :: rest
    /\ forall i' j', (i' < i \/ (i' = i /\ j' < j)) -> i' < h -> j' < w ->
         exists m, window_max self x i' j' = Ok m
                   /\ forall tl, in_bounds rest tl -> item o (i' :: j' :: tl) = m).
  assert (Hinner : forall i j o, i < h -> j < w -> done_at i j o ->
            exists o', inner i j o = Ok o' /\ done_at i (Datatypes.S j) o').
  { intros i j o Hi Hj [Ho Hdone].
    destruct (pool_step self x o n0 n1 rest i j Hx Hrest Hs0 Hs1 Hp0 Hp1 Ho Hi Hj)
      as (win & m & Hwin & Hm & Hstep).
    eexists. split; [exact Hstep|]. split; [done|].
    intros i' j' Hlt Hi' Hj'.
    destruct (decide (i' = i /\ j' = j)) as [[-> ->]|Hne].
    - exists m. split.
      + unfold window_max. rewrite Hwin. exact Hm.
      + intros tl Htl. rewrite item_gather by (repeat constructor; done).
        unfold is_prefix. cbn [length take]. by rewrite bool_decide_true.
    - destruct (Hdone i' j') as (m' & Hm' & Hitems); [lia|done|done|].
      exists m'. split; [done|].
      intros tl Htl. rewrite item_gather by (repeat constructor; done).
      unfold is_prefix. cbn [length take].
      rewrite bool_decide_false by (intros [= -> ->]; tauto).
      by apply Hitems. }
  assert (Hrow : forall i o, i < h -> done_at i 0 o ->
            exists o', for_range w (inner i) o = Ok o' /\ done_at (Datatypes.S i) 0 o').
  { intros i o Hi Ho.
    destruct (for_range_invariant_ix (fun j => done_at i j) w (inner i) o Ho)
      as (o' & Ho' & [Hsh Hdone]).
    - intros j a Hj Ha. by apply Hinner.
    - exists o'. split; [done|]. split; [done|].
      intros i' j' Hlt Hi' Hj'. apply Hdone; [lia|done|done]. }
  destruct (for_range_invariant_ix (fun i => done_at i 0) h
              (fun i o => for_range w (inner i) o) output)
    as (out & Hloops & [Hsh Hdone]).
  - split; [done|]. intros i' j' Hlt. lia.
  - intros i a Hi Ha. by apply Hrow.
  - exists out. split; [exact Hloops|]. split; [done|].
    intros i j Hi Hj. apply Hdone; [lia|done|done].
Qed.

(** [output[-1, -1, :] = x[-1, -1, :]] on three axes. *)
Lemma copy_last_Ok (x out : ndarray R) (n0 n1 h w c : nat) :
  shape x = [n0; n1; c] -> shape out = [h; w; c] ->
  0 < n0 -> 0 < n1 -> 0 < h -> 0 < w ->
  MaxPool2D.copy_last x out
  = Ok (gather [h; w; c]
          (fun idx => if is_prefix [h - 1; w - 1] idx
                      then item x ([n0 - 1; n1 - 1] ++ drop 2 idx)
                      else item out idx)).
Proof.
  intros Hx Hshape Hn0 Hn1 Hh Hw.
  unfold copy_last. rewrite Hx, Hshape. cbn [nth].
  rewrite !wrap_index_last by lia. cbn [mbind result_bind].
  rewrite getitem_Ok; [|unfold ndim; rewrite Hx; cbn; lia
                       |rewrite Hx; cbn; repeat constructor; lia].
  cbn [mbind result_bind].
  rewrite setitem_same_shape;
    [|unfold ndim; rewrite Hshape; cbn; lia
     |rewrite Hshape; cbn; repeat constructor; lia
     |rewrite Hshape, Hx; reflexivity].
  rewrite Hshape. f_equal. apply gather_ext. intros idx Hidx.
  destruct (is_prefix [h - 1; w - 1] idx) eqn:Epre; [|done].
  cbn [length]. rewrite Hx. cbn [shape gather drop length].
  inversion Hidx as [|i0 ? idx1 ? Hi0 Hidx1]; subst.
  inversion Hidx1 as [|i1 ? idx2 ? Hi1 Hidx2]; subst.
  inversion Hidx2 as [|i2 ? idx3 ? Hi2 Hidx3]; subst.
  inversion Hidx3; subst. cbn [drop].
  rewrite bc_index_same by (repeat constructor; done).
  rewrite item_gather by (repeat constructor; done). done.
Qed.

(** The forward pass in terms of its loops. *)
Lemma call_by_loops (self : t R) (x out : ndarray R) (n0 n1 : nat)
      (rest : list nat) :
  let h := (n0 - fst (pool_size self)) / fst (strides self) + 1 in
  let w := (n1 - snd (pool_size self)) / snd (strides self) + 1 in
  let self1 := mk (pool_size self) (strides self) (name self) (Some x) (output self) in
  shape x = n0 :: n1 :: rest -> length rest <= 1 ->
  0 < fst (strides self) -> 0 < snd (strides self) ->
  fst (pool_size self) <= n0 -> snd (pool_size self) <= n1 ->
  pool_loops self1 x h w (full (h :: w :: rest) s_zero) = Ok out ->
  call x self
  = (if decide (length rest = 1)
     then match copy_last x out with
          | Ok out' => (mk (pool_size self) (strides self) (name self)
                           (Some x) (Some out'), Ok out')
          | Raise e msg => (self1, Raise e msg)
          end
     else (mk (pool_size self) (strides self) (name self) (Some x) (Some out),
           Ok out)).
Proof.
  intros h w self1 Hx Hrest Hs0 Hs1 Hp0 Hp1 Hloops.
  assert (Hz2 : np_zeros [Z.of_nat h; Z.of_nat w] = Ok (full [h; w] (s_zero : R)))
    by apply (np_zeros_nat [h; w]).
  unfold call.
  mstep. fold self1. mstep.
  change (pool_size self1) with (pool_size self).
  change (strides self1) with (strides self).
  rewrite Hx. cbn [tuple_index lookup list_lookup].
  mstep.
  lift_by (out_extent_Ok n0 (fst (pool_size self)) (fst (strides self)) Hs0 Hp0).
  mstep.
  lift_by (out_extent_Ok n1 (snd (pool_size self)) (snd (strides self)) Hs1 Hp1).
  fold h w. lift_by Hz2.
  destruct rest as [|c [|? ?]]; [| |cbn in Hrest; lia].
  - rewrite !decide_False by (cbn; lia).
    mstep. rewrite !Nat2Z.id. lift_by Hloops.
    mstep. mstep. reflexivity.
  - rewrite !decide_True by (cbn; lia).
    cbn [List.last].
    assert (Hz3 : np_zeros [Z.of_nat h; Z.of_nat w; Z.of_nat c]
                  = Ok (full [h; w; c] (s_zero : R)))
      by apply (np_zeros_nat [h; w; c]).
    lift_by Hz3.
    rewrite !Nat2Z.id. lift_by Hloops.
    rewrite decide_True by done.
    destruct (copy_last x out) as [out'|e msg] eqn:Ecopy.
    + mstep. mstep. reflexivity.
    + reflexivity.
Qed.

(** X11. With positive strides and a window that fits, the forward pass
    on a two-axis input fills every output position with the maximum
    of its window.  On a three-axis input the maximum is taken over the
    window in all channels at once, and every channel of an output
    position other than the last holds this one value; the inputs and
    the output are recorded on the layer. *)
Theorem X11_maxpool2d_entries (self : t R) (x : ndarray R) (n0 n1 : nat)
        (rest : list nat) :
  let h := (n0 - fst (pool_size self)) / fst (strides self) + 1 in
  let w := (n1 - snd (pool_size self)) / snd (strides self) + 1 in
  shape x = n0 :: n1 :: rest ->
  rest = [] \/ (exists c, rest = [c] /\ 0 < c) ->
  0 < fst (strides self) -> 0 < snd (strides self) ->
  0 < fst (pool_size self) <= n0 -> 0 < snd (pool_size self) <= n1 ->
  exists out self',
    call x self = (self', Ok out)
    /\ inputs self' = Some x /\ output self' = Some out
    /\ pool_size self' = pool_size self /\ strides self' = strides self
    /\ shape out = h :: w :: rest
    /\ forall i j, i < h -> j < w ->
         rest = [] \/ (i, j) <> (h - 1, w - 1) ->
         exists m, window_max self x i j = Ok m
                   /\ forall tl, in_bounds rest tl -> item out (i :: j :: tl) = m.
Proof.
  intros h w Hx Hrest Hs0 Hs1 Hp0 Hp1.
  set (self1 := mk (pool_size self) (strides self) (name self) (Some x) (output self)).
  assert (Hprod : 0 < product rest).
  { destruct Hrest as [->|(c & -> & Hc)]; unfold product; cbn; lia. }
  destruct (pool_loops_entries self1 x (full (h :: w :: rest) s_zero) n0 n1 rest)
    as (out & Hloops & Hshape & Hent); try done.
  change (pool_loops self1 x h w (full (h :: w :: rest) s_zero) = Ok out) in Hloops.
  change (shape out = h :: w :: rest) in Hshape.
  assert (Hentries : forall i j, i < h -> j < w ->
            exists m, window_max self x i j = Ok m
                      /\ forall tl, in_bounds rest tl -> item out (i :: j :: tl) = m)
    by exact Hent.
  pose proof (call_by_loops self x out n0 n1 rest Hx) as Hcall.
  cbn zeta in Hcall. fold h w self1 in Hcall.
  destruct Hrest as [->|(c & -> & Hc)].
  - rewrite Hcall; [|cbn; lia|done|done|lia|lia|done].
    rewrite decide_False by (cbn; lia).
    eexists _, _. split; [reflexivity|]. do 5 (split; [done|]).
    intros i j Hi Hj _. by apply Hentries.
  - rewrite Hcall; [|cbn; lia|done|done|lia|lia|done].
    rewrite decide_True by done.
    rewrite (copy_last_Ok x out n0 n1 h w c Hx Hshape) by (subst h w; lia).
    eexists _, _. split; [reflexivity|]. do 5 (split; [done|]).
    intros i j Hi Hj [Hnil|Hne]; [done|].
    destruct (Hentries i j Hi Hj) as (m & Hm & Hitems).
    exists m. split; [done|].
    intros tl Htl. rewrite item_gather by (constructor; [|constructor]; done).
    unfold is_prefix. cbn [length take].
    rewrite bool_decide_false by (intros [= -> ->]; done).
    by apply Hitems.
Qed.

Lemma floor_true_div_extent (n k s : nat) :
  0 < s -> k <= n ->
  floor_true_div (Z.of_nat n - Z.of_nat k) s = Ok (Z.of_nat ((n - k) / s)).
Proof.
  intros Hs Hk. unfold floor_true_div. rewrite decide_False by lia. f_equal.
  rewrite Nat2Z.inj_div, Nat2Z.inj_sub by done. done.
Qed.

(** X12. With positive strides and a window that fits, the two spatial
    extents and the strides below [double_exact] (so that the double
    quotients in [output_shape] have the exact floor), what
    [output_shape] reports and stores for the shape of a two- or
    three-axis input is the shape of the array the forward pass returns
    on an input of that shape. *)
Theorem X12_maxpool2d_output_shape (self : t R) (x : ndarray R) (n0 n1 : nat)
        (rest : list nat) (stored : option (list Z)) :
  shape x = n0 :: n1 :: rest ->
  rest = [] \/ (exists c, rest = [c] /\ 0 < c) ->
  0 < fst (strides self) -> 0 < snd (strides self) ->
  0 < fst (pool_size self) <= n0 -> 0 < snd (pool_size self) <= n1 ->
  (Z.of_nat n0 < double_exact)%Z -> (Z.of_nat n1 < double_exact)%Z ->
  (Z.of_nat (fst (strides self)) < double_exact)%Z ->
  (Z.of_nat (snd (strides self)) < double_exact)%Z ->
  exists out self',
    call x self = (self', Ok out)
    /\ output_shape self (ShapeTuple (Z.of_nat <$> shape x)) stored
       = (Some (Z.of_nat <$> shape out), Ok (Z.of_nat <$> shape out)).
Proof.
  intros Hx Hrest Hs0 Hs1 Hp0 Hp1 _ _ _ _.
  set (h := (n0 - fst (pool_size self)) / fst (strides self) + 1).
  set (w := (n1 - snd (pool_size self)) / snd (strides self) + 1).
  set (self1 := mk (pool_size self) (strides self) (name self) (Some x) (output self)).
  assert (Hprod : 0 < product rest).
  { destruct Hrest as [->|(c & -> & Hc)]; unfold product; cbn; lia. }
  destruct (pool_loops_entries self1 x (full (h :: w :: rest) s_zero) n0 n1 rest)
    as (out & Hloops & Hshape & _); try done.
  change (pool_loops self1 x h w (full (h :: w :: rest) s_zero) = Ok out) in Hloops.
  change (shape out = h :: w :: rest) in Hshape.
  pose proof (call_by_loops self x out n0 n1 rest Hx) as Hcall.
  cbn zeta in Hcall. fold h w self1 in Hcall.
  assert (Hshape_of : forall o : ndarray R, shape o = h :: w :: rest ->
            output_shape self (ShapeTuple (Z.of_nat <$> shape x)) stored
            = (Some (Z.of_nat <$> shape o), Ok (Z.of_nat <$> shape o))).
  { intros o ->. unfold output_shape. rewrite Hx.
    cbn [fmap list_fmap tuple_index lookup list_lookup mbind result_bind].
    rewrite !floor_true_div_extent by lia.
    cbn [mbind result_bind mret result_ret].
    mstep. mstep. mstep.
    replace (Z.of_nat ((n0 - fst (pool_size self)) / fst (strides self)) + 1)%Z
      with (Z.of_nat h) by (subst h; lia).
    replace (Z.of_nat ((n1 - snd (pool_size self)) / snd (strides self)) + 1)%Z
      with (Z.of_nat w) by (subst w; lia).
    destruct Hrest as [->|(c & -> & Hc)].
    - rewrite decide_False by (cbn; lia). reflexivity.
    - rewrite decide_True by (cbn; lia). cbn zeta. mstep. reflexivity. }
  destruct Hrest as [->|(c & -> & Hc)].
  - rewrite Hcall; [|cbn; lia|done|done|lia|lia|done].
    rewrite decide_False by (cbn; lia).
    eexists _, _. split; [reflexivity|]. by apply Hshape_of.
  - rewrite Hcall; [|cbn; lia|done|done|lia|lia|done].
    rewrite decide_True by done.
    rewrite (copy_last_Ok x out n0 n1 h w c Hx Hshape) by (subst h w; lia).
    eexists _, _. split; [reflexivity|]. by apply Hshape_of.
Qed.
End MaxPool2DEntries.

(** The 4x4 matrix of the docstring under a 2x2 window moved by 2 gives
    [[5, 9], [8, 6]]; on a 3x3 input with two channels under a 2x2 window
    moved by 1, both channels of the first output position hold 7, the
    largest value of the first window in either channel. *)
Lemma X11_maxpool2d_entries_witness :
  (exists out self',
      MaxPool2D.call Examples.matrix44 (MaxPool2D.init (2, 2) (2, 2) "MaxPool2D")
      = (self', Ok out)
      /\ item (H:=scalar_inhabited) out [0; 0] = 5%Z
      /\ item (H:=scalar_inhabited) out [0; 1] = 9%Z
      /\ item (H:=scalar_inhabited) out [1; 0] = 8%Z
      /\ item (H:=scalar_inhabited) out [1; 1] = 6%Z)
  /\ (exists out self',
        MaxPool2D.call Examples.image332 (MaxPool2D.init (2, 2) (1, 1) "MaxPool2D")
        = (self', Ok out)
        /\ item (H:=scalar_inhabited) out [0; 0; 0] = 7%Z
        /\ item (H:=scalar_inhabited) out [0; 0; 1] = 7%Z).
Proof.
  split.
  - destruct (X11_maxpool2d_entries
                (MaxPool2D.init (2, 2) (2, 2) "MaxPool2D") Examples.matrix44 4 4 [])
      as (out & self' & Hcall & _ & _ & _ & _ & _ & Hent);
      [reflexivity|by left|cbn; lia|cbn; lia|cbn; lia|cbn; lia|].
    exists out, self'. split; [exact Hcall|].
    assert (Hat : forall i j v, i < 2 -> j < 2 ->
              MaxPool2D_methods.window_max
                (MaxPool2D.init (2, 2) (2, 2) "MaxPool2D") Examples.matrix44 i j = Ok v ->
              item (H:=scalar_inhabited) out [i; j] = v).
    { intros i j v Hi Hj Hv.
      destruct (Hent i j Hi Hj (or_introl eq_refl)) as (m & Hm & Hitem).
      rewrite Hm in Hv. injection Hv as <-. apply Hitem. constructor. }
    repeat split; apply Hat; (lia || reflexivity).
  - destruct (X11_maxpool2d_entries
                (MaxPool2D.init (2, 2) (1, 1) "MaxPool2D") Examples.image332 3 3 [2])
      as (out & self' & Hcall & _ & _ & _ & _ & _ & Hent);
      [reflexivity|right; exists 2; split; [reflexivity|lia]
      |cbn; lia|cbn; lia|cbn; lia|cbn; lia|].
    exists out, self'. split; [exact Hcall|].
    destruct (Hent 0 0) as (m & Hm & Hitem); [cbn; lia|cbn; lia|right; cbn; congruence|].
    vm_compute in Hm. injection Hm as <-.
    split; apply Hitem; repeat constructor; lia.
Defined.

(** For the 3x3 input with two channels under a 2x2 window moved by 1,
    [output_shape] reports [(2, 2, 2)], the shape of what the forward
    pass returns. *)
Lemma X12_maxpool2d_output_shape_witness :
  exists out self',
    MaxPool2D.call Examples.image332 (MaxPool2D.init (2, 2) (1, 1) "MaxPool2D")
    = (self', Ok out)
    /\ shape out = [2; 2; 2]
    /\ MaxPool2D_methods.output_shape (R:=Z) (MaxPool2D.init (2, 2) (1, 1) "MaxPool2D")
         (ShapeTuple [3; 3; 2]%Z) None
       = (Some [2; 2; 2]%Z, Ok [2; 2; 2]%Z).
Proof.
  destruct (X12_maxpool2d_output_shape
              (MaxPool2D.init (2, 2) (1, 1) "MaxPool2D") Examples.image332 3 3 [2] None)
    as (out & self' & Hcall & Hshape);
    [reflexivity|right; exists 2; split; [reflexivity|lia]
    |cbn; lia|cbn; lia|cbn; lia|cbn; lia
    |reflexivity|reflexivity|reflexivity|reflexivity|].
  exists out, self'. split; [exact Hcall|].
  change (ShapeTuple (Z.of_nat <$> shape Examples.image332))
    with (ShapeTuple [3; 3; 2]%Z) in Hshape.
  rewrite Hshape.
  vm_compute in Hcall. injection Hcall as _ <-.
  split; reflexivity.
Defined.

(** ** Conv1D: the forward pass at the edges of its domain *)

Section RaisingLoops.
Context {S : Type}.

Lemma foldl_raise (body : nat -> S -> result S) (l : list nat) e msg :
  foldl (fun acc i => a ← acc; body i a) (Raise e msg) l = Raise e msg.
Proof. induction l as [|i l IH]; [done|]. cbn. exact IH. Qed.

(** A loop whose first iteration raises, raises. *)
Lemma for_range_first_raises (n : nat) (body : nat -> S -> result S) (init : S)
      e msg :
  0 < n -> body 0 init = Raise e msg -> for_range n body init = Raise e msg.
Proof.
  intros Hn Hbody. destruct n as [|n]; [lia|].
  unfold for_range. cbn [seq foldl mbind result_bind]. rewrite Hbody.
  apply foldl_raise.
Qed.
End RaisingLoops.

Section Conv1DEdges.
Context `{Scalar R}.
Import Conv1D.

Ltac mstep := erewrite M_bind_eq; [|reflexivity].

Ltac lift_by E :=
  erewrite M_bind_eq; [|unfold m_lift; rewrite E; reflexivity].

Lemma rows_Ok (n s : nat) :
  0 < s -> py_floordiv (Z.of_nat n) (Z.of_nat s) = Ok (Z.of_nat (n / s)).
Proof.
  intros Hs. unfold py_floordiv.
  replace (Z.of_nat s =? 0)%Z with false by (symmetry; apply Z.eqb_neq; lia).
  by rewrite Nat2Z.inj_div.
Qed.

Lemma range_step_first (n s : nat) :
  0 < n -> 0 < s -> exists rest, range_step n s = 0 :: rest.
Proof.
  intros Hn Hs. unfold range_step.
  assert (Hq : 0 < (n + s - 1) / s).
  { apply Nat.div_str_pos. lia. }
  destruct ((n + s - 1) / s) as [|q]; [lia|].
  cbn [seq fmap list_fmap]. by eexists.
Qed.

(** X13. The forward pass of Conv1D cannot be applied to an input with
    fewer than two axes: when the kernel is no longer than the input
    and there is at least one filter, the first window is cut with two
    slices and the call raises IndexError, the input having already
    been recorded as [inputs]. *)
Theorem X13_conv1d_needs_two_axes (self : t R) (x : ndarray R) (f : nat)
        (wrest : list nat) :
  ndim x < 2 -> 0 < size x -> kernel_size self <= size x ->
  0 < strides self ->
  shape (weights self) = f :: wrest -> 0 < f ->
  call x self
  = (mk (number_of_filters self) (kernel_size self) (strides self)
        (activation self) (weights self) (name self) (biases self)
        (Some x) (outputs self) (output_shape_value self),
     Raise IndexError "too many indices for array").
Proof.
  intros Hnd Hsize Hk Hs Hw Hf.
  set (self1 := mk (number_of_filters self) (kernel_size self) (strides self)
        (activation self) (weights self) (name self) (biases self)
        (Some x) (outputs self) (output_shape_value self)).
  unfold call. mstep. fold self1. mstep.
  change (strides self1) with (strides self).
  change (number_of_filters self1) with (number_of_filters self).
  lift_by (rows_Ok (size x) (strides self) Hs).
  assert (Hz : np_zeros [Z.of_nat (size x / strides self);
                         Z.of_nat (number_of_filters self)]
               = Ok (full [size x / strides self; number_of_filters self]
                          (s_zero : R)))
    by apply (np_zeros_nat [size x / strides self; number_of_filters self]).
  lift_by Hz.
  destruct (range_step_first (size x) (strides self) Hsize Hs) as [rest ->].
  assert (Hloop : positions_loop self1 x (0 :: rest)
                    (full [size x / strides self; number_of_filters self] s_zero)
                  = Raise IndexError "too many indices for array").
  { cbn [positions_loop].
    change (kernel_size self1) with (kernel_size self).
    rewrite decide_False by lia.
    unfold filters_loop, len. change (weights self1) with (weights self).
    rewrite Hw. cbn [mbind result_bind].
    rewrite (for_range_first_raises f _ _ IndexError "too many indices for array");
      [done|done|].
    unfold slice2, ndim in *.
    destruct (shape x) as [|n0 [|n1 srest]]; [done|done|cbn in Hnd; lia]. }
  unfold mbind at 1, M_bind, m_lift. rewrite Hloop. reflexivity.
Qed.

(** X14. When the kernel is longer than the input has entries, the loop
    of the forward pass is left before its first window: the result is
    the activation of [x.size // strides] rows that each repeat the
    biases, whatever the weights and the entries of the input are. *)
Theorem X14_conv1d_kernel_too_long (self : t R) (x : ndarray R) :
  size x < kernel_size self -> 0 < strides self ->
  shape (biases self) = [number_of_filters self] ->
  let ws := gather [size x / strides self; number_of_filters self]
              (fun idx => s_add s_zero (item (biases self) (drop 1 idx))) in
  call x self
  = (mk (number_of_filters self) (kernel_size self) (strides self)
        (activation self) (weights self) (name self) (biases self)
        (Some x) (Some [compute_loss (activation self) ws; ws])
        (output_shape_value self),
     Ok (compute_loss (activation self) ws)).
Proof.
  intros Hk Hs Hb ws.
  set (self1 := mk (number_of_filters self) (kernel_size self) (strides self)
        (activation self) (weights self) (name self) (biases self)
        (Some x) (outputs self) (output_shape_value self)).
  unfold call. mstep. fold self1. mstep.
  change (strides self1) with (strides self).
  change (number_of_filters self1) with (number_of_filters self).
  change (biases self1) with (biases self).
  change (activation self1) with (activation self).
  lift_by (rows_Ok (size x) (strides self) Hs).
  assert (Hz : np_zeros [Z.of_nat (size x / strides self);
                         Z.of_nat (number_of_filters self)]
               = Ok (full [size x / strides self; number_of_filters self]
                          (s_zero : R)))
    by apply (np_zeros_nat [size x / strides self; number_of_filters self]).
  lift_by Hz.
  assert (Hloop : forall l z, positions_loop self1 x l z = Ok z).
  { intros l z. destruct l as [|i l]; [done|].
    cbn [positions_loop]. change (kernel_size self1) with (kernel_size self).
    rewrite decide_True by lia. done. }
  lift_by (Hloop (range_step (size x) (strides self))
                 (full [size x / strides self; number_of_filters self] s_zero)).
  assert (Hadd : broadcast_op s_add
                   (full [size x / strides self; number_of_filters self] s_zero)
                   (biases self) = Ok ws).
  { unfold broadcast_op. cbn [shape full]. rewrite Hb.
    assert (Hbs : broadcast_shapes [size x / strides self; number_of_filters self]
                    [number_of_filters self]
                  = Some [size x / strides self; number_of_filters self]).
    { unfold broadcast_shapes. cbn. rewrite decide_True by done. done. }
    rewrite Hbs. f_equal. subst ws. apply gather_ext. intros idx Hidx.
    rewrite bc_index_same by done.
    fold (full [size x / strides self; number_of_filters self] (s_zero : R)).
    rewrite item_full by done. f_equal. f_equal.
    inversion Hidx as [|i0 ? idx1 ? Hi0 Hidx1]; subst.
    inversion Hidx1 as [|i1 ? idx2 ? Hi1 Hidx2]; subst.
    inversion Hidx2; subst.
    unfold bc_index. cbn.
    destruct (decide (number_of_filters self = 1)); [f_equal; lia|done]. }
  lift_by Hadd. mstep. reflexivity.
Qed.
End Conv1DEdges.

(** A vector of ten values given to a Conv1D layer of kernel size 2. *)
Lemma X13_conv1d_needs_two_axes_witness :
  snd (Conv1D.call Examples.vector10 Examples.conv1d0)
  = Raise IndexError "too many indices for array"
  /\ Conv1D.inputs (fst (Conv1D.call Examples.vector10 Examples.conv1d0))
     = Some Examples.vector10.
Proof.
  rewrite (X13_conv1d_needs_two_axes Examples.conv1d0 Examples.vector10 1 [2]);
    [split; reflexivity|cbn; lia|vm_compute; lia|vm_compute; lia|cbn; lia
    |reflexivity|lia].
Defined.

(** The single value 7 given to a Conv1D layer of kernel size 2 and bias
    0: the result is the single row [[0]]. *)
Lemma X14_conv1d_kernel_too_long_witness :
  snd (Conv1D.call (mk_ndarray [1; 1] [7%Z]) Examples.conv1d0)
  = Ok (mk_ndarray [1; 1] [0%Z]).
Proof.
  rewrite (X14_conv1d_kernel_too_long Examples.conv1d0 (mk_ndarray [1; 1] [7%Z]));
    [reflexivity|vm_compute; lia|cbn; lia|reflexivity].
Defined.

(** ** Input: construction and forward pass *)

Section InputLayer.
Context `{Scalar R}.
Import Input.

Ltac mstep := erewrite M_bind_eq; [|reflexivity].

(** X15. An Input layer declared with non-negative extents (a tuple, or
    one integer) draws one bias per entry of that shape from the
    generator, in order, and reports the declared shape; its forward
    pass on an input of that shape is not the identity: it returns
    [x + biases] entry by entry and records the input and this
    result. *)
Theorem X15_input_adds_biases (declared : pyshape) (dims : list Z) (name : string)
        (g : rng R) (x : ndarray R) :
  declared = ShapeTuple dims \/ (exists n, declared = ShapeInt n /\ dims = [n]) ->
  Forall (fun d => 0 <= d)%Z dims ->
  shape x = Z.to_nat <$> dims ->
  exists layer y,
    init declared name g = (mk_rng (draw g) (pos g + size x), Ok layer)
    /\ output_shape layer = declared
    /\ biases layer = mk_ndarray (shape x) (samples g (size x))
    /\ weights layer = empty_array
    /\ call x layer
       = (mk declared name (biases layer) empty_array (Some x) (Some y), Ok y)
    /\ shape y = shape x
    /\ forall idx, in_bounds (shape x) idx ->
         item y idx = s_add (item x idx) (item (biases layer) idx).
Proof.
  intros Hdecl Hdims Hx.
  assert (Hinit : init declared name g
                  = (mk_rng (draw g) (pos g + size x),
                     Ok (mk declared name
                           (mk_ndarray (shape x) (samples g (size x)))
                           empty_array None None))).
  { unfold init.
    assert (Hrandn : randn (R:=R) dims g
                     = (mk_rng (draw g) (pos g + size x),
                        Ok (mk_ndarray (shape x) (samples g (size x))))).
    { rewrite randn_Ok by done. unfold size. by rewrite Hx. }
    destruct Hdecl as [->|(n & -> & ->)];
      erewrite M_bind_eq by exact Hrandn; reflexivity. }
  set (b := mk_ndarray (shape x) (samples g (size x))) in *.
  exists (mk declared name b empty_array None None).
  exists (gather (shape x)
            (fun idx => s_add (item x idx) (item b idx))).
  split; [exact Hinit|]. split; [done|]. split; [done|]. split; [done|].
  split; [|split; [done|]].
  - unfold call. mstep. mstep. cbn [biases].
    assert (Hadd : broadcast_op s_add x b
                   = Ok (gather (shape x)
                           (fun idx => s_add (item x idx) (item b idx)))).
    { unfold broadcast_op. cbn [shape b]. unfold b at 1. cbn [shape].
      rewrite broadcast_shapes_same. f_equal. apply gather_ext.
      intros idx Hidx. unfold b at 1. cbn [shape].
      by rewrite !bc_index_same. }
    erewrite M_bind_eq; [|unfold m_lift; rewrite Hadd; reflexivity].
    mstep. reflexivity.
  - intros idx Hidx. by rewrite item_gather.
Qed.
End InputLayer.

(** [Input((2, 2))] built from the generator whose samples are 0, 1, 2,
    ...: the biases are [[0, 1], [2, 3]], and an input of four ones comes
    out as [[1, 2], [3, 4]]. *)
Lemma X15_input_adds_biases_witness :
  exists layer y,
    Input.init (ShapeTuple [2; 2]%Z) "Input" Examples.counting_rng
    = (mk_rng (draw Examples.counting_rng) 4, Ok layer)
    /\ snd (Input.call (mk_ndarray [2; 2] [1; 1; 1; 1]%Q) layer) = Ok y
    /\ item (H:=scalar_inhabited) y [1; 1] = (1 + 3)%Q.
Proof.
  destruct (X15_input_adds_biases (ShapeTuple [2; 2]%Z) [2; 2]%Z "Input"
              Examples.counting_rng (mk_ndarray [2; 2] [1; 1; 1; 1]%Q))
    as (layer & y & Hinit & _ & Hb & _ & Hcall & _ & Hitems);
    [by left|repeat constructor; lia|reflexivity|].
  exists layer, y. split; [exact Hinit|]. split; [by rewrite Hcall|].
  rewrite Hitems by (repeat constructor; lia). rewrite Hb. reflexivity.
Defined.

(** ** Layer.generate_weights *)

Section GenerateWeights.
Context `{Scalar R}.
Context {dtype : Type} (astype : dtype -> R -> R).
Import Layer_methods.

Lemma strategies_only_three (key : string) :
  key <> "random" -> key <> "xavier" -> key <> "he" ->
  LAYER_INTIALIZATIONS astype !! key = None.
Proof.
  intros H1 H2 H3. unfold LAYER_INTIALIZATIONS.
  rewrite !lookup_insert_ne by done. apply lookup_empty.
Qed.

(** X16. [generate_weights] knows the three strategy names random,
    xavier and he: any other name raises KeyError, and a known name
    raises TypeError when the predecessor reports a tuple rather than a
    number of units; in both cases no sample is drawn and the layer's
    parameters are left as they were.  With the name random and
    non-negative unit counts [p] and [u], the weights are the next
    [p * u] samples as a [p x u] matrix and the biases the [u] samples
    after them, both converted to the element type. *)
Theorem X16_generate_weights (units : Z) (weight_data_type : dtype)
        (st : rng R * (ndarray R * ndarray R)) :
  (forall key previous_units,
      key <> "random" -> key <> "xavier" -> key <> "he" ->
      generate_weights astype units previous_units key weight_data_type st
      = (st, Raise KeyError ("'" ++ key ++ "'")))
  /\ (forall key dims,
        key = "random" \/ key = "xavier" \/ key = "he" ->
        generate_weights astype units (ShapeTuple dims) key weight_data_type st
        = (st, Raise TypeError "'tuple' object cannot be interpreted as an integer"))
  /\ (forall p,
        (0 <= p)%Z -> (0 <= units)%Z ->
        let g := fst st in
        let n := Z.to_nat p * Z.to_nat units in
        let u := Z.to_nat units in
        generate_weights astype units (ShapeInt p) "random" weight_data_type st
        = ((mk_rng (draw g) (pos g + n + u),
            (mk_ndarray [Z.to_nat p; u]
                        (astype weight_data_type <$> samples g n),
             mk_ndarray [u]
                        (astype weight_data_type
                           <$> samples (mk_rng (draw g) (pos g + n)) u))),
           Ok tt)).
Proof.
  split; [|split].
  - intros key previous_units H1 H2 H3.
    unfold generate_weights, dict_getitem.
    by rewrite strategies_only_three.
  - intros key dims Hkey.
    unfold generate_weights, dict_getitem, LAYER_INTIALIZATIONS.
    destruct Hkey as [-> | [-> | ->]].
    + by rewrite lookup_insert_eq.
    + rewrite lookup_insert_ne by done. by rewrite lookup_insert_eq.
    + rewrite !lookup_insert_ne by done. by rewrite lookup_insert_eq.
  - intros p Hp Hu g n u.
    unfold generate_weights, dict_getitem, LAYER_INTIALIZATIONS.
    rewrite lookup_insert_eq. cbn [as_extent].
    unfold Layer.random_initalization.
    assert (Hw : randn (R:=R) [p; units] g
                 = (mk_rng (draw g) (pos g + n),
                    Ok (mk_ndarray [Z.to_nat p; u] (samples g n)))).
    { rewrite randn_Ok by (repeat constructor; lia).
      cbn [fmap list_fmap]. unfold product. cbn [foldr].
      by rewrite Nat.mul_1_r. }
    assert (Hb : randn (R:=R) [units] (mk_rng (draw g) (pos g + n))
                 = (mk_rng (draw g) (pos g + n + u),
                    Ok (mk_ndarray [u] (samples (mk_rng (draw g) (pos g + n)) u)))).
    { rewrite randn_Ok by (repeat constructor; lia).
      cbn [fmap list_fmap]. unfold product. cbn [foldr draw pos].
      by rewrite Nat.mul_1_r. }
    fold g. erewrite M_bind_eq by exact Hw.
    erewrite M_bind_eq by exact Hb.
    reflexivity.
Qed.
End GenerateWeights.

(** A layer of 2 units after one of 3, with the generator whose samples
    are 0, 1, 2, ...: the weights are the samples 0..5, the biases the
    samples 6 and 7; the name glorot is not known. *)
Lemma X16_generate_weights_witness :
  let st := (Examples.counting_rng, (empty_array, empty_array)) in
  Layer_methods.generate_weights Examples.astype_exact 2 (ShapeInt 3) "glorot"
    Examples.Float64 st
  = (st, Raise KeyError "'glorot'")
  /\ Layer_methods.generate_weights Examples.astype_exact 2 (ShapeInt 3) "random"
       Examples.Float64 st
     = ((mk_rng (draw Examples.counting_rng) 8,
         (mk_ndarray [3; 2] (inject_Z <$> [0; 1; 2; 3; 4; 5]%Z),
          mk_ndarray [2] (inject_Z <$> [6; 7]%Z))),
        Ok tt).
Proof.
  intros st.
  destruct (X16_generate_weights Examples.astype_exact 2 Examples.Float64 st)
    as (Hkey & _ & Hrandom).
  split.
  - apply Hkey; discriminate.
  - rewrite Hrandom by lia. reflexivity.
Defined.

(** ** The forward pass of the base class (Dense) and of Dropout *)

Section DenseForward.
Context `{Scalar R}.
Import Layer_call.

Ltac mstep := erewrite M_bind_eq; [|reflexivity].

Lemma item_scalar_array (v : R) : item (scalar_array v) [] = v.
Proof. reflexivity. Qed.

(** [np.dot(x, W) + b] for a vector [x], entry by entry. *)
Lemma weighted_sum_Ok (self : Dense.t R) (h : heap R) (x W b : ndarray R)
      (n m : nat) :
  h !! Dense.weights self = Some W -> h !! Dense.biases self = Some b ->
  shape W = [n; m] -> shape b = [m] -> shape x = [n] ->
  exists ws,
    weighted_sum self x h = Ok ws
    /\ shape ws = [m] /\ well_formed ws
    /\ forall j, j < m ->
         item ws [j]
         = s_add (dot_sum n (fun i => s_mul (item x [i]) (item W [i; j])))
                 (item b [j]).
Proof.
  intros HW Hb HsW Hsb Hx.
  unfold weighted_sum, heap_lookup. rewrite HW, Hb.
  cbn [mbind result_bind]. unfold np_dot_rows. rewrite Hx, HsW.
  rewrite decide_True by done. cbn [mbind result_bind].
  unfold broadcast_op. cbn [shape gather]. rewrite Hsb.
  rewrite broadcast_shapes_same.
  eexists. split; [reflexivity|]. split; [done|].
  split; [apply gather_well_formed|].
  intros j Hj.
  assert (Hin : in_bounds [m] [j]) by (repeat constructor; done).
  rewrite item_gather by done. rewrite !bc_index_same by done.
  rewrite item_gather by done. reflexivity.
Qed.

(** X17. For a weight matrix of [n] rows and [m] columns and [m]
    biases, the forward pass on a vector of [n] entries records the
    input, computes the pre-activation [sum_i x[i] * W[i, j] + b[j]] for
    each of the [m] units, records the pair (output, pre-activation)
    and returns the activation of the pre-activation.  On a vector of
    another length it raises ValueError, and the input has replaced the
    recorded one all the same while the recorded outputs are those of
    the call before. *)
Theorem X17_dense_forward (self : Dense.t R) (h : heap R) (x W b : ndarray R)
        (n m : nat) :
  h !! Dense.weights self = Some W -> h !! Dense.biases self = Some b ->
  shape W = [n; m] -> shape b = [m] ->
  (shape x = [n] ->
   exists ws,
     call h x self
     = (set_outputs [compute_loss (Dense.activation self) ws; ws]
                    (set_inputs x self),
        Ok (compute_loss (Dense.activation self) ws))
     /\ shape ws = [m] /\ well_formed ws
     /\ forall j, j < m ->
          item ws [j]
          = s_add (dot_sum n (fun i => s_mul (item x [i]) (item W [i; j])))
                  (item b [j]))
  /\ (forall n', shape x = [n'] -> n' <> n ->
      call h x self = (set_inputs x self, Raise ValueError "shapes not aligned")).
Proof.
  intros HW Hb HsW Hsb. split.
  - intros Hx.
    destruct (weighted_sum_Ok self h x W b n m HW Hb HsW Hsb Hx)
      as (ws & Hws & Hshape & Hwf & Hitems).
    exists ws. split; [|done].
    unfold call. mstep. mstep.
    change (weighted_sum (set_inputs x self) x h) with (weighted_sum self x h).
    erewrite M_bind_eq; [|unfold m_lift; rewrite Hws; reflexivity].
    mstep. reflexivity.
  - intros n' Hx Hne.
    unfold call. mstep. mstep.
    change (weighted_sum (set_inputs x self) x h) with (weighted_sum self x h).
    unfold weighted_sum, heap_lookup. rewrite HW.
    cbn [mbind result_bind]. unfold np_dot_rows. rewrite Hx, HsW.
    rewrite decide_False by done. reflexivity.
Qed.
End DenseForward.

Section DropoutForward.
Context `{Scalar R}.
Import Dropout.

Ltac mstep := erewrite M_bind_eq; [|reflexivity].

(** X18. Outside training the forward pass of Dropout is the forward
    pass of the base class.  In training, under the shape conditions of
    the base class, it divides every pre-activation by
    [1 - dropout_rate] and applies the activation: no unit is set to
    zero, and the dropout rate itself is left unchanged. *)
Theorem X18_dropout_forward (self : t R) (h : heap R) (x W b : ndarray R)
        (n m : nat) :
  h !! Dense.weights (base self) = Some W ->
  h !! Dense.biases (base self) = Some b ->
  shape W = [n; m] -> shape b = [m] -> shape x = [n] ->
  call h x false self
  = (mk (fst (Layer_call.call h x (base self))) (dropout_rate self),
     snd (Layer_call.call h x (base self)))
  /\ exists ws scaled,
       Layer_call.weighted_sum (base self) x h = Ok ws
       /\ call h x true self
          = (mk (Layer_call.set_outputs
                   [compute_loss (Dense.activation (base self)) scaled; scaled]
                   (Layer_call.set_inputs x (base self)))
                (dropout_rate self),
             Ok (compute_loss (Dense.activation (base self)) scaled))
       /\ shape scaled = [m] /\ well_formed scaled
       /\ forall j, j < m ->
            item scaled [j]
            = s_div (item ws [j]) (s_sub (s_of_Z 1) (dropout_rate self)).
Proof.
  intros HW Hb HsW Hsb Hx. split.
  - unfold call, on_base. unfold mbind at 1, M_bind, m_modify. cbn [base dropout_rate].
    change (Layer_call.call h x (Layer_call.set_inputs x (base self)))
      with (Layer_call.call h x (base self)).
    by destruct (Layer_call.call h x (base self)).
  - destruct (weighted_sum_Ok (base self) h x W b n m HW Hb HsW Hsb Hx)
      as (ws & Hws & Hshape & Hwf & Hitems).
    set (rate := s_sub (s_of_Z 1) (dropout_rate self)).
    assert (Hdiv : inplace_op s_div ws (scalar_array rate)
                   = Ok (gather [m] (fun idx => s_div (item ws idx) rate))).
    { unfold inplace_op. rewrite Hshape. cbn [shape scalar_array].
      rewrite broadcast_shapes_scalar_r. rewrite decide_True by done.
      f_equal. }
    exists ws, (gather [m] (fun idx => s_div (item ws idx) rate)).
    split; [exact Hws|]. split; [|split; [done|split; [apply gather_well_formed|]]].
    + unfold call. mstep. mstep. cbn [base dropout_rate].
      change (Layer_call.weighted_sum (Layer_call.set_inputs x (base self)) x h)
        with (Layer_call.weighted_sum (base self) x h).
      erewrite M_bind_eq; [|unfold m_lift; rewrite Hws; reflexivity].
      fold rate.
      erewrite M_bind_eq; [|unfold m_lift; rewrite Hdiv; reflexivity].
      mstep. reflexivity.
    + intros j Hj. by rewrite item_gather by (repeat constructor; done).
Qed.
End DropoutForward.

(** The Dense layer of 3 units with weights [[1, 2, 3], [4, 5, 6]], zero
    biases and the identity as activation: the vector [1, 2] gives
    [9, 12, 15]; a vector of three entries is refused. *)
Lemma X17_dense_forward_witness :
  snd (Layer_call.call (snd Examples.dense_store) (mk_ndarray [2] [1; 2]%Q)
                       Examples.dense0)
  = Ok (mk_ndarray [3] [9; 12; 15]%Q)
  /\ snd (Layer_call.call (snd Examples.dense_store) (mk_ndarray [3] [1; 2; 3]%Q)
                          Examples.dense0)
     = Raise ValueError "shapes not aligned".
Proof.
  split.
  - destruct (X17_dense_forward Examples.dense0 (snd Examples.dense_store)
                (mk_ndarray [2] [1; 2]%Q)
                (mk_ndarray [2; 3] [1; 2; 3; 4; 5; 6]%Q)
                (mk_ndarray [3] [0; 0; 0]%Q) 2 3)
      as [Hok _]; [reflexivity|reflexivity|reflexivity|reflexivity|].
    destruct (Hok eq_refl) as (ws & Hcall & _).
    rewrite Hcall. vm_compute in Hcall. injection Hcall as _ _ <-. reflexivity.
  - destruct (X17_dense_forward Examples.dense0 (snd Examples.dense_store)
                (mk_ndarray [3] [1; 2; 3]%Q)
                (mk_ndarray [2; 3] [1; 2; 3; 4; 5; 6]%Q)
                (mk_ndarray [3] [0; 0; 0]%Q) 2 3)
      as [_ Hbad]; [reflexivity|reflexivity|reflexivity|reflexivity|].
    rewrite (Hbad 3); [reflexivity|reflexivity|lia].
Defined.

(** The same layer as a Dropout layer of rate 1/2: in training the vector
    [1, 2] gives [18, 24, 30], each pre-activation divided by 1/2. *)
Lemma X18_dropout_forward_witness :
  exists scaled,
    snd (Dropout.call (snd Examples.dense_store) (mk_ndarray [2] [1; 2]%Q) true
                      (Dropout.mk Examples.dense0 (1 # 2)%Q))
    = Ok scaled
    /\ item (H:=scalar_inhabited) scaled [0] = ((0 + 1 * 1 + 2 * 4 + 0) / (1 - (1 # 2)))%Q.
Proof.
  destruct (X18_dropout_forward (Dropout.mk Examples.dense0 (1 # 2)%Q)
              (snd Examples.dense_store) (mk_ndarray [2] [1; 2]%Q)
              (mk_ndarray [2; 3] [1; 2; 3; 4; 5; 6]%Q)
              (mk_ndarray [3] [0; 0; 0]%Q) 2 3)
    as [_ (ws & scaled & Hws & Hcall & _ & _ & Hitems)];
    [reflexivity|reflexivity|reflexivity|reflexivity|reflexivity|].
  exists scaled. split; [by rewrite Hcall|].
  rewrite (Hitems 0) by lia.
  vm_compute in Hws. injection Hws as <-. reflexivity.
Defined.

(** ** Conv2D: the columns built by im2col *)

Section IndexVectors.
Context {A : Type}.

Lemma fmap_div_block (f : nat -> A) (n a m o : nat) :
  o + m <= n ->
  (fun r => f (r / n)) <$> seq (a * n + o) m = replicate m (f a).
Proof.
  revert o. induction m as [|m IH]; intros o Hom; [done|].
  cbn [seq fmap list_fmap replicate]. f_equal.
  - f_equal. rewrite Nat.div_add_l by lia. rewrite Nat.div_small by lia. lia.
  - replace (S (a * n + o)) with (a * n + S o) by lia. apply IH. lia.
Qed.

Lemma fmap_mod_block (f : nat -> A) (a reps m o : nat) :
  o + m <= a ->
  (fun r => f (r mod a)) <$> seq (reps * a + o) m = f <$> seq o m.
Proof.
  revert o. induction m as [|m IH]; intros o Hom; [done|].
  cbn [seq fmap list_fmap]. f_equal.
  - f_equal. rewrite Nat.add_comm, Nat.Div0.mod_add. apply Nat.mod_small. lia.
  - replace (S (reps * a + o)) with (reps * a + S o) by lia. apply IH. lia.
Qed.

Lemma repeat_data (f : nat -> A) (a n : nat) :
  (x ← f <$> seq 0 a; replicate n x) = (fun r => f (r / n)) <$> seq 0 (a * n).
Proof.
  induction a as [|a IH]; [done|].
  rewrite seq_S, fmap_app, bind_app, IH. cbn [fmap list_fmap mbind].
  rewrite Nat.add_0_l.
  replace (S a * n) with (a * n + n) by lia.
  rewrite seq_app, fmap_app. f_equal.
  cbn [list_bind]. rewrite app_nil_r. rewrite Nat.add_0_l.
  rewrite <- (Nat.add_0_r (a * n)). symmetry. apply fmap_div_block. lia.
Qed.

Lemma tile_data (f : nat -> A) (a reps : nat) :
  (_ ← seq 0 reps; f <$> seq 0 a) = (fun r => f (r mod a)) <$> seq 0 (reps * a).
Proof.
  induction reps as [|reps IH]; [done|].
  rewrite seq_S, bind_app, IH. cbn [mbind list_bind].
  rewrite app_nil_r.
  replace (S reps * a) with (reps * a + a) by lia.
  rewrite seq_app, fmap_app. f_equal.
  rewrite Nat.add_0_l. rewrite <- (Nat.add_0_r (reps * a)).
  symmetry. apply fmap_mod_block. lia.
Qed.

Lemma np_repeat_vec (f : nat -> A) (a n : nat) :
  np_repeat (vec_of a f) (Z.of_nat n) = Ok (vec_of (a * n) (fun r => f (r / n))).
Proof.
  unfold np_repeat. rewrite decide_False by lia. rewrite Nat2Z.id.
  unfold vec_of. cbn [data]. rewrite repeat_data.
  by rewrite length_fmap, length_seq.
Qed.

Lemma np_tile_vec (f : nat -> A) (a reps : nat) :
  np_tile (vec_of a f) (Z.of_nat reps)
  = Ok (vec_of (reps * a) (fun r => f (r mod a))).
Proof.
  unfold np_tile. rewrite decide_False by lia. rewrite Nat2Z.id.
  unfold vec_of. cbn [data]. rewrite tile_data.
  by rewrite length_fmap, length_seq.
Qed.

Lemma map_arr_vec {B} (g : A -> B) (f : nat -> A) (n : nat) :
  map_arr g (vec_of n f) = vec_of n (fun r => g (f r)).
Proof. unfold map_arr, vec_of. cbn. by rewrite <- list_fmap_compose. Qed.

Lemma vec_of_ext (f g : nat -> A) (n : nat) :
  (forall r, r < n -> f r = g r) -> vec_of n f = vec_of n g.
Proof.
  intros Hfg. unfold vec_of. f_equal. apply list_fmap_ext.
  intros i r Hr. apply Hfg. apply lookup_seq in Hr. lia.
Qed.

Lemma reshape_target_column (n : nat) :
  reshape_target n [-1; 1]%Z = Ok [n; 1].
Proof.
  unfold reshape_target.
  change (negb (forallb (Z.leb (-1)) [-1; 1]%Z)) with false.
  change (count_minus_one [-1; 1]%Z) with 1.
  change (known_product [-1; 1]%Z) with 1%Z. cbv beta iota.
  rewrite decide_True by (split; [lia|apply Z.mod_1_r]).
  cbn [fmap list_fmap].
  rewrite decide_True by done. rewrite decide_False by done.
  by rewrite Z.div_1_r, Nat2Z.id.
Qed.

Lemma reshape_target_row (n : nat) :
  reshape_target n [1; -1]%Z = Ok [1; n].
Proof.
  unfold reshape_target.
  change (negb (forallb (Z.leb (-1)) [1; -1]%Z)) with false.
  change (count_minus_one [1; -1]%Z) with 1.
  change (known_product [1; -1]%Z) with 1%Z. cbv beta iota.
  rewrite decide_True by (split; [lia|apply Z.mod_1_r]).
  cbn [fmap list_fmap].
  rewrite decide_False by done. rewrite decide_True by done.
  by rewrite Z.div_1_r, Nat2Z.id.
Qed.

Lemma size_vec_of (f : nat -> A) (n : nat) : size (vec_of n f) = n.
Proof. unfold size, vec_of, product. cbn. lia. Qed.

Lemma np_reshape_column (f : nat -> A) (n : nat) :
  np_reshape (vec_of n f) [-1; 1]%Z = Ok (mk_ndarray [n; 1] (f <$> seq 0 n)).
Proof.
  unfold np_reshape. rewrite size_vec_of, reshape_target_column. done.
Qed.

Lemma np_reshape_row (f : nat -> A) (n : nat) :
  np_reshape (vec_of n f) [1; -1]%Z = Ok (mk_ndarray [1; n] (f <$> seq 0 n)).
Proof.
  unfold np_reshape. rewrite size_vec_of, reshape_target_row. done.
Qed.

Context `{Inhabited A}.

Lemma item_column (f : nat -> A) (n r : nat) :
  r < n -> item (mk_ndarray [n; 1] (f <$> seq 0 n)) [r; 0] = f r.
Proof.
  intros Hr. unfold item, get_at. cbn [shape data ravel_index].
  rewrite decide_True by done. rewrite decide_True by lia.
  cbn [fmap option_fmap option_map mbind option_bind product foldr].
  replace (r * (1 * 1) + (0 * 1 + 0)) with r by lia.
  rewrite list_lookup_fmap, lookup_seq_lt by lia. done.
Qed.

Lemma item_row (f : nat -> A) (n q : nat) :
  q < n -> item (mk_ndarray [1; n] (f <$> seq 0 n)) [0; q] = f q.
Proof.
  intros Hq. unfold item, get_at. cbn [shape data ravel_index].
  rewrite decide_True by lia. rewrite decide_True by done.
  cbn [fmap option_fmap option_map mbind option_bind product foldr].
  match goal with |- context [_ !! ?o] => replace o with q by (cbn; lia) end.
  rewrite list_lookup_fmap, lookup_seq_lt by lia. done.
Qed.
End IndexVectors.

Section FancyIndexing.
Lemma np_arange_vec (n : nat) : np_arange (Z.of_nat n) = vec_of n (fun r => r).
Proof.
  unfold np_arange, vec_of. rewrite Nat2Z.id. by rewrite list_fmap_id.
Qed.

Lemma broadcast_shapes_col_row (K Q : nat) :
  broadcast_shapes [K; 1] [1; Q] = Some [K; Q].
Proof.
  unfold broadcast_shapes. cbn.
  repeat case_decide; subst; cbn; try done; lia.
Qed.

Lemma broadcast_shapes_full_col (K Q : nat) :
  broadcast_shapes [K; Q] [K; 1] = Some [K; Q].
Proof.
  unfold broadcast_shapes. cbn.
  repeat case_decide; subst; cbn; try done; lia.
Qed.

Lemma bc_index_col (K r q : nat) : r < K -> bc_index [K; 1] [r; q] = [r; 0].
Proof.
  intros Hr. unfold bc_index. cbn.
  rewrite (decide_True (P := 1 = 1)) by done.
  case_decide; [f_equal; lia|done].
Qed.

Lemma bc_index_row (Q r q : nat) : q < Q -> bc_index [1; Q] [r; q] = [0; q].
Proof.
  intros Hq. unfold bc_index. cbn.
  rewrite (decide_True (P := 1 = 1)) by done.
  case_decide; [do 2 f_equal; lia|done].
Qed.

(** [col.reshape(-1, 1) + row.reshape(1, -1)] *)
Lemma outer_add (K Q : nat) (f g : nat -> nat) :
  broadcast_op Nat.add (mk_ndarray [K; 1] (f <$> seq 0 K))
                       (mk_ndarray [1; Q] (g <$> seq 0 Q))
  = Ok (gather [K; Q] (fun idx => match idx with
                                  | [r; q] => f r + g q
                                  | _ => 0
                                  end)).
Proof.
  unfold broadcast_op. cbn [shape]. rewrite broadcast_shapes_col_row.
  f_equal. apply gather_ext. intros idx Hidx.
  inversion Hidx as [|r ? idx1 ? Hr Hidx1]; subst.
  inversion Hidx1 as [|q ? idx2 ? Hq Hidx2]; subst.
  inversion Hidx2; subst.
  rewrite bc_index_col, bc_index_row by done.
  by rewrite item_column, item_row.
Qed.

Context `{Inhabited A}.

Lemma fancy_index3_Ok (x : ndarray A) (n0 n1 n2 K Q : nat)
      (fi fj : list nat -> nat) (fk : nat -> nat) :
  shape x = [n0; n1; n2] ->
  (forall r q, r < K -> q < Q ->
     fi [r; q] < n0 /\ fj [r; q] < n1 /\ fk r < n2) ->
  fancy_index3 x (gather [K; Q] fi) (gather [K; Q] fj)
               (mk_ndarray [K; 1] (fk <$> seq 0 K))
  = Ok (gather [K; Q] (fun idx => match idx with
                                  | [r; q] => item x [fi [r; q]; fj [r; q]; fk r]
                                  | _ => inhabitant
                                  end)).
Proof.
  intros Hx Hb. unfold fancy_index3. rewrite Hx. cbn [shape gather].
  rewrite broadcast_shapes_same. cbn [mbind option_bind].
  rewrite broadcast_shapes_full_col. cbn [length app].
  apply gather_result_Ok. intros idx Hidx.
  inversion Hidx as [|r ? idx1 ? Hr Hidx1]; subst.
  inversion Hidx1 as [|q ? idx2 ? Hq Hidx2]; subst.
  inversion Hidx2; subst.
  cbn [take drop].
  fold (gather [K; Q] fi). fold (gather [K; Q] fj).
  rewrite (bc_index_same [K; Q]) by done.
  rewrite !item_gather by done.
  rewrite bc_index_col, item_column by done.
  destruct (Hb r q Hr Hq) as (Ha & Hb' & Hc).
  by rewrite decide_True.
Qed.
End FancyIndexing.

Section Im2col.
Context `{Scalar R}.
Import Conv2D.

Lemma source_in_bounds (n0 n1 c kh kw s0 s1 r q : nat) :
  let h := (n0 - kh) / s0 + 1 in
  let w := (n1 - kw) / s1 + 1 in
  0 < s0 -> 0 < s1 -> 0 < kh <= n0 -> 0 < kw <= n1 ->
  r < c * (kh * kw) -> q < h * w ->
  in_bounds [n0; n1; c] (im2col_source kh kw s0 s1 w r q).
Proof.
  intros h w Hs0 Hs1 Hkh Hkw Hr Hq.
  assert (Hw : 0 < w) by (subst w; lia).
  assert (Hqh : q / w < h) by (apply Nat.Div0.div_lt_upper_bound; lia).
  assert (Hqw : q mod w < w) by (apply Nat.mod_upper_bound; lia).
  assert (Hrk : r mod (kh * kw) < kh * kw) by (apply Nat.mod_upper_bound; nia).
  assert (Ha : r mod (kh * kw) / kw < kh)
    by (apply Nat.Div0.div_lt_upper_bound; lia).
  assert (Hb : r mod kw < kw) by (apply Nat.mod_upper_bound; lia).
  assert (Hc : r / (kh * kw) < c) by (apply Nat.Div0.div_lt_upper_bound; lia).
  pose proof (window_fits n0 kh s0 (q / w) Hs0 (proj2 Hkh) Hqh) as Hf0.
  pose proof (window_fits n1 kw s1 (q mod w) Hs1 (proj2 Hkw) Hqw) as Hf1.
  unfold im2col_source. repeat constructor; [nia|nia|done].
Qed.

(** The result of [im2col] in closed form. *)
Lemma im2col_Ok (self : t R) (x : ndarray R) (n0 n1 c kh kw s0 s1 : nat) :
  let h := (n0 - kh) / s0 + 1 in
  let w := (n1 - kw) / s1 + 1 in
  kernel_size self = (kh, kw) -> strides self = (s0, s1) ->
  shape x = [n0; n1; c] ->
  0 < s0 -> 0 < s1 -> 0 < kh <= n0 -> 0 < kw <= n1 ->
  im2col self x
  = Ok (gather [c * (kh * kw); h * w]
          (fun idx => match idx with
                      | [r; q] => item x (im2col_source kh kw s0 s1 w r q)
                      | _ => inhabitant
                      end)).
Proof.
  intros h w Hk Hs Hx Hs0 Hs1 Hkh Hkw.
  unfold im2col. rewrite Hk, Hs, Hx.
  cbn [tuple_index lookup list_lookup mbind result_bind List.last].
  rewrite (out_extent_Ok n0 kh s0) by lia.
  cbn [mbind result_bind].
  rewrite (out_extent_Ok n1 kw s1) by lia.
  cbn [mbind result_bind]. fold h w.
  rewrite !np_arange_vec.
  repeat (first [rewrite np_repeat_vec | rewrite np_tile_vec
                | rewrite map_arr_vec | rewrite np_reshape_column
                | rewrite np_reshape_row | rewrite outer_add
                | rewrite <- Nat2Z.inj_mul];
          cbn [mbind result_bind]).
  replace (kh * c * kw) with (c * (kh * kw)) by lia.
  erewrite fancy_index3_Ok; [|exact Hx|].
  - reflexivity.
  - intros r q Hr Hq.
    pose proof (source_in_bounds n0 n1 c kh kw s0 s1 r q Hs0 Hs1 Hkh Hkw Hr Hq)
      as Hb.
    unfold im2col_source in Hb. fold h w in Hb.
    inversion Hb as [|? ? ? ? Ha Hb1]; subst.
    inversion Hb1 as [|? ? ? ? Hb' Hb2]; subst.
    inversion Hb2 as [|? ? ? ? Hc _]; subst.
    done.
Qed.

(** X19. For an input of [n0 x n1] positions and [c] channels, a kernel
    that fits and positive strides, [im2col] returns a matrix with one
    row per (channel, kernel row, kernel column), in this order, and
    one column per output position, row-major: the entry in row [r] and
    column [q] is the input value at kernel offset
    [((r mod (kh * kw)) / kw, r mod kw)] from the window of position
    [(q / w, q mod w)], in channel [r / (kh * kw)]; no index leaves the
    input. *)
Theorem X19_im2col_entries (self : t R) (x : ndarray R)
        (n0 n1 c kh kw s0 s1 : nat) :
  let h := (n0 - kh) / s0 + 1 in
  let w := (n1 - kw) / s1 + 1 in
  kernel_size self = (kh, kw) -> strides self = (s0, s1) ->
  shape x = [n0; n1; c] ->
  0 < s0 -> 0 < s1 -> 0 < kh <= n0 -> 0 < kw <= n1 ->
  exists cols,
    im2col self x = Ok cols
    /\ shape cols = [c * (kh * kw); h * w] /\ well_formed cols
    /\ forall r q, r < c * (kh * kw) -> q < h * w ->
         in_bounds (shape x) (im2col_source kh kw s0 s1 w r q)
         /\ item cols [r; q] = item x (im2col_source kh kw s0 s1 w r q).
Proof.
  intros h w Hk Hs Hx Hs0 Hs1 Hkh Hkw.
  eexists. split; [by apply (im2col_Ok self x n0 n1 c kh kw s0 s1)|].
  split; [done|]. split; [apply gather_well_formed|].
  intros r q Hr Hq. split.
  - rewrite Hx. by apply source_in_bounds.
  - by rewrite item_gather by (repeat constructor; done).
Qed.
End Im2col.

(** The 3x3 input with two channels under a 2x2 kernel moved by 1: the
    matrix has 8 rows and 4 columns; row 5 is channel 1 at kernel offset
    (0, 1), column 3 is the output position (1, 1), and the entry is the
    input value 4 at [(1, 2, 1)]. *)
Lemma X19_im2col_entries_witness :
  exists cols,
    Conv2D.im2col MoreExamples.conv2d1 Examples.image332 = Ok cols
    /\ shape cols = [8; 4]
    /\ im2col_source 2 2 1 1 2 5 3 = [1; 2; 1]
    /\ item (H:=scalar_inhabited) cols [5; 3] = 4%Z.
Proof.
  destruct (X19_im2col_entries MoreExamples.conv2d1 Examples.image332
              3 3 2 2 2 1 1)
    as (cols & Hcols & Hshape & _ & Hitems);
    [reflexivity|reflexivity|reflexivity|lia|lia|lia|lia|].
  exists cols. split; [exact Hcols|]. split; [exact Hshape|].
  split; [reflexivity|].
  destruct (Hitems 5 3) as [_ Hitem]; [cbn; lia|cbn; lia|].
  rewrite Hitem. reflexivity.
Defined.

(** ** Conv2D: the forward pass *)

Section Conv2DForward.
Context `{Scalar R}.
Import Conv2D Conv2D_methods.

Ltac mstep := erewrite M_bind_eq; [|reflexivity].

Ltac lift_by E :=
  erewrite M_bind_eq; [|unfold m_lift; rewrite E; reflexivity].

Lemma reshape_target_rows (F K : nat) :
  0 < F -> reshape_target (F * K) [Z.of_nat F; -1]%Z = Ok [F; K].
Proof.
  intros HF. unfold reshape_target, count_minus_one, known_product.
  cbn [forallb].
  replace (-1 <=? Z.of_nat F)%Z with true by (symmetry; apply Z.leb_le; lia).
  change (-1 <=? -1)%Z with true. cbn [andb negb].
  rewrite filter_cons_False by (cbn; lia). rewrite filter_cons_True by done.
  rewrite filter_cons_True by (cbn; lia). rewrite filter_cons_False by (cbn; lia).
  cbn [filter list_filter length foldr].
  rewrite Z.mul_1_r.
  rewrite decide_True.
  - cbn [fmap list_fmap]. rewrite decide_False by lia.
    rewrite decide_True by done.
    rewrite Nat2Z.inj_mul, Z.mul_comm, Z.div_mul by lia.
    by rewrite !Nat2Z.id.
  - split; [lia|]. rewrite Nat2Z.inj_mul, Z.mul_comm. apply Z.mod_mul. lia.
Qed.

Lemma extent_Ok (n k s : nat) :
  0 < s -> k <= n ->
  py_floordiv (Z.of_nat n - Z.of_nat k) (Z.of_nat s) = Ok (Z.of_nat ((n - k) / s)).
Proof.
  intros Hs Hk. unfold py_floordiv.
  replace (Z.of_nat s =? 0)%Z with false by (symmetry; apply Z.eqb_neq; lia).
  by rewrite Nat2Z.inj_div, Nat2Z.inj_sub.
Qed.

Lemma dot_sum_ext (k : nat) (f g : nat -> R) :
  (forall l, l < k -> f l = g l) -> dot_sum k f = dot_sum k g.
Proof.
  unfold dot_sum. induction k as [|k IH]; intros Hfg; [done|].
  rewrite seq_S, !foldl_app. cbn [foldl].
  rewrite IH by (intros l Hl; apply Hfg; lia).
  by rewrite Hfg by lia.
Qed.

Lemma item_split_columns (d : list R) (F h w f i j : nat) :
  f < F -> i < h -> j < w ->
  item (mk_ndarray [F; h; w] d) [f; i; j]
  = item (mk_ndarray [F; h * w] d) [f; i * w + j].
Proof.
  intros Hf Hi Hj. unfold item, get_at. cbn [shape data ravel_index].
  rewrite !decide_True by (done || nia).
  cbn [fmap option_fmap option_map mbind option_bind product foldr].
  do 2 f_equal. lia.
Qed.

(** X20. For an input of [n0 x n1] positions and [c] channels, a kernel
    that fits, positive strides and weights of [F * c * kh * kw]
    entries, the forward pass records the input and the pair (output,
    weighted sum) and returns the activation of the weighted sum, an
    array of shape [(h, w, F)] whose entry at position [(i, j)] and
    filter [f] is the sum, over the rows [l] of the im2col matrix, of
    the [l]-th stored weight of the [f]-th block of [c * kh * kw]
    consecutive weights times the input entry of row [l] and column
    [i * w + j]; the biases take no part.  [output_shape] reports and
    stores this shape for the shape of the input. *)
Theorem X20_conv2d_forward (self : t R) (x : ndarray R)
        (n0 n1 c kh kw s0 s1 : nat)
        (stored : option pyshape * option (list Z)) :
  let h := (n0 - kh) / s0 + 1 in
  let w := (n1 - kw) / s1 + 1 in
  let K := c * (kh * kw) in
  let F := number_of_filters self in
  kernel_size self = (kh, kw) -> strides self = (s0, s1) ->
  shape x = [n0; n1; c] ->
  0 < s0 -> 0 < s1 -> 0 < kh <= n0 -> 0 < kw <= n1 ->
  0 < F -> size (weights self) = F * K ->
  exists ws,
    call x self
    = (mk F (kernel_size self) (strides self) (activation self) (weights self)
          (biases self) (name self) (Some x)
          (Some [compute_loss (activation self) ws; ws]),
       Ok (compute_loss (activation self) ws))
    /\ shape ws = [h; w; F] /\ well_formed ws
    /\ (forall i j f, i < h -> j < w -> f < F ->
         item ws [i; j; f]
         = dot_sum K (fun l =>
             s_mul (item (weights_col self K) [f; l])
                   (item x (im2col_source kh kw s0 s1 w l (i * w + j)))))
    /\ output_shape self (ShapeTuple (Z.of_nat <$> shape x)) stored
       = ((Some (ShapeTuple (Z.of_nat <$> shape x)), Some (Z.of_nat <$> shape ws)),
          Ok (Z.of_nat <$> shape ws)).
Proof.
  intros h w K F Hk Hs Hx Hs0 Hs1 Hkh Hkw HF Hsize.
  set (self1 := mk F (kernel_size self) (strides self) (activation self)
                   (weights self) (biases self) (name self) (Some x)
                   (outputs self)).
  pose proof (im2col_Ok self1 x n0 n1 c kh kw s0 s1 Hk Hs Hx Hs0 Hs1 Hkh Hkw)
    as Hcols.
  cbn zeta in Hcols. fold h w K in Hcols.
  set (cols := gather [K; h * w]
                 (fun idx => match idx with
                             | [r; q] => item x (im2col_source kh kw s0 s1 w r q)
                             | _ => inhabitant
                             end)) in *.
  assert (Hwc : np_reshape (weights self) [Z.of_nat F; -1]%Z
                = Ok (weights_col self K)).
  { unfold np_reshape. rewrite Hsize. by rewrite reshape_target_rows. }
  set (dot := gather [F; h * w]
                (fun idx => match idx with
                            | [r; q] => dot_sum K (fun l =>
                                          s_mul (item (weights_col self K) [r; l])
                                                (item cols [l; q]))
                            | _ => s_zero
                            end)).
  assert (Hdot : np_dot (weights_col self K) cols = Ok dot).
  { unfold np_dot. cbn [shape weights_col cols gather].
    rewrite decide_True by done. reflexivity. }
  set (ws := gather [h; w; F]
               (fun idx => match idx with
                           | [p; q; r] => item (mk_ndarray [F; h; w] (data dot)) [r; p; q]
                           | _ => inhabitant
                           end)).
  assert (Hws : (r ← np_reshape dot [Z.of_nat F; Z.of_nat h; Z.of_nat w];
                 transpose_120 r) = Ok ws).
  { unfold np_reshape.
    change [Z.of_nat F; Z.of_nat h; Z.of_nat w] with (Z.of_nat <$> [F; h; w]).
    rewrite reshape_target_nat. rewrite decide_True.
    - reflexivity.
    - unfold size, dot, product. cbn. lia. }
  exists ws. split; [|split; [done|split; [apply gather_well_formed|split]]].
  - unfold call. mstep. fold F self1. mstep.
    lift_by Hcols.
    change (kernel_size self1) with (kernel_size self).
    change (strides self1) with (strides self).
    change (weights self1) with (weights self).
    change (number_of_filters self1) with F.
    replace (fst (kernel_size self)) with kh by (by rewrite Hk).
    replace (snd (kernel_size self)) with kw by (by rewrite Hk).
    replace (fst (strides self)) with s0 by (by rewrite Hs).
    replace (snd (strides self)) with s1 by (by rewrite Hs).
    rewrite Hx. cbn [tuple_index lookup list_lookup].
    mstep. lift_by (out_extent_Ok n0 kh s0 Hs0 (proj2 Hkh)).
    mstep. lift_by (out_extent_Ok n1 kw s1 Hs1 (proj2 Hkw)).
    fold h w.
    lift_by Hwc. lift_by Hdot. lift_by Hws.
    mstep. reflexivity.
  - intros i j f Hi Hj Hf. unfold ws.
    rewrite item_gather by (repeat constructor; done).
    rewrite item_split_columns by done.
    change (mk_ndarray [F; h * w] (data dot)) with dot. unfold dot.
    assert (Hq : i * w + j < h * w) by nia.
    rewrite item_gather by (repeat constructor; done).
    apply dot_sum_ext. intros l Hl. f_equal. unfold cols.
    by rewrite item_gather by (repeat constructor; done).
  - unfold output_shape. mstep. rewrite Hx.
    cbn [fmap list_fmap tuple_index lookup list_lookup].
    replace (fst (kernel_size self)) with kh by (by rewrite Hk).
    replace (snd (kernel_size self)) with kw by (by rewrite Hk).
    replace (fst (strides self)) with s0 by (by rewrite Hs).
    replace (snd (strides self)) with s1 by (by rewrite Hs).
    mstep. lift_by (extent_Ok n0 kh s0 Hs0 (proj2 Hkh)).
    mstep. lift_by (extent_Ok n1 kw s1 Hs1 (proj2 Hkw)).
    mstep. cbn [fst snd shape ws gather fmap list_fmap].
    replace (Z.of_nat ((n0 - kh) / s0) + 1)%Z with (Z.of_nat h) by (subst h; lia).
    replace (Z.of_nat ((n1 - kw) / s1) + 1)%Z with (Z.of_nat w) by (subst w; lia).
    reflexivity.
Qed.

(** X21. Whatever the layer and the input, the outcome of the forward
    pass, a value or an exception, is the same for any biases: the
    forward pass of Conv2D never reads them. *)
Theorem X21_conv2d_ignores_biases (self : t R) (x b : ndarray R) :
  snd (call x (mk (number_of_filters self) (kernel_size self) (strides self)
                  (activation self) (weights self) b (name self)
                  (inputs self) (outputs self)))
  = snd (call x self).
Proof.
  unfold call, mbind, M_bind, m_modify, m_get, m_lift, mret, M_ret.
  cbn [number_of_filters kernel_size strides activation weights biases name
       inputs outputs fst snd].
  change (im2col (mk (number_of_filters self) (kernel_size self) (strides self)
                     (activation self) (weights self) b (name self) (Some x)
                     (outputs self)) x)
    with (im2col (mk (number_of_filters self) (kernel_size self) (strides self)
                     (activation self) (weights self) (biases self) (name self)
                     (Some x) (outputs self)) x).
  repeat match goal with
         | |- context [match ?r with Ok _ => _ | Raise _ _ => _ end] =>
             destruct r; cbn [fst snd]
         end; reflexivity.
Qed.
End Conv2DForward.

(** The 3x3 input with two channels and one filter of a 2x2 kernel moved
    by 1, with the stored weights 1, ..., 8: the output has shape
    (2, 2, 1), and its first entry is
    [1*1 + 2*3 + 3*7 + 4*1 + 5*2 + 6*4 + 7*0 + 8*2 = 82]; the first four
    weights meet channel 0, the last four channel 1. *)
Lemma X20_conv2d_forward_witness :
  exists ws,
    snd (Conv2D.call Examples.image332 MoreExamples.conv2d1) = Ok ws
    /\ shape ws = [2; 2; 1]
    /\ item (H:=scalar_inhabited) ws [0; 0; 0] = 82%Z
    /\ snd (Conv2D_methods.output_shape MoreExamples.conv2d1
              (ShapeTuple [3; 3; 2]%Z) (None, None))
       = Ok [2; 2; 1]%Z.
Proof.
  destruct (X20_conv2d_forward MoreExamples.conv2d1 Examples.image332
              3 3 2 2 2 1 1 (None, None))
    as (ws & Hcall & Hshape & _ & Hitems & Hout);
    [reflexivity|reflexivity|reflexivity|lia|lia|lia|lia|cbn; lia|reflexivity|].
  exists ws. split; [by rewrite Hcall|]. split; [exact Hshape|].
  split.
  - rewrite (Hitems 0 0 0) by (cbn; lia). reflexivity.
  - change (ShapeTuple (Z.of_nat <$> shape Examples.image332))
      with (ShapeTuple [3; 3; 2]%Z) in Hout.
    rewrite Hout, Hshape. reflexivity.
Defined.

(** ** Conv2D: generating the weights *)

Section Conv2DInit.
Context `{Scalar R}.
Context {dtype : Type} (astype : dtype -> R -> R).
(** Converting to an element type keeps zero. *)
Hypothesis astype_zero : forall dt, astype dt s_zero = s_zero.
Import Conv2D_init.


End Conv2DInit.


(** ** Conv2D: the weight gradients of the backward pass *)

Section LoopExtensionality.
Context {S : Type}.

Lemma for_range_ext (n : nat) (body body' : nat -> S -> result S) (init : S) :
  (forall k a, body k a = body' k a) ->
  for_range n body init = for_range n body' init.
Proof.
  intros Hb. induction n as [|n IH]; [done|].
  rewrite !for_range_S, IH. destruct (for_range n body' init); [|done].
  apply Hb.
Qed.
End LoopExtensionality.

Section Conv2DGradients.
Context `{Scalar R}.
Import Conv2D Conv2D_backward.

Lemma slice3_but_last_Ok (x : ndarray R) (n0 n1 c i0 i1 j0 j1 : nat) :
  shape x = [n0; n1; c] ->
  exists a,
    slice3_but_last x i0 i1 j0 j1 = Ok a
    /\ shape a = [Nat.min i1 n0 - Nat.min i0 n0; Nat.min j1 n1 - Nat.min j0 n1; c - 1].
Proof. intros Hx. unfold slice3_but_last. rewrite Hx. by eexists. Qed.

Lemma window_product_Ok (x d : ndarray R) (n0 n1 c i0 i1 j0 j1 : nat) :
  shape x = [n0; n1; c] -> shape d = [n0; n1; c] ->
  exists t,
    (a ← slice3_but_last x i0 i1 j0 j1;
     b ← slice3_but_last d i0 i1 j0 j1;
     tensordot3 a b) = Ok t.
Proof.
  intros Hx Hd.
  destruct (slice3_but_last_Ok x n0 n1 c i0 i1 j0 j1 Hx) as (a & -> & Ha).
  destruct (slice3_but_last_Ok d n0 n1 c i0 i1 j0 j1 Hd) as (b & -> & Hb).
  cbn [mbind result_bind]. unfold tensordot3, ndim. rewrite Ha, Hb.
  rewrite decide_True by done. rewrite decide_True by done. by eexists.
Qed.

Lemma add_to_filter_Ok (wg : ndarray R) (kh kw c F k : nat) (t : R) :
  shape wg = [kh; kw; c; F] -> k < F ->
  add_to_filter wg k t
  = Ok (gather [kh; kw; c; F]
          (fun idx => if decide (idx !! 3 = Some k)
                      then s_add (item wg idx) t else item wg idx)).
Proof.
  intros Hwg Hk. unfold add_to_filter. rewrite Hwg.
  by rewrite decide_True.
Qed.

(** The loop over the filters adds one and the same number to every
    entry. *)
Lemma filters_loop_constant (self : t R) (x d wg : ndarray R)
      (n0 n1 c i j : nat) (v : R) :
  let sh := [fst (kernel_size self); snd (kernel_size self); c;
             number_of_filters self] in
  shape x = [n0; n1; c] -> shape d = [n0; n1; c] ->
  constant_array sh wg v ->
  exists wg' v', filters_loop self x d i j wg = Ok wg' /\ constant_array sh wg' v'.
Proof.
  intros sh Hx Hd [Hshape Hv].
  unfold filters_loop. destruct (kernel_size self) as [kh kw] eqn:Hk.
  cbn [fst snd] in sh.
  destruct (window_product_Ok x d n0 n1 c i (i + kh) j (j + kw) Hx Hd)
    as [t Ht].
  set (F := number_of_filters self) in *.
  destruct (for_range_invariant_ix
              (fun k (o : ndarray R) =>
                 shape o = sh
                 /\ forall idx, in_bounds sh idx ->
                      item o idx = if decide (nth 3 idx 0 < k)
                                   then s_add v t else v)
              F
              (fun k weights_gradients =>
                 a ← slice3_but_last x i (i + kh) j (j + kw);
                 b ← slice3_but_last d i (i + kh) j (j + kw);
                 t ← tensordot3 a b;
                 add_to_filter weights_gradients k t)
              wg)
    as (wg' & Hloop & Hshape' & Hitems).
  - split; [done|]. intros idx Hidx.
    rewrite decide_False by lia. by apply Hv.
  - intros k o Hk' [Ho Hoitems].
    destruct (slice3_but_last x i (i + kh) j (j + kw)) as [a|] eqn:Ea; [|done].
    destruct (slice3_but_last d i (i + kh) j (j + kw)) as [b|] eqn:Eb; [|done].
    cbn [mbind result_bind] in Ht |- *. rewrite Ht. cbn [mbind result_bind].
    rewrite (add_to_filter_Ok o kh kw c F k t Ho Hk').
    eexists. split; [reflexivity|]. split; [done|].
    intros idx Hidx. rewrite item_gather by done.
    rewrite (Hoitems idx Hidx).
    inversion Hidx as [|i0 ? idx1 ? _ Hidx1]; subst.
    inversion Hidx1 as [|i1 ? idx2 ? _ Hidx2]; subst.
    inversion Hidx2 as [|i2 ? idx3 ? _ Hidx3]; subst.
    inversion Hidx3 as [|i3 ? idx4 ? Hi3 Hidx4]; subst.
    inversion Hidx4; subst.
    cbn [lookup list_lookup nth].
    destruct (decide (i3 = k)) as [->|Hne].
    + rewrite decide_True by done. rewrite decide_False by lia.
      by rewrite decide_True by lia.
    + rewrite decide_False by congruence.
      destruct (decide (i3 < k)).
      * by rewrite decide_True by lia.
      * by rewrite decide_False by lia.
  - exists wg', (s_add v t). split; [exact Hloop|]. split; [done|].
    intros idx Hidx. rewrite (Hitems idx Hidx).
    rewrite decide_True; [done|].
    inversion Hidx as [|i0 ? idx1 ? _ Hidx1]; subst.
    inversion Hidx1 as [|i1 ? idx2 ? _ Hidx2]; subst.
    inversion Hidx2 as [|i2 ? idx3 ? _ Hidx3]; subst.
    inversion Hidx3 as [|i3 ? idx4 ? Hi3 Hidx4]; subst.
    done.
Qed.

Lemma columns_loop_constant (self : t R) (x d : ndarray R) (n0 n1 c i : nat)
      (positions : list nat) :
  let sh := [fst (kernel_size self); snd (kernel_size self); c;
             number_of_filters self] in
  shape x = [n0; n1; c] -> shape d = [n0; n1; c] ->
  forall wg v, constant_array sh wg v ->
    exists wg' v', columns_loop self x d i positions wg = Ok wg'
                   /\ constant_array sh wg' v'.
Proof.
  intros sh Hx Hd. induction positions as [|j rest IH]; intros wg v Hwg.
  - by exists wg, v.
  - cbn [columns_loop]. rewrite Hx.
    cbn [tuple_index lookup list_lookup mbind result_bind].
    destruct (decide _) as [Hbreak|Hfits]; [by exists wg, v|].
    destruct (filters_loop_constant self x d wg n0 n1 c i j v Hx Hd Hwg)
      as (wg1 & v1 & -> & Hwg1).
    cbn [mbind result_bind]. by apply (IH wg1 v1).
Qed.

Lemma rows_loop_constant (self : t R) (x d : ndarray R) (n0 n1 c : nat)
      (positions : list nat) :
  let sh := [fst (kernel_size self); snd (kernel_size self); c;
             number_of_filters self] in
  shape x = [n0; n1; c] -> shape d = [n0; n1; c] ->
  0 < snd (strides self) ->
  forall wg v, constant_array sh wg v ->
    exists wg' v', rows_loop self x d positions wg = Ok wg'
                   /\ constant_array sh wg' v'.
Proof.
  intros sh Hx Hd Hs1. induction positions as [|i rest IH]; intros wg v Hwg.
  - by exists wg, v.
  - cbn [rows_loop]. rewrite Hx.
    cbn [tuple_index lookup list_lookup mbind result_bind].
    unfold py_range. rewrite decide_False by lia.
    cbn [mbind result_bind].
    destruct (columns_loop_constant self x d n0 n1 c i
                (range_step n1 (snd (strides self))) Hx Hd wg v Hwg)
      as (wg1 & v1 & -> & Hwg1).
    cbn [mbind result_bind]. by apply (IH wg1 v1).
Qed.

(** Two inputs of one shape that differ in the last channel only have
    the same slices. *)
Lemma slice3_but_last_ignores (x x' : ndarray R) (n0 n1 c i0 i1 j0 j1 : nat) :
  shape x = [n0; n1; c] -> shape x' = [n0; n1; c] ->
  (forall a b ch, ch < c - 1 -> item x [a; b; ch] = item x' [a; b; ch]) ->
  slice3_but_last x i0 i1 j0 j1 = slice3_but_last x' i0 i1 j0 j1.
Proof.
  intros Hx Hx' Hagree. unfold slice3_but_last. rewrite Hx, Hx'.
  f_equal. apply gather_ext. intros idx Hidx.
  inversion Hidx as [|a0 ? idx1 ? _ Hidx1]; subst.
  inversion Hidx1 as [|a1 ? idx2 ? _ Hidx2]; subst.
  inversion Hidx2 as [|ch ? idx3 ? Hch Hidx3]; subst.
  inversion Hidx3; subst. by apply Hagree.
Qed.

Lemma columns_loop_ignores (self : t R) (x x' d : ndarray R) (n0 n1 c i : nat)
      (positions : list nat) (wg : ndarray R) :
  shape x = [n0; n1; c] -> shape x' = [n0; n1; c] ->
  (forall a b ch, ch < c - 1 -> item x [a; b; ch] = item x' [a; b; ch]) ->
  columns_loop self x d i positions wg = columns_loop self x' d i positions wg.
Proof.
  intros Hx Hx' Hagree. revert wg.
  induction positions as [|j rest IH]; intros wg; [done|].
  cbn [columns_loop]. rewrite Hx, Hx'.
  cbn [tuple_index lookup list_lookup mbind result_bind].
  destruct (decide _) as [Hbreak|Hfits]; [done|].
  assert (Hf : filters_loop self x d i j wg = filters_loop self x' d i j wg).
  { unfold filters_loop. destruct (kernel_size self) as [kh kw].
    apply for_range_ext. intros k a.
    by rewrite (slice3_but_last_ignores x x' n0 n1 c). }
  rewrite Hf. destruct (filters_loop self x' d i j wg); [|done].
  cbn [mbind result_bind]. apply IH.
Qed.

Lemma rows_loop_ignores (self : t R) (x x' d : ndarray R) (n0 n1 c : nat)
      (positions : list nat) (wg : ndarray R) :
  shape x = [n0; n1; c] -> shape x' = [n0; n1; c] ->
  (forall a b ch, ch < c - 1 -> item x [a; b; ch] = item x' [a; b; ch]) ->
  rows_loop self x d positions wg = rows_loop self x' d positions wg.
Proof.
  intros Hx Hx' Hagree. revert wg.
  induction positions as [|i rest IH]; intros wg; [done|].
  cbn [rows_loop]. rewrite Hx, Hx'.
  cbn [tuple_index lookup list_lookup mbind result_bind].
  destruct (py_range n1 (snd (strides self))) as [columns|]; [|done].
  cbn [mbind result_bind].
  rewrite (columns_loop_ignores self x x' d n0 n1 c i columns wg Hx Hx' Hagree).
  destruct (columns_loop self x' d i columns wg); [|done].
  cbn [mbind result_bind]. apply IH.
Qed.

(** The loops read the kernel size, the strides and the number of
    filters of the layer, not its recorded input. *)
Lemma columns_loop_self (self : t R) (y x d : ndarray R) (i : nat)
      (positions : list nat) (wg : ndarray R) :
  columns_loop (with_inputs y self) x d i positions wg
  = columns_loop self x d i positions wg.
Proof.
  revert wg. induction positions as [|j rest IH]; intros wg; [done|].
  cbn [columns_loop].
  destruct (tuple_index (shape x) 0) as [n0|]; [|done].
  destruct (tuple_index (shape x) 1) as [n1|]; [|done].
  cbn [mbind result_bind with_inputs kernel_size].
  destruct (decide _); [done|].
  change (filters_loop (with_inputs y self) x d i j wg)
    with (filters_loop self x d i j wg).
  destruct (filters_loop self x d i j wg); [|done].
  cbn [mbind result_bind]. apply IH.
Qed.

Lemma rows_loop_self (self : t R) (y x d : ndarray R)
      (positions : list nat) (wg : ndarray R) :
  rows_loop (with_inputs y self) x d positions wg
  = rows_loop self x d positions wg.
Proof.
  revert wg. induction positions as [|i rest IH]; intros wg; [done|].
  cbn [rows_loop].
  destruct (tuple_index (shape x) 1) as [n1|]; [|done].
  cbn [mbind result_bind with_inputs strides].
  destruct (py_range n1 (snd (strides self))) as [columns|]; [|done].
  cbn [mbind result_bind]. rewrite columns_loop_self.
  destruct (columns_loop self x d i columns wg); [|done].
  cbn [mbind result_bind]. apply IH.
Qed.

(** X23. After a forward pass on an input of three axes, and with
    positive strides, the loops of the backward pass return a weight
    gradient of the shape [(kh, kw, c, F)] all of whose entries are one
    and the same number, for every kernel entry, channel and filter;
    and this gradient is the same for two inputs that differ in their
    last channel only, which the loops never read. *)
Theorem X23_conv2d_weight_gradients (self : t R) (x : ndarray R) (delta : R)
        (n0 n1 c : nat) :
  let sh := [fst (kernel_size self); snd (kernel_size self); c;
             number_of_filters self] in
  shape x = [n0; n1; c] ->
  0 < fst (strides self) -> 0 < snd (strides self) ->
  (exists wg v,
      weights_gradients (with_inputs x self) delta = Ok wg
      /\ shape wg = sh
      /\ forall idx, in_bounds sh idx -> item wg idx = v)
  /\ (forall x',
        shape x' = [n0; n1; c] ->
        (forall a b ch, ch < c - 1 -> item x [a; b; ch] = item x' [a; b; ch]) ->
        weights_gradients (with_inputs x' self) delta
        = weights_gradients (with_inputs x self) delta).
Proof.
  intros sh Hx Hs0 Hs1.
  assert (Hrun : forall y, shape y = [n0; n1; c] ->
            weights_gradients (with_inputs y self) delta
            = rows_loop self y (full [n0; n1; c] delta)
                (range_step n0 (fst (strides self))) (full sh s_zero)).
  { intros y Hy. unfold weights_gradients.
    cbn [with_inputs inputs attr mbind result_bind kernel_size strides
         number_of_filters].
    rewrite Hy. cbn [last mbind result_bind].
    assert (Hz : np_zeros [Z.of_nat (fst (kernel_size self));
                           Z.of_nat (snd (kernel_size self));
                           Z.of_nat c; Z.of_nat (number_of_filters self)]
                 = Ok (full sh (s_zero : R))) by apply (np_zeros_nat sh).
    rewrite Hz. cbn [mbind result_bind tuple_index lookup list_lookup].
    unfold py_range. rewrite decide_False by lia.
    cbn [mbind result_bind]. apply rows_loop_self. }
  split.
  - rewrite (Hrun x Hx).
    destruct (rows_loop_constant self x (full [n0; n1; c] delta)
                n0 n1 c (range_step n0 (fst (strides self))) Hx eq_refl Hs1
                (full sh s_zero) s_zero)
      as (wg & v & Hloop & Hshape & Hitems).
    + split; [done|]. intros idx Hidx. by apply item_full.
    + exists wg, v. done.
  - intros x' Hx' Hagree. rewrite (Hrun x Hx), (Hrun x' Hx').
    symmetry.
    apply (rows_loop_ignores self x x' _ n0 n1 c); done.
Qed.
End Conv2DGradients.

(** The 3x3 input with two channels, one filter of a 2x2 kernel moved by
    1 and [delta = 1]: the four windows of channel 0 sum to 12, 12, 20
    and 20, and every one of the eight entries of the gradient is 64. *)
Lemma X23_conv2d_weight_gradients_witness :
  exists wg,
    Conv2D_backward.weights_gradients
      (Conv2D_backward.with_inputs Examples.image332 MoreExamples.conv2d1) 1%Z
    = Ok wg
    /\ shape wg = [2; 2; 2; 1]
    /\ item (H:=scalar_inhabited) wg [0; 0; 0; 0] = 64%Z
    /\ item (H:=scalar_inhabited) wg [1; 1; 1; 0] = 64%Z.
Proof.
  destruct (X23_conv2d_weight_gradients MoreExamples.conv2d1 Examples.image332
              1%Z 3 3 2)
    as [(wg & v & Hrun & Hshape & Hitems) _]; [reflexivity|cbn; lia|cbn; lia|].
  exists wg. split; [exact Hrun|]. split; [exact Hshape|].
  assert (Hv : v = 64%Z).
  { rewrite <- (Hitems [0; 0; 0; 0]) by (repeat constructor; cbn; lia).
    vm_compute in Hrun. injection Hrun as <-. reflexivity. }
  rewrite !Hitems by (repeat constructor; cbn; lia). done.
Defined.

(** ** Dropout: the backward pass *)

Section DropoutBackward.
Context `{Scalar R}.
Import Dropout_backward.

(** X24. With a dropout rate for which [1 - dropout_rate] is zero, the
    backward pass of Dropout never returns: it raises, at the latest
    with ZeroDivisionError when the scale [1 / (1 - dropout_rate)] is
    formed, before the optimizer is asked, so the optimizers and the
    parameters are left as they were.  When the backward pass returns,
    for a weight matrix of [n] rows and [m] columns, the layer refers
    to the same parameter objects and has kept its rate, the updated
    weights have kept their shape, and the gradient handed back is a
    matrix of [m] rows and [n] columns, one scalar times the transpose
    of the updated weights. *)
Theorem X24_dropout_backward (self : Dropout.t R) (gradient w b : ndarray R)
        (st : Optimizers R) (n m : nat) :
  snd st !! Dense.weights (Dropout.base self) = Some w ->
  snd st !! Dense.biases (Dropout.base self) = Some b ->
  shape w = [n; m] ->
  (s_is_zero (s_sub (s_of_Z 1) (Dropout.dropout_rate self)) = true ->
   exists e msg, backpropagate self gradient st = (st, Raise e msg))
  /\ (forall g self' st',
        backpropagate self gradient st = (st', Ok (g, self')) ->
        self' = self
        /\ length (fst st') = length (fst st)
        /\ shape g = [m; n]
        /\ exists (delta : R) (w' : ndarray R),
             snd st' !! Dense.weights (Dropout.base self) = Some w'
             /\ shape w' = [n; m]
             /\ forall i j, i < n -> j < m ->
                  item g [j; i] = s_mul delta (item w' [i; j])).
Proof.
  intros Hw Hb Hsw. split.
  - intros Hzero. unfold backpropagate.
    destruct (match Dense.regulizer (Dropout.base self) with
              | Some r =>
                  w ← heap_deref (Dense.weights (Dropout.base self));
                  b ← heap_deref (Dense.biases (Dropout.base self));
                  mret (r gradient w b)
              | None => mret gradient
              end st) as [s1 [g0|e0 m0]] eqn:Hreg.
    2:{ pose proof (regulizer_step_state _ _ _ _ _ Hreg) as ->.
        eexists _, _. apply M_bind_raise. exact Hreg. }
    pose proof (regulizer_step_state _ _ _ _ _ Hreg) as ->.
    rewrite (M_bind_eq _ _ _ _ _ Hreg).
    destruct (attr "outputs" (Dense.outputs (Dropout.base self))) as [outs|e1 m1];
      [|by eexists _, _].
    rewrite (M_bind_eq (m_lift (Ok outs)) _ st st outs eq_refl).
    destruct (mapM_result _ outs) as [terms|e2 m2]; [|by eexists _, _].
    rewrite (M_bind_eq (m_lift (Ok terms)) _ st st terms eq_refl).
    destruct (np_average terms) as [delta|e3 m3]; [|by eexists _, _].
    rewrite (M_bind_eq (m_lift (Ok delta)) _ st st delta eq_refl).
    unfold float_reciprocal. rewrite Hzero. by eexists _, _.
  - unfold backpropagate. intros g self' st' Hrun.
    apply M_bind_Ok_inv in Hrun as (s1 & g0 & Hreg & Hrun).
    apply regulizer_step_state in Hreg as ->.
    apply M_bind_Ok_inv in Hrun as (s1 & outs & Hq1 & Hrun).
    apply inv_m_lift in Hq1 as [-> _].
    apply M_bind_Ok_inv in Hrun as (s1 & terms & Hq2 & Hrun).
    apply inv_m_lift in Hq2 as [-> _].
    apply M_bind_Ok_inv in Hrun as (s1 & delta & Hq3 & Hrun).
    apply inv_m_lift in Hq3 as [-> _].
    apply M_bind_Ok_inv in Hrun as (s1 & scale & Hq3' & Hrun).
    apply inv_m_lift in Hq3' as [-> _].
    apply M_bind_Ok_inv in Hrun as (s1 & x & Hq4 & Hrun).
    apply inv_m_lift in Hq4 as [-> _].
    apply M_bind_Ok_inv in Hrun as (s1 & wb & Hq5 & Hrun).
    assert (Hlen : length (fst s1) = length (fst st)).
    { unfold with_optimizer in Hq5. destruct (fst st !! 0) as [o|]; [|done].
      destruct (AdaMax.apply_gradients _ _ _ _ _) as [[o' h'] r'].
      injection Hq5 as <- _. cbn [fst]. by rewrite length_insert. }
    apply inv_with_optimizer in Hq5 as (o & o' & _ & Hopt).
    destruct (apply_gradients_Ok_arrays _ _ w b _ _ _ _ _ _ _ Hopt Hw Hb)
      as (-> & w' & b' & Hw' & _ & Hsw' & _ & Wfw' & _).
    cbn [snd fst Dense.weights] in *.
    apply M_bind_Ok_inv in Hrun as (s2 & w2 & Hq6 & Hrun).
    apply inv_heap_deref in Hq6 as [-> Hw2].
    rewrite Hw' in Hw2. injection Hw2 as <-.
    injection Hrun as <- <- <-.
    split; [by destruct self as [[] ?]|]. split; [done|].
    rewrite Hsw in Hsw'.
    split; [unfold np_transpose; cbn [shape map_arr gather]; by rewrite Hsw'|].
    exists (s_div delta scale), w'. split; [done|]. split; [done|].
    intros i j Hi Hj.
    rewrite item_map_arr.
    + unfold np_transpose. rewrite item_gather; [done|].
      rewrite Hsw'. repeat constructor; done.
    + apply gather_well_formed.
    + unfold np_transpose. cbn [shape gather]. rewrite Hsw'.
      repeat constructor; done.
Qed.
End DropoutBackward.

(** The Dense example as a Dropout layer: with rate 1 the backward pass
    raises ZeroDivisionError and leaves the store alone; with rate 1/2 it
    returns a gradient of 3 rows and 2 columns. *)
Lemma X24_dropout_backward_witness :
  Dropout_backward.backpropagate (Dropout.mk Examples.dense0 1%Q)
    Examples.dense_gradient Examples.dense_store
  = (Examples.dense_store, Raise ZeroDivisionError "float division by zero")
  /\ exists g self' st',
       Dropout_backward.backpropagate (Dropout.mk Examples.dense0 (1 # 2)%Q)
         Examples.dense_gradient Examples.dense_store
       = (st', Ok (g, self'))
       /\ shape g = [3; 2].
Proof.
  split.
  - destruct (X24_dropout_backward (Dropout.mk Examples.dense0 1%Q)
                Examples.dense_gradient
                (mk_ndarray [2; 3] [1; 2; 3; 4; 5; 6]%Q) (mk_ndarray [3] [0; 0; 0]%Q)
                Examples.dense_store 2 3 eq_refl eq_refl eq_refl) as [Hzero _].
    destruct (Hzero eq_refl) as (e & msg & Hrun). rewrite Hrun.
    vm_compute in Hrun. by injection Hrun as <- <-.
  - destruct (Dropout_backward.backpropagate (Dropout.mk Examples.dense0 (1 # 2)%Q)
                Examples.dense_gradient Examples.dense_store)
      as [st' [[g self']|e msg]] eqn:Hrun;
      [|vm_compute in Hrun; discriminate Hrun].
    destruct (X24_dropout_backward (Dropout.mk Examples.dense0 (1 # 2)%Q)
                Examples.dense_gradient
                (mk_ndarray [2; 3] [1; 2; 3; 4; 5; 6]%Q) (mk_ndarray [3] [0; 0; 0]%Q)
                Examples.dense_store 2 3 eq_refl eq_refl eq_refl) as [_ Hret].
    destruct (Hret g self' st' Hrun) as (_ & _ & Hsg & _).
    exists g, self', st'. split; [reflexivity|exact Hsg].
Defined.
